(** * Django issue automation: the staged validation pipeline

    A shallow embedding of [src/django-skill-correct/main.py]: the issue
    parser, the documentation parsers, the consistency checker, the issue
    scanner and the pipeline controller [work_on_issue], followed by the
    properties of the specification that concern them.

    Modelling conventions.
    - A Python [str] is a [string]: the UTF-8 bytes of the text.  Substring
      tests ([in]), [split], [startswith] are exact on that encoding.  Case
      mapping ([lower], [upper]), [strip], case-insensitive matching and
      the regular-expression classes [\d], [\w], [\s] are the ones Python
      applies to ASCII characters; bytes above 127 are left alone by the
      case maps and belong to no class.  Python goes further on other
      characters: U+00A0 and U+3000 are spaces, full-width digits are
      digits, accented letters are word characters and have case.  The
      model and the source therefore agree on texts of ASCII characters,
      [ascii_text]; a property whose wording rests on one of these classes
      or case maps is stated for such texts, and a property that only
      relates results of the source to each other is stated for all.
    - The project directory is a tree of [node]s rooted at the current
      working directory.  Every file is a readable text file, [docs] is a
      directory when it exists, and what a glob finds is a file.  A run on
      which the source raises (an unreadable file, a directory where a
      document or a globbed file name is expected, a malformed
      [pyproject.toml]) returns nothing and is not modelled: [read_text]
      gives [None] at a directory and [glob] passes over a directory whose
      name is selected.
    - [pyproject.toml], [CLAUDE.md] and the workflow document are parsed by
      the source into fields that no later stage reads; they are left out
      of the state.  [print] calls produce no value and are dropped.
    - The instance fields of [DjangoIssueAutomation] are the record
      [Automation]; every method is a function on that record, and
      [work_on_issue_method] returns the outcome together with the state
      in which it leaves the instance.
    - [list(set(l))] enumerates a set in an order the language does not
      fix; that order is a parameter [list_of_set] of the definitions that
      use it, and [set_order] says what can be assumed of it. *)

From Stdlib Require Import String Ascii List Bool Arith Lia Permutation.
From Stdlib Require Import Numbers.DecimalString.
From Stdlib Require Import Sorting.Sorted.
Import ListNotations.
Open Scope string_scope.
Open Scope list_scope.

Set Implicit Arguments.

(** ** Text primitives *)

Module Text.

Definition newline : ascii := "010"%char.
Definition dquote : ascii := "034"%char.
Definition squote : ascii := "039"%char.

Definition in_range (lo hi c : ascii) : bool :=
  (Ascii.leb lo c && Ascii.leb c hi)%bool.

Definition is_upper (c : ascii) : bool := in_range "A" "Z" c.
Definition is_lower (c : ascii) : bool := in_range "a" "z" c.
Definition is_digit (c : ascii) : bool := in_range "0" "9" c.

(** [\w] on ASCII: letters, digits and the underscore. *)
Definition is_word (c : ascii) : bool :=
  (is_upper c || is_lower c || is_digit c || Ascii.eqb c "_")%bool.

(** [str.isspace] and [\s] on ASCII: TAB, LF, VT, FF, CR, the four
    separators FS, GS, RS, US, and the space. *)
Definition is_space (c : ascii) : bool :=
  (in_range "009" "013" c || in_range "028" "031" c || Ascii.eqb c " ")%bool.

Definition lower_char (c : ascii) : ascii :=
  if is_upper c then ascii_of_nat (nat_of_ascii c + 32) else c.

Definition upper_char (c : ascii) : ascii :=
  if is_lower c then ascii_of_nat (nat_of_ascii c - 32) else c.

Fixpoint map_string (f : ascii -> ascii) (s : string) : string :=
  match s with
  | EmptyString => EmptyString
  | String c s' => String (f c) (map_string f s')
  end.

(** [s.lower()] and [s.upper()]. *)
Definition lower : string -> string := map_string lower_char.
Definition upper : string -> string := map_string upper_char.

(** [s.startswith(p)]. *)
Fixpoint startswith (p s : string) : bool :=
  match p, s with
  | EmptyString, _ => true
  | String a p', String b s' => (Ascii.eqb a b && startswith p' s')%bool
  | String _ _, EmptyString => false
  end.

(** [sub in s]. *)
Fixpoint contains (sub s : string) : bool :=
  match s with
  | EmptyString => startswith sub EmptyString
  | String _ s' => (startswith sub s || contains sub s')%bool
  end.

(** [s.endswith(p)]. *)
Definition endswith (p s : string) : bool :=
  let n := String.length s - String.length p in
  (String.length p <=? String.length s)%nat && String.eqb (substring n (String.length p) s) p.

(** [any(kw in s for kw in kws)]. *)
Definition contains_any (kws : list string) (s : string) : bool :=
  existsb (fun kw => contains kw s) kws.

Fixpoint lstrip (s : string) : string :=
  match s with
  | EmptyString => EmptyString
  | String c s' => if is_space c then lstrip s' else s
  end.

Fixpoint rstrip (s : string) : string :=
  match s with
  | EmptyString => EmptyString
  | String c s' =>
      match rstrip s' with
      | EmptyString => if is_space c then EmptyString else String c EmptyString
      | r => String c r
      end
  end.

(** [s.strip()]. *)
Definition strip (s : string) : string := lstrip (rstrip s).

(** [s.split('\n')]: never empty, the last piece is what follows the last
    newline. *)
Fixpoint split_lines (s : string) : list string :=
  match s with
  | EmptyString => [EmptyString]
  | String c s' =>
      if Ascii.eqb c newline then EmptyString :: split_lines s'
      else match split_lines s' with
           | h :: t => String c h :: t
           | [] => [String c EmptyString]
           end
  end.

(** [s[n:]]. *)
Fixpoint drop (n : nat) (s : string) : string :=
  match n, s with
  | O, _ => s
  | S n', String _ s' => drop n' s'
  | S _, EmptyString => EmptyString
  end.

(** [s[:n]]. *)
Fixpoint take (n : nat) (s : string) : string :=
  match n, s with
  | O, _ => EmptyString
  | S n', String c s' => String c (take n' s')
  | S _, EmptyString => EmptyString
  end.

(** [str(n)] for a non-negative integer. *)
Definition str_of_nat (n : nat) : string :=
  NilEmpty.string_of_uint (Nat.to_uint n).

End Text.

Import Text.

(** ** Regular expressions

    The patterns of the source are small; they are written as terms of
    [regex] and run by a backtracking matcher that follows Python's [re]:
    alternatives are tried left to right, repetition is greedy, a search
    returns the leftmost match, groups are numbered by their opening
    parenthesis (all groups in the source are unnested, so the list of
    captures is in group order). *)

Module Re.

Inductive regex : Type :=
| Eps : regex
| Chr : ascii -> regex
| Cls : (ascii -> bool) -> regex
| Cat : regex -> regex -> regex
| Alt : regex -> regex -> regex
| Star : regex -> regex
| Grp : regex -> regex.

Definition Plus (r : regex) : regex := Cat r (Star r).
Definition Opt (r : regex) : regex := Alt r Eps.

(** A literal piece of a pattern. *)
Fixpoint Lit (s : string) : regex :=
  match s with
  | EmptyString => Eps
  | String c EmptyString => Chr c
  | String c s' => Cat (Chr c) (Lit s')
  end.

(** The flag [re.I]: literals and classes match regardless of case. *)
Fixpoint icase (r : regex) : regex :=
  match r with
  | Eps => Eps
  | Chr c => Cls (fun x => Ascii.eqb (lower_char x) (lower_char c))
  | Cls p => Cls (fun x => (p x || p (lower_char x) || p (upper_char x))%bool)
  | Cat a b => Cat (icase a) (icase b)
  | Alt a b => Alt (icase a) (icase b)
  | Star a => Star (icase a)
  | Grp a => Grp (icase a)
  end.

Definition digit : regex := Cls is_digit.                       (* \d *)
Definition word : regex := Cls is_word.                         (* \w *)
Definition space : regex := Cls is_space.                       (* \s *)
Definition dot : regex := Cls (fun c => negb (Ascii.eqb c newline)). (* . *)

(** The language of a pattern. *)
Inductive matches : regex -> string -> Prop :=
| MEps : matches Eps EmptyString
| MChr : forall c, matches (Chr c) (String c EmptyString)
| MCls : forall (p : ascii -> bool) c, p c = true -> matches (Cls p) (String c EmptyString)
| MCat : forall r1 r2 s1 s2, matches r1 s1 -> matches r2 s2 -> matches (Cat r1 r2) (s1 ++ s2)
| MAltL : forall r1 r2 s, matches r1 s -> matches (Alt r1 r2) s
| MAltR : forall r1 r2 s, matches r2 s -> matches (Alt r1 r2) s
| MStar0 : forall r, matches (Star r) EmptyString
| MStarS : forall r s1 s2, matches r s1 -> matches (Star r) s2 -> matches (Star r) (s1 ++ s2)
| MGrp : forall r s, matches r s -> matches (Grp r) s.

(** The part of [s] consumed when [s'] is what remains. *)
Definition consumed (s s' : string) : string :=
  take (String.length s - String.length s') s.

(** The matcher, in continuation-passing style: [k] receives the rest of
    the text and the captures so far; [None] makes the matcher backtrack. *)
Fixpoint mt (A : Type) (r : regex) (s : string) (caps : list string)
    (k : string -> list string -> option A) {struct r} : option A :=
  match r with
  | Eps => k s caps
  | Chr c =>
      match s with
      | String x s' => if Ascii.eqb x c then k s' caps else None
      | EmptyString => None
      end
  | Cls p =>
      match s with
      | String x s' => if p x then k s' caps else None
      | EmptyString => None
      end
  | Cat r1 r2 => mt r1 s caps (fun s' caps' => mt r2 s' caps' k)
  | Alt r1 r2 =>
      match mt r1 s caps k with
      | Some a => Some a
      | None => mt r2 s caps k
      end
  | Star r' =>
      (fix star (n : nat) (s : string) (caps : list string) {struct n} : option A :=
         match n with
         | O => k s caps
         | S n' =>
             match mt r' s caps
                     (fun s' caps' =>
                        if (String.length s' <? String.length s)%nat
                        then star n' s' caps' else None) with
             | Some a => Some a
             | None => k s caps
             end
         end) (String.length s) s caps
  | Grp r' => mt r' s caps (fun s' caps' => k s' (caps' ++ [consumed s s']))
  end.

(** A match object: [group(0)], the numbered groups, and the text after
    the match. *)
Record rmatch : Type := mk_rmatch {
  group0 : string;
  groups : list string;
  rest : string
}.

(** [m.group(n)] for [n >= 1]; the groups of the source always take part
    in a match, so the default is never seen. *)
Definition group (n : nat) (m : rmatch) : string :=
  nth (n - 1) (groups m) EmptyString.

Definition match_here (r : regex) (s : string) : option rmatch :=
  mt r s [] (fun s' caps => Some (mk_rmatch (consumed s s') caps s')).

(** [re.search(r, s)]: the leftmost match. *)
Fixpoint search (r : regex) (s : string) : option rmatch :=
  match match_here r s with
  | Some m => Some m
  | None =>
      match s with
      | EmptyString => None
      | String _ s' => search r s'
      end
  end.

(** [re.finditer(r, s)]: successive non-overlapping matches.  The only
    pattern iterated by the source cannot match the empty string; after an
    empty match the scan moves on by one character. *)
Fixpoint finditer_from (fuel : nat) (r : regex) (s : string) : list rmatch :=
  match fuel with
  | O => []
  | S fuel' =>
      match search r s with
      | None => []
      | Some m =>
          m :: match group0 m, rest m with
               | EmptyString, EmptyString => []
               | EmptyString, String _ t => finditer_from fuel' r t
               | String _ _, t => finditer_from fuel' r t
               end
      end
  end.

Definition finditer (r : regex) (s : string) : list rmatch :=
  finditer_from (S (String.length s)) r s.

End Re.

Import Re.

(** ** The project directory *)

Module Fs.

(** A directory entry is a text file or a directory; the entries of a
    directory come in the order in which the operating system lists them. *)
#[local] Set Warnings "-register-all".
Inductive node : Type :=
| File : string -> node
| Dir : list (string * node) -> node.

(** The working directory [Path.cwd()]: its absolute path and entries. *)
Record Project : Type := mk_project {
  project_root : string;
  root_dir : list (string * node)
}.

(** A file found by a glob: its path relative to the project root, its
    last component ([Path.name]) and its text ([Path.read_text()]). *)
Record SourceFile : Type := mk_source {
  rel : string;
  name : string;
  text : string
}.

(** [parent / child]. *)
Definition path_join (parent child : string) : string :=
  match parent with
  | EmptyString => child
  | _ => if String.eqb parent "/" then "/" ++ child else parent ++ "/" ++ child
  end.

(** [str(f)] for a globbed file: globbing from the absolute root yields
    absolute paths. *)
Definition abs_path (p : Project) (f : SourceFile) : string :=
  path_join (project_root p) (rel f).

Fixpoint lookup (nm : string) (es : list (string * node)) : option node :=
  match es with
  | [] => None
  | (n, x) :: tl => if String.eqb n nm then Some x else lookup nm tl
  end.

Fixpoint resolve (path : list string) (es : list (string * node)) : option node :=
  match path with
  | [] => Some (Dir es)
  | [nm] => lookup nm es
  | nm :: tl =>
      match lookup nm es with
      | Some (Dir sub) => resolve tl sub
      | _ => None
      end
  end.

(** The text of the file at [path], when [path.exists()]. *)
Definition read_text (p : Project) (path : list string) : option string :=
  match resolve path (root_dir p) with
  | Some (File t) => Some t
  | _ => None
  end.

(** The entries of the directory at [path], when it exists and is one. *)
Definition list_dir (p : Project) (path : list string) : option (list (string * node)) :=
  match resolve path (root_dir p) with
  | Some (Dir es) => Some es
  | _ => None
  end.

(** The files of one directory whose name is selected. *)
Fixpoint own_files (sel : string -> bool) (parent : string) (es : list (string * node))
    : list SourceFile :=
  match es with
  | [] => []
  | (nm, File t) :: tl =>
      if sel nm then mk_source (path_join parent nm) nm t :: own_files sel parent tl
      else own_files sel parent tl
  | (_, Dir _) :: tl => own_files sel parent tl
  end.

(** [root.glob("**/<name pattern>")]: every directory of the tree, the
    root first and each directory before its subdirectories, contributes
    its own selected files. *)
Fixpoint glob_node (sel : string -> bool) (parent : string) (n : node) : list SourceFile :=
  match n with
  | File _ => []
  | Dir es =>
      own_files sel parent es ++
      (fix sub (l : list (string * node)) : list SourceFile :=
         match l with
         | [] => []
         | (nm, c) :: tl => glob_node sel (path_join parent nm) c ++ sub tl
         end) es
  end.

Definition glob (sel : string -> bool) (p : Project) : list SourceFile :=
  glob_node sel EmptyString (Dir (root_dir p)).

Definition glob_py : Project -> list SourceFile := glob (endswith ".py").        (* **/*.py *)
Definition glob_named (nm : string) : Project -> list SourceFile := glob (String.eqb nm).

(** [Path.stem]: the name without its last suffix. *)
Definition stem_md (nm : string) : string :=
  if (3 <? String.length nm)%nat then take (String.length nm - 3) nm else nm.

End Fs.

Import Fs.

(** ** Data model *)

Inductive IssueType : Type :=
| TODO | DEPRECATED | SECURITY | BUG | PERFORMANCE | DOCUMENTATION.

Definition IssueType_eqb (a b : IssueType) : bool :=
  match a, b with
  | TODO, TODO | DEPRECATED, DEPRECATED | SECURITY, SECURITY
  | BUG, BUG | PERFORMANCE, PERFORMANCE | DOCUMENTATION, DOCUMENTATION => true
  | _, _ => false
  end.

Module UnrelatedIssue.
Record t : Type := mk {
  type : IssueType;
  file : string;
  line : nat;
  description : string;
  severity : string
}.
End UnrelatedIssue.

Module DocumentationDiscrepancy.
Record t : Type := mk {
  doc_file : string;
  doc_statement : string;
  actual_code : string;
  suggestion : string
}.
End DocumentationDiscrepancy.

Module Endpoint.
Record t : Type := mk {
  method : string;
  path : string
}.
End Endpoint.

(** [self.issue_data].  The empty dictionary of [__init__] is read only
    through [.get], which gives the same answers as [empty]. *)
Module IssueData.
Record t : Type := mk {
  description : string;
  number : option string;
  requirements : list string;
  has_pii : bool;
  needs_auth : bool;
  endpoints : list Endpoint.t;
  models : list string
}.
Definition empty : t := mk EmptyString None [] false false [] [].
End IssueData.

(** The three topic configurations.  A key of the Python dictionary that
    holds a string is an [option]; a key that is only ever set to [True]
    is a [bool] telling whether the key is there. *)
Module PiiConfig.
Record t : Type := mk {
  masking_function : option string;
  import_from : option string;
  mask_email : bool;
  mask_phone : bool;
  mask_ssn : bool
}.
Definition empty : t := mk None None false false false.
End PiiConfig.

Module MagikaConfig.
Record t : Type := mk {
  validation_function : option string;
  validate_uploads : bool;
  validate_attachments : bool;
  import_from : option string
}.
Definition empty : t := mk None false false None.
End MagikaConfig.

Module LoggingConfig.
Record t : Type := mk {
  logger_function : option string;
  log_format : option string;
  import_from : option string;
  supports_debug : bool;
  has_audit_logging : bool
}.
Definition empty : t := mk None None None false false.
End LoggingConfig.

Definition is_some (A : Type) (o : option A) : bool :=
  match o with Some _ => true | None => false end.

(** Truth value of [d.get(key)] for a string-valued key. *)
Definition truthy (o : option string) : bool :=
  match o with
  | Some (String _ _) => true
  | _ => false
  end.

(** [d.get(key, default)]. *)
Definition get_default (o : option string) (default : string) : string :=
  match o with Some s => s | None => default end.

(** Truth value of a configuration dictionary: it has some key. *)
Definition pii_nonempty (c : PiiConfig.t) : bool :=
  (is_some (PiiConfig.masking_function c) || is_some (PiiConfig.import_from c)
   || PiiConfig.mask_email c || PiiConfig.mask_phone c || PiiConfig.mask_ssn c)%bool.

Definition magika_nonempty (c : MagikaConfig.t) : bool :=
  (is_some (MagikaConfig.validation_function c) || MagikaConfig.validate_uploads c
   || MagikaConfig.validate_attachments c || is_some (MagikaConfig.import_from c))%bool.

Definition logging_nonempty (c : LoggingConfig.t) : bool :=
  (is_some (LoggingConfig.logger_function c) || is_some (LoggingConfig.log_format c)
   || is_some (LoggingConfig.import_from c) || LoggingConfig.supports_debug c
   || LoggingConfig.has_audit_logging c)%bool.

(** A Python [dict] with string keys, in insertion order. *)
Definition dict (V : Type) : Type := list (string * V).

(** [d[k] = v]: an existing key keeps its place. *)
Fixpoint dict_set (V : Type) (k : string) (v : V) (d : dict V) : dict V :=
  match d with
  | [] => [(k, v)]
  | (k', v') :: tl => if String.eqb k' k then (k, v) :: tl else (k', v') :: dict_set k v tl
  end.

(** The instance fields of [DjangoIssueAutomation]. *)
Record Automation : Type := mk_automation {
  feature_docs : dict (dict string);
  pii_config : PiiConfig.t;
  magika_config : MagikaConfig.t;
  logging_config : LoggingConfig.t;
  issue_data : IssueData.t;
  unrelated_issues : list UnrelatedIssue.t;
  doc_discrepancies : list DocumentationDiscrepancy.t
}.

(** [DjangoIssueAutomation()]. *)
Definition new_automation : Automation :=
  mk_automation [] PiiConfig.empty MagikaConfig.empty LoggingConfig.empty
                IssueData.empty [] [].

(** The dictionary returned by [work_on_issue], one constructor per
    value of its ["status"] key. *)
Inductive Outcome : Type :=
| documentation_mismatch
    (discrepancies : list DocumentationDiscrepancy.t) (questions : list string)
    (message : string)
| unrelated_issues_found
    (critical high medium low : list UnrelatedIssue.t) (options : list string)
    (message : string)
| need_clarification (questions : list string) (message : string)
| breaking_changes_warning (changes : list string) (message : string)
| approval_needed (plan : string) (message : string).

Definition status (o : Outcome) : string :=
  match o with
  | documentation_mismatch _ _ _ => "documentation_mismatch"
  | unrelated_issues_found _ _ _ _ _ _ => "unrelated_issues_found"
  | need_clarification _ _ => "need_clarification"
  | breaking_changes_warning _ _ => "breaking_changes_warning"
  | approval_needed _ _ => "approval_needed"
  end.

(** ** The patterns of the source *)

Module Patterns.

Definition nl : string := String newline EmptyString.
Definition dq : string := String dquote EmptyString.

(** [#(\d+)] *)
Definition issue_hash : regex := Cat (Chr "#") (Grp (Plus digit)).

(** [issue\s+(\d+)], [re.I] *)
Definition issue_word : regex :=
  icase (Cat (Lit "issue") (Cat (Plus space) (Grp (Plus digit)))).

(** [[\w/\{\}]] *)
Definition path_char (c : ascii) : bool :=
  (is_word c || Ascii.eqb c "/" || Ascii.eqb c "{" || Ascii.eqb c "}")%bool.

(** [(GET|POST|PUT|PATCH|DELETE)\s+(/[\w/\{\}]+)], [re.I] *)
Definition endpoint_pattern : regex :=
  icase (Cat (Grp (Alt (Lit "GET") (Alt (Lit "POST") (Alt (Lit "PUT")
                  (Alt (Lit "PATCH") (Lit "DELETE"))))))
             (Cat (Plus space)
                  (Grp (Cat (Chr "/") (Plus (Cls path_char)))))).

(** [(GlobalPIIMasker|PIIMasker|mask_pii)] *)
Definition pii_symbol : regex :=
  Grp (Alt (Lit "GlobalPIIMasker") (Alt (Lit "PIIMasker") (Lit "mask_pii"))).

(** [[\w.]] *)
Definition module_char (c : ascii) : bool := (is_word c || Ascii.eqb c ".")%bool.

(** [from\s+([\w.]+)\s+import] *)
Definition import_stmt : regex :=
  Cat (Lit "from") (Cat (Plus space) (Cat (Grp (Plus (Cls module_char)))
      (Cat (Plus space) (Lit "import")))).

(** [(validate_with_magika|magika_validate|MagikaValidator)] *)
Definition magika_symbol : regex :=
  Grp (Alt (Lit "validate_with_magika") (Alt (Lit "magika_validate") (Lit "MagikaValidator"))).

(** [from\s+([\w.]+)\s+import.*magika], [re.I] *)
Definition magika_import : regex :=
  icase (Cat import_stmt (Cat (Star dot) (Lit "magika"))).

(** [(get_logger|CentralizedLogger|Logger\.get)] *)
Definition logger_symbol : regex :=
  Grp (Alt (Lit "get_logger") (Alt (Lit "CentralizedLogger") (Lit "Logger.get"))).

Definition is_quote (c : ascii) : bool := (Ascii.eqb c dquote || Ascii.eqb c squote)%bool.

(** The log-format pattern: [format], an optional quote character (single
    or double), [\s*], one of [:] and [=], [\s*], a quote character, and as
    group 1 one or more characters that are not quote characters. *)
Definition log_format_pattern : regex :=
  Cat (Lit "format") (Cat (Opt (Cls is_quote)) (Cat (Star space)
      (Cat (Cls (fun c => (Ascii.eqb c ":" || Ascii.eqb c "=")%bool))
      (Cat (Star space) (Cat (Cls is_quote)
      (Grp (Plus (Cls (fun c => negb (is_quote c)))))))))).

(** [from\s+([\w.]+)\s+import.*[Ll]ogger] *)
Definition logger_import : regex :=
  Cat import_stmt (Cat (Star dot)
      (Cat (Cls (fun c => (Ascii.eqb c "L" || Ascii.eqb c "l")%bool)) (Lit "ogger"))).

(** [m.group(1)] of a search, when it matches. *)
Definition search_group1 (r : regex) (s : string) : option string :=
  match search r s with
  | Some m => Some (group 1 m)
  | None => None
  end.

End Patterns.

Import Patterns.

(** ** Documentation parsers *)

(** [_parse_pii_docs] *)
Definition _parse_pii_docs (content : string) : PiiConfig.t :=
  PiiConfig.mk
    (search_group1 pii_symbol content)
    (search_group1 import_stmt content)
    (contains "email" (lower content))
    (contains "phone" (lower content))
    (contains "ssn" (lower content) || contains "social" (lower content)).

(** [_parse_magika_docs] *)
Definition _parse_magika_docs (content : string) : MagikaConfig.t :=
  MagikaConfig.mk
    (search_group1 magika_symbol content)
    (contains "upload" (lower content))
    (contains "attachment" (lower content))
    (search_group1 magika_import content).

(** [_parse_logging_docs] *)
Definition _parse_logging_docs (content : string) : LoggingConfig.t :=
  LoggingConfig.mk
    (search_group1 logger_symbol content)
    (search_group1 log_format_pattern content)
    (search_group1 logger_import content)
    (contains "debug" (lower content))
    (contains "audit" (lower content)).

(** [_deep_documentation_read]: a topic document that exists replaces
    the topic's configuration; a missing one leaves it as it was. *)
Definition _deep_documentation_read (p : Project) (self : Automation) : Automation :=
  let pii :=
    match read_text p ["docs"; "security"; "pii_masking.md"] with
    | Some content => _parse_pii_docs content
    | None => pii_config self
    end in
  let magika :=
    match read_text p ["docs"; "validation"; "magika.md"] with
    | Some content => _parse_magika_docs content
    | None => magika_config self
    end in
  let logging :=
    match read_text p ["docs"; "infrastructure"; "logging.md"] with
    | Some content => _parse_logging_docs content
    | None => logging_config self
    end in
  mk_automation (feature_docs self) pii magika logging (issue_data self)
                (unrelated_issues self) (doc_discrepancies self).

(** ** Project and workflow documents

    [_parse_claude_md] and [_parse_workflow] fill [claude_config] and
    [workflow_config], which no stage reads; they are modelled as the
    functions from a document to a configuration that they are. *)

Module ClaudeConfig.
Record t : Type := mk {
  django_version : option string;
  database : option string;
  has_drf : bool;
  has_global_pii_masking : bool;
  uses_magika : bool;
  has_centralized_logging : bool
}.
End ClaudeConfig.

Module WorkflowConfig.
Record t : Type := mk {
  branch_pattern : option string;
  commit_format : option string;
  allows_pr_flags : bool
}.
End WorkflowConfig.

(** [[\d.]] *)
Definition version_char (c : ascii) : bool := (is_digit c || Ascii.eqb c ".")%bool.

(** [Django\s*([\d.]+)], [re.I] *)
Definition django_pattern : regex :=
  icase (Cat (Lit "Django") (Cat (Star space) (Grp (Plus (Cls version_char))))).

(** [(feature|bugfix|hotfix)/[^\s]+] *)
Definition branch_pattern_re : regex :=
  Cat (Grp (Alt (Lit "feature") (Alt (Lit "bugfix") (Lit "hotfix"))))
      (Cat (Chr "/") (Plus (Cls (fun c => negb (is_space c))))).

(** [\[ISSUE[^\]]*\][^\n]+] *)
Definition commit_format_re : regex :=
  Cat (Lit "[ISSUE")
      (Cat (Star (Cls (fun c => negb (Ascii.eqb c "]"))))
           (Cat (Chr "]") (Plus (Cls (fun c => negb (Ascii.eqb c newline)))))).

(** [m.group(0)] of a search, when it matches. *)
Definition search_group0 (r : regex) (s : string) : option string :=
  match search r s with
  | Some m => Some (group0 m)
  | None => None
  end.

(** [_parse_claude_md] *)
Definition _parse_claude_md (content : string) : ClaudeConfig.t :=
  ClaudeConfig.mk
    (search_group1 django_pattern content)
    (if contains "postgresql" (lower content) then Some "postgresql"
     else if contains "mysql" (lower content) then Some "mysql"
     else None)
    (contains "rest framework" (lower content) || contains "drf" (lower content))
    (contains "global pii" (lower content) || contains "pii masking" (lower content))
    (contains "magika" (lower content))
    (contains "centralized log" (lower content) || contains "central log" (lower content)).

(** [_parse_workflow] *)
Definition _parse_workflow (content : string) : WorkflowConfig.t :=
  WorkflowConfig.mk
    (search_group0 branch_pattern_re content)
    (search_group0 commit_format_re content)
    (contains "flag in pr" (lower content) || contains "pr comment" (lower content)).

(** ** Issue parser *)

(** The bullet U+2022 in UTF-8. *)
Definition bullet : string :=
  String "226"%char (String "128"%char (String "162"%char EmptyString)).

(** One line of the requirements loop of [_parse_issue]:
    [line.strip()[1:].strip()] when the stripped line starts with a
    bullet mark. *)
Definition requirement_of_line (line : string) : list string :=
  let l := strip line in
  if (startswith "-" l || startswith "*" l)%bool then [strip (drop 1 l)]
  else if startswith bullet l then [strip (drop 3 l)]
  else [].

Definition pii_keywords : list string :=
  ["personal"; "pii"; "email"; "phone"; "ssn"; "payment"].

Definition extract_number (description : string) : option string :=
  match search issue_hash description with
  | Some m => Some (group 1 m)
  | None =>
      match search issue_word description with
      | Some m => Some (group 1 m)
      | None => None
      end
  end.

Definition extract_endpoints (description : string) : list Endpoint.t :=
  map (fun m => Endpoint.mk (upper (group 1 m)) (group 2 m))
      (finditer endpoint_pattern description).

(** [_parse_issue] *)
Definition _parse_issue (description : string) (self : Automation) : Automation :=
  let data :=
    IssueData.mk
      description
      (extract_number description)
      (flat_map requirement_of_line (split_lines description))
      (contains_any pii_keywords (lower description))
      false
      (extract_endpoints description)
      [] in
  mk_automation (feature_docs self) (pii_config self) (magika_config self)
                (logging_config self) data
                (unrelated_issues self) (doc_discrepancies self).

(** ** Feature documentation *)

Definition feature_keywords : list string :=
  ["user"; "auth"; "payment"; "profile"; "api"; "admin"; "report"; "notification"].

(** The names of the visible subdirectories of a directory, in listing
    order: the [is_dir() and not name.startswith('.')] filter. *)
Fixpoint visible_dirs (es : list (string * node)) : list string :=
  match es with
  | [] => []
  | (nm, Dir _) :: tl => if startswith "." nm then visible_dirs tl else nm :: visible_dirs tl
  | (_, File _) :: tl => visible_dirs tl
  end.

(** The feature names collected by [_extract_feature_names] before the
    final [list(set(features))]. *)
Definition candidate_features (p : Project) (self : Automation) : list string :=
  let d := lower (IssueData.description (issue_data self)) in
  filter (fun keyword => contains keyword d) feature_keywords ++
  match list_dir p ["docs"] with
  | Some es => filter (fun nm => contains nm d) (visible_dirs es)
  | None => []
  end.

(** The markdown files directly inside a directory: [glob("*.md")]. *)
Definition md_files (es : list (string * node)) : list SourceFile :=
  own_files (endswith ".md") EmptyString es.

(** The inner dictionary built for one feature directory. *)
Definition read_feature_dir (es : list (string * node)) : dict string :=
  fold_left (fun docs f => dict_set (stem_md (name f)) (text f) docs) (md_files es) [].

Section SetOrder.

(** [list(set(l))]: the elements of [l] without repetition, in the
    iteration order of a Python set, which the language leaves open. *)
Variable list_of_set : list string -> list string.

(** [_extract_feature_names] *)
Definition _extract_feature_names (p : Project) (self : Automation) : list string :=
  list_of_set (candidate_features p self).

(** [_read_feature_documentation].  The calls to [_validate_api_docs],
    [_validate_model_docs] and [_validate_implementation_docs] end in
    methods whose body is [pass]; they change nothing. *)
Definition _read_feature_documentation (p : Project) (self : Automation) : Automation :=
  let docs :=
    fold_left
      (fun fd feature =>
         match list_dir p ["docs"; feature] with
         | Some es => dict_set feature (read_feature_dir es) fd
         | None => fd
         end)
      (_extract_feature_names p self) (feature_docs self) in
  mk_automation docs (pii_config self) (magika_config self) (logging_config self)
                (issue_data self) (unrelated_issues self) (doc_discrepancies self).

End SetOrder.

(** ** Consistency checker *)

Definition add_discrepancies (ds : list DocumentationDiscrepancy.t) (self : Automation)
    : Automation :=
  mk_automation (feature_docs self) (pii_config self) (magika_config self)
                (logging_config self) (issue_data self) (unrelated_issues self)
                (doc_discrepancies self ++ ds).

(** What one file adds to [doc_discrepancies] in [_validate_pii_usage]. *)
Definition pii_file_check (p : Project) (cfg : PiiConfig.t) (f : SourceFile)
    : list DocumentationDiscrepancy.t :=
  if contains "test" (abs_path p f) then []
  else if contains_any ["email"; "phone"; "ssn"; "personal"] (lower (text f)) then
    let masker := get_default (PiiConfig.masking_function cfg) "GlobalPIIMasker" in
    if negb (contains masker (text f)) then
      [DocumentationDiscrepancy.mk
         "docs/security/pii_masking.md"
         ("All PII should use " ++ masker)
         (name f ++ " handles PII but doesn't import " ++ masker)
         ("Add: from " ++ get_default (PiiConfig.import_from cfg) "utils.pii"
                       ++ " import " ++ masker)]
    else []
  else [].

(** [_validate_pii_usage] *)
Definition _validate_pii_usage (p : Project) (self : Automation) : Automation :=
  add_discrepancies (flat_map (pii_file_check p (pii_config self)) (glob_py p)) self.

(** What one file adds in [_validate_magika_usage]. *)
Definition magika_file_check (cfg : MagikaConfig.t) (f : SourceFile)
    : list DocumentationDiscrepancy.t :=
  if (contains "FileField" (text f) || contains "ImageField" (text f)
      || contains "request.FILES" (text f))%bool then
    let validator := get_default (MagikaConfig.validation_function cfg) "validate_with_magika" in
    if negb (contains validator (text f)) then
      [DocumentationDiscrepancy.mk
         "docs/validation/magika.md"
         ("All file uploads should use " ++ validator)
         (name f ++ " handles files but doesn't call " ++ validator)
         ("Add validation: " ++ validator ++ "(uploaded_file)")]
    else []
  else [].

(** [_validate_magika_usage] *)
Definition _validate_magika_usage (p : Project) (self : Automation) : Automation :=
  add_discrepancies (flat_map (magika_file_check (magika_config self))
                              (glob_named "views.py" p)) self.

(** What one file adds in [_validate_logging_usage]. *)
Definition logging_file_check (p : Project) (cfg : LoggingConfig.t) (f : SourceFile)
    : list DocumentationDiscrepancy.t :=
  if (contains "test" (abs_path p f) || contains "migration" (abs_path p f))%bool then []
  else if (contains "print(" (text f) || contains "logging.info" (text f))%bool then
    let logger := get_default (LoggingConfig.logger_function cfg) "get_logger" in
    if negb (contains logger (text f)) then
      [DocumentationDiscrepancy.mk
         "docs/infrastructure/logging.md"
         ("Use centralized logging with " ++ logger)
         (name f ++ " uses print/basic logging instead of " ++ logger)
         ("Replace with: logger = " ++ logger ++ "(__name__)")]
    else []
  else [].

(** [_validate_logging_usage] *)
Definition _validate_logging_usage (p : Project) (self : Automation) : Automation :=
  add_discrepancies (flat_map (logging_file_check p (logging_config self)) (glob_py p)) self.

(** [_validate_documentation_against_code].  The closing loop over the
    feature documents calls [_check_doc_code_consistency], which ends in
    [_verify_function_exists] and [_verify_class_exists], both [pass]. *)
Definition _validate_documentation_against_code (p : Project) (self : Automation)
    : Automation :=
  let s1 := if truthy (PiiConfig.masking_function (pii_config self))
            then _validate_pii_usage p self else self in
  let s2 := if truthy (MagikaConfig.validation_function (magika_config s1))
            then _validate_magika_usage p s1 else s1 in
  if truthy (LoggingConfig.logger_function (logging_config s2))
  then _validate_logging_usage p s2 else s2.

(** ** Issue scanner *)

(** [_get_affected_files] *)
Definition _get_affected_files (p : Project) (self : Automation) : list SourceFile :=
  (match IssueData.models (issue_data self) with
   | [] => []
   | _ :: _ => glob_named "models.py" p
   end) ++
  (match IssueData.endpoints (issue_data self) with
   | [] => []
   | _ :: _ => glob_named "views.py" p ++ glob_named "urls.py" p
               ++ glob_named "serializers.py" p
   end).

Definition todo_rule (l : string) : bool :=
  (contains "TODO" l || contains "FIXME" l)%bool.
Definition deprecated_rule (l : string) : bool :=
  (contains "deprecated" (lower l) || contains "@deprecated" l)%bool.
Definition eval_rule (l : string) : bool :=
  (contains "eval(" l || contains "exec(" l)%bool.
Definition sql_rule (l : string) : bool :=
  (contains ".format(" l && contains "SELECT" (upper l))%bool.
Definition password_pattern (l : string) : bool :=
  (contains "password=" (lower l) && contains dq l)%bool.
Definition env_lookup (l : string) : bool :=
  (contains "getenv" l || contains "environ" l)%bool.

Definition when (A : Type) (b : bool) (x : A) : list A := if b then [x] else [].

(** The body of the line loop of [_scan_for_unrelated_issues]: the five
    checks in source order, each appending at most one issue. *)
Definition scan_line (file : string) (line_num : nat) (l : string)
    : list UnrelatedIssue.t :=
  when (todo_rule l)
       (UnrelatedIssue.mk TODO file line_num (strip l) "low") ++
  when (deprecated_rule l)
       (UnrelatedIssue.mk DEPRECATED file line_num
          "Using deprecated function/method" "medium") ++
  when (eval_rule l)
       (UnrelatedIssue.mk SECURITY file line_num
          "Potential security issue: eval/exec usage" "high") ++
  when (sql_rule l)
       (UnrelatedIssue.mk SECURITY file line_num
          "Potential SQL injection: string formatting in query" "critical") ++
  when (password_pattern l && negb (env_lookup l))
       (UnrelatedIssue.mk SECURITY file line_num
          "Hardcoded password detected" "critical").

(** The line loop: [line_num] is incremented before each line is looked
    at, so [scan_lines file n] numbers its first line [n + 1]. *)
Fixpoint scan_lines (file : string) (line_num : nat) (ls : list string)
    : list UnrelatedIssue.t :=
  match ls with
  | [] => []
  | l :: tl => scan_line file (S line_num) l ++ scan_lines file (S line_num) tl
  end.

(** The issues of one affected file. *)
Definition scan_file (f : SourceFile) : list UnrelatedIssue.t :=
  scan_lines (rel f) 0 (split_lines (text f)).

(** [_scan_for_unrelated_issues] *)
Definition _scan_for_unrelated_issues (p : Project) (self : Automation) : Automation :=
  mk_automation (feature_docs self) (pii_config self) (magika_config self)
                (logging_config self) (issue_data self)
                (unrelated_issues self ++ flat_map scan_file (_get_affected_files p self))
                (doc_discrepancies self).

(** ** Halting reports *)

(** The three lines written for the [i]-th shown discrepancy. *)
Definition discrepancy_lines (i : nat) (d : DocumentationDiscrepancy.t) : list string :=
  [ (nl ++ str_of_nat i ++ ". Documentation says: "
        ++ DocumentationDiscrepancy.doc_statement d)%string;
    ("   But I found: " ++ DocumentationDiscrepancy.actual_code d)%string;
    ("   Should I: " ++ DocumentationDiscrepancy.suggestion d ++ "?")%string ].

(** [for i, d in enumerate(ds, start)] *)
Fixpoint enumerate_lines (start : nat) (ds : list DocumentationDiscrepancy.t) : list string :=
  match ds with
  | [] => []
  | d :: tl => discrepancy_lines start d ++ enumerate_lines (S start) tl
  end.

(** [_handle_documentation_discrepancies] *)
Definition _handle_documentation_discrepancies (self : Automation) : Outcome :=
  let ds := doc_discrepancies self in
  let questions :=
    [("I found discrepancies between documentation and actual code:" ++ nl)%string]
    ++ enumerate_lines 1 (firstn 5 ds)
    ++ (if (5 <? List.length ds)%nat
        then [(nl ++ "...and " ++ str_of_nat (List.length ds - 5)
                  ++ " more discrepancies.")%string]
        else [])
    ++ [(nl ++ "How should I handle these? Fix them, or follow existing code?")%string] in
  documentation_mismatch ds questions "Documentation doesn't match code - need guidance".

Definition with_severity (sev : string) (l : list UnrelatedIssue.t) : list UnrelatedIssue.t :=
  filter (fun i => String.eqb (UnrelatedIssue.severity i) sev) l.

Definition issue_line (i : UnrelatedIssue.t) : string :=
  ("  - " ++ UnrelatedIssue.file i ++ ":" ++ str_of_nat (UnrelatedIssue.line i)
          ++ " - " ++ UnrelatedIssue.description i ++ nl)%string.

Definition is_nil (A : Type) (l : list A) : bool :=
  match l with [] => true | _ :: _ => false end.

Definition remediation_options : list string :=
  [ "1. Fix critical issues now, flag others in PR";
    "2. Create separate issues for all findings";
    "3. Flag all in PR comments for later";
    "4. Ignore for now (not recommended for critical issues)";
    "5. Let me handle each severity level differently" ].

(** [_handle_unrelated_issues] *)
Definition _handle_unrelated_issues (self : Automation) : Outcome :=
  let critical := with_severity "critical" (unrelated_issues self) in
  let high := with_severity "high" (unrelated_issues self) in
  let medium := with_severity "medium" (unrelated_issues self) in
  let low := with_severity "low" (unrelated_issues self) in
  let message : string :=
   ("I found unrelated issues while reviewing the code:" ++ nl
    ++ (if is_nil critical then EmptyString
        else nl ++ "🔴 CRITICAL (" ++ str_of_nat (List.length critical) ++ " issues):" ++ nl
             ++ String.concat EmptyString (map issue_line (firstn 2 critical)))
    ++ (if is_nil high then EmptyString
        else nl ++ "🟠 HIGH (" ++ str_of_nat (List.length high) ++ " issues):" ++ nl
             ++ String.concat EmptyString (map issue_line (firstn 2 high)))
    ++ (if is_nil medium then EmptyString
        else nl ++ "🟡 MEDIUM (" ++ str_of_nat (List.length medium) ++ " issues)" ++ nl)
    ++ (if is_nil low then EmptyString
        else nl ++ "🟢 LOW (" ++ str_of_nat (List.length low) ++ " issues - mostly TODOs)" ++ nl))%string in
  unrelated_issues_found critical high medium low remediation_options
    (message ++ nl ++ nl ++ "How should I handle these? (Choose 1-5)").

(** ** Clarification questions and breaking changes *)

Definition number_question : string := "What's the issue number for branch naming?".
Definition pii_documented_question (masker : string) : string :=
  ("Should I use " ++ masker ++ " for PII as documented?")%string.
Definition pii_undocumented_question : string :=
  "How should PII be handled? I didn't find PII masking docs.".
Definition upload_documented_question (validator : string) : string :=
  ("Should file uploads use " ++ validator ++ "?")%string.
Definition upload_undocumented_question : string :=
  "Should uploaded files be validated? I didn't find Magika docs.".
Definition logging_question : string :=
  "What logging system should I use? I didn't find centralized logging docs.".

(** [_get_clarification_questions] *)
Definition _get_clarification_questions (self : Automation) : list string :=
  let data := issue_data self in
  when (negb (truthy (IssueData.number data))) number_question
  ++ (if IssueData.has_pii data then
        if truthy (PiiConfig.masking_function (pii_config self))
        then [pii_documented_question
                (get_default (PiiConfig.masking_function (pii_config self)) EmptyString)]
        else [pii_undocumented_question]
      else [])
  ++ (if contains "upload" (lower (IssueData.description data)) then
        if truthy (MagikaConfig.validation_function (magika_config self))
        then [upload_documented_question
                (get_default (MagikaConfig.validation_function (magika_config self))
                             EmptyString)]
        else [upload_undocumented_question]
      else [])
  ++ when (negb (truthy (LoggingConfig.logger_function (logging_config self))))
          logging_question.

(** The notes of one model name in [_check_breaking_changes]. *)
Definition model_changes (p : Project) (model : string) : list string :=
  flat_map
    (fun mf =>
       when (contains ("class " ++ model) (text mf))
            ("Model '" ++ model ++ "' already exists in " ++ rel mf)%string)
    (glob_named "models.py" p).

(** [_check_breaking_changes] *)
Definition _check_breaking_changes (p : Project) (self : Automation) : list string :=
  flat_map (model_changes p) (IssueData.models (issue_data self)).

(** ** The plan *)

(** The lines of a triple-quoted block, each closed by a newline. *)
Fixpoint unlines (ls : list string) : string :=
  match ls with
  | [] => EmptyString
  | l :: tl => (l ++ nl ++ unlines tl)%string
  end.

(** How an f-string prints [issue_data.get('number', 'TBD')]: the key is
    always there once the issue is parsed, holding a string or [None]. *)
Definition show_number (o : option string) : string :=
  match o with Some s => s | None => "None" end.

(** [_create_validated_plan] *)
Definition _create_validated_plan (self : Automation) : string :=
  let data := issue_data self in
  let critical_count := List.length (with_severity "critical" (unrelated_issues self)) in
  (unlines
     [ "# Implementation Plan (Validated Against Documentation)";
       "";
       "## Issue Details";
       "- Number: #" ++ show_number (IssueData.number data);
       "- Has PII: " ++ (if IssueData.has_pii data then "Yes" else "No");
       "";
       "## Documentation Validation Status";
       "- ✅ Read " ++ str_of_nat (List.length (feature_docs self))
                   ++ " feature documentation folders";
       "- ✅ Validated against existing code";
       "- ✅ Checked for unrelated issues" ]
   ++ (if (IssueData.has_pii data && pii_nonempty (pii_config self))%bool then
         unlines
           [ "";
             "## PII Handling (Per Documentation)";
             "- Will use: "
               ++ get_default (PiiConfig.masking_function (pii_config self)) "GlobalPIIMasker";
             "- Import from: "
               ++ get_default (PiiConfig.import_from (pii_config self)) "utils.pii";
             "- Fields to mask: email, phone, SSN" ]
       else "")
   ++ (if (contains "upload" (lower (IssueData.description data))
           && magika_nonempty (magika_config self))%bool then
         unlines
           [ "";
             "## File Validation (Per Documentation)  ";
             "- Will use: "
               ++ get_default (MagikaConfig.validation_function (magika_config self))
                              "validate_with_magika";
             "- Import from: "
               ++ get_default (MagikaConfig.import_from (magika_config self)) "utils.validation";
             "- Validate all uploads before processing" ]
       else "")
   ++ (if logging_nonempty (logging_config self) then
         unlines
           [ "";
             "## Logging (Per Documentation)";
             "- Will use: "
               ++ get_default (LoggingConfig.logger_function (logging_config self)) "get_logger";
             "- Import from: "
               ++ get_default (LoggingConfig.import_from (logging_config self)) "utils.logging";
             "- No print statements, only centralized logging" ]
       else "")
   ++ (if (negb (is_nil (unrelated_issues self)) && (0 <? critical_count)%nat)%bool then
         unlines
           [ "";
             "## ⚠️  Critical Issues Found (Will Flag in PR)";
             "- " ++ str_of_nat critical_count ++ " critical security issues to address";
             "- Will add PR comments for tracking" ]
       else "")
   ++ unlines
        [ "";
          "## Implementation Steps";
          "1. Create feature branch per workflow";
          "2. Implement with documentation compliance";
          "3. Use global PII masking where needed";
          "4. Add Magika validation for uploads";
          "5. Use centralized logging throughout";
          "6. Generate tests (>85% coverage)";
          "7. Flag any unrelated issues in PR";
          "8. Create comprehensive documentation";
          "";
          "## What I Will NOT Do";
          "- Ignore documentation requirements";
          "- Use print statements instead of logging";
          "- Skip PII masking";
          "- Allow unvalidated file uploads";
          "- Leave critical issues unflagged";
          "";
          "**This plan is validated against your documentation. Proceed? (yes/no)**" ])%string.

(** ** The pipeline controller *)

Section Controller.

Variable list_of_set : list string -> list string.

(** The state after steps 1 to 4 of [work_on_issue]: documentation read,
    issue parsed, feature documentation read, documentation validated
    against the code. *)
Definition validated (p : Project) (issue_description : string) (self : Automation)
    : Automation :=
  _validate_documentation_against_code p
    (_read_feature_documentation list_of_set p
       (_parse_issue issue_description
          (_deep_documentation_read p self))).

(** The method [DjangoIssueAutomation.work_on_issue]: the returned
    dictionary and the instance as the call leaves it. *)
Definition work_on_issue_method (p : Project) (issue_description : string)
    (self : Automation) : Outcome * Automation :=
  let s4 := validated p issue_description self in
  if negb (is_nil (doc_discrepancies s4)) then
    (_handle_documentation_discrepancies s4, s4)
  else
    let s6 := _scan_for_unrelated_issues p s4 in
    if negb (is_nil (unrelated_issues s6)) then
      (_handle_unrelated_issues s6, s6)
    else
      let questions := _get_clarification_questions s6 in
      if negb (is_nil questions) then
        (need_clarification questions "I need clarification on these points:", s6)
      else
        let breaking_changes := _check_breaking_changes p s6 in
        if negb (is_nil breaking_changes) then
          (breaking_changes_warning breaking_changes
             "⚠️  These changes might break existing code. Continue?", s6)
        else
          (approval_needed (_create_validated_plan s6)
             "Implementation plan (validated against your docs). Proceed? (yes/no)", s6).

(** The module-level function [work_on_issue]: a new instance for every
    run. *)
Definition work_on_issue (p : Project) (description : string) : Outcome :=
  fst (work_on_issue_method p description new_automation).

End Controller.

(** * Vocabulary of the properties

    Definitions used to state the properties: occurrences and matches as
    propositions, the states a run goes through, the parts of the scanner
    and checker results a claim speaks of, and the concrete projects and
    issue texts on which claims are exercised. *)

(** ** Occurrences and matches *)

(** An occurrence of [sub] in [s], as a proposition. *)
Definition occurs_in (sub s : string) : Prop :=
  exists pre post, s = (pre ++ sub ++ post)%string.

(** A match of [r] somewhere in [s]. *)
Definition has_match (r : regex) (s : string) : Prop :=
  exists pre m post, s = (pre ++ m ++ post)%string /\ matches r m.

(** The repetition loop of [mt], by itself. *)
Definition star_loop (A : Type) (r : regex) (k : string -> list string -> option A) :=
  fix star (n : nat) (s : string) (caps : list string) {struct n} : option A :=
    match n with
    | O => k s caps
    | S n' =>
        match mt r s caps
                (fun s' caps' =>
                   if (String.length s' <? String.length s)%nat
                   then star n' s' caps' else None) with
        | Some a => Some a
        | None => k s caps
        end
    end.

Definition accepts (A : Type) (k : string -> list string -> option A) (s : string) : Prop :=
  forall caps, k s caps <> None.

Definition complete_at (A : Type) (r : regex) (s1 : string) : Prop :=
  (forall s2 caps (k : string -> list string -> option A),
      accepts k s2 -> mt r (s1 ++ s2)%string caps k <> None) /\
  match r with
  | Star r' =>
      forall n s2 caps (k : string -> list string -> option A),
        String.length (s1 ++ s2)%string <= n -> accepts k s2 ->
        star_loop r' k n (s1 ++ s2)%string caps <> None
  | _ => True
  end.

(** [all(q(c) for c in s)]. *)
Fixpoint all_chars (q : ascii -> bool) (s : string) : bool :=
  match s with
  | EmptyString => true
  | String c s' => (q c && all_chars q s')%bool
  end.

(** A text of ASCII characters.  On such a text [is_space], [is_digit],
    [is_word], [lower] and [upper] are what Python's [\s], [\d], [\w],
    [str.strip], [str.lower] and [str.upper] compute. *)
Definition is_ascii (c : ascii) : bool := (nat_of_ascii c <? 128)%nat.

Definition ascii_text (s : string) : Prop := all_chars is_ascii s = true.

Definition http_methods : list string := ["GET"; "POST"; "PUT"; "PATCH"; "DELETE"].

(** The endpoint pattern in words: somewhere in the text, one of the five
    method names in any letter case, then at least one whitespace
    character, then a slash and at least one character that is a word
    character, a slash or a brace. *)
Definition mentions_endpoint (d : string) : Prop :=
  exists pre meth ws path post,
    d = (pre ++ meth ++ ws ++ String "/" path ++ post)%string /\
    In (upper meth) http_methods /\
    ws <> EmptyString /\ all_chars is_space ws = true /\
    path <> EmptyString /\ all_chars path_char path = true.

(** ** Stages of a run *)

Definition pii_doc : string := "docs/security/pii_masking.md".
Definition magika_doc : string := "docs/validation/magika.md".
Definition logging_doc : string := "docs/infrastructure/logging.md".

(** The discrepancies of the three topic checks, each run only when the
    topic's symbol was found in its document. *)
Definition pii_discrepancies (p : Project) (cfg : PiiConfig.t) :=
  if truthy (PiiConfig.masking_function cfg)
  then flat_map (pii_file_check p cfg) (glob_py p) else [].

Definition magika_discrepancies (p : Project) (cfg : MagikaConfig.t) :=
  if truthy (MagikaConfig.validation_function cfg)
  then flat_map (magika_file_check cfg) (glob_named "views.py" p) else [].

Definition logging_discrepancies (p : Project) (cfg : LoggingConfig.t) :=
  if truthy (LoggingConfig.logger_function cfg)
  then flat_map (logging_file_check p cfg) (glob_py p) else [].

(** The configurations a new instance holds once the documentation is
    read. *)
Definition docs_read (p : Project) : Automation :=
  _deep_documentation_read p new_automation.

(** The issue model built from a description. *)
Definition parsed (d : string) : IssueData.t :=
  issue_data (_parse_issue d new_automation).

(** The state of a new instance after stage 2, and after stage 3. *)
Definition checked (list_of_set : list string -> list string) (p : Project) (d : string)
    : Automation :=
  validated list_of_set p d new_automation.

Definition scanned (list_of_set : list string -> list string) (p : Project) (d : string)
    : Automation :=
  _scan_for_unrelated_issues p (checked list_of_set p d).

(** No recorded discrepancy cites the document [doc]. *)
Definition no_discrepancy_for (doc : string) (self : Automation) : Prop :=
  forall x, In x (doc_discrepancies self) -> DocumentationDiscrepancy.doc_file x <> doc.

(** The PII question stage 4 asks for a given configuration. *)
Definition pii_question (cfg : PiiConfig.t) : string :=
  if truthy (PiiConfig.masking_function cfg)
  then pii_documented_question (get_default (PiiConfig.masking_function cfg) EmptyString)
  else pii_undocumented_question.

Definition outcome_discrepancies (o : Outcome) : list DocumentationDiscrepancy.t :=
  match o with
  | documentation_mismatch ds _ _ => ds
  | _ => []
  end.

(** ** Scanner results *)

Definition sql_injection_issue (file : string) (n : nat) : UnrelatedIssue.t :=
  UnrelatedIssue.mk SECURITY file n
    "Potential SQL injection: string formatting in query" "critical".

Definition hardcoded_password_issue (file : string) (n : nat) : UnrelatedIssue.t :=
  UnrelatedIssue.mk SECURITY file n "Hardcoded password detected" "critical".

Definition is_security_critical (i : UnrelatedIssue.t) : bool :=
  (IssueType_eqb (UnrelatedIssue.type i) SECURITY
   && String.eqb (UnrelatedIssue.severity i) "critical")%bool.

Definition on_line (n : nat) (i : UnrelatedIssue.t) : bool :=
  Nat.eqb (UnrelatedIssue.line i) n.

(** The SECURITY/critical issues a scan reports for line [n]. *)
Definition security_critical_on (n : nat) (l : list UnrelatedIssue.t)
    : list UnrelatedIssue.t :=
  filter is_security_critical (filter (on_line n) l).

(** ** Set iteration order and dictionaries *)

(** What [list(set(l))] guarantees of its result, in whatever order the
    set is iterated: no repetition, and the elements of [l]. *)
Definition set_order (f : list string -> list string) : Prop :=
  forall l, NoDup (f l) /\ forall x, In x (f l) <-> In x l.

Definition keys (V : Type) (d : dict V) : list string := map fst d.

(** Two states that differ at most in which feature folders were read in
    which order, not in how many. *)
Definition same_but_docs (a b : Automation) : Prop :=
  List.length (feature_docs a) = List.length (feature_docs b) /\
  pii_config a = pii_config b /\
  magika_config a = magika_config b /\
  logging_config a = logging_config b /\
  issue_data a = issue_data b /\
  unrelated_issues a = unrelated_issues b /\
  doc_discrepancies a = doc_discrepancies b.

(** ** Concrete projects and issue texts *)

Module Fixtures.

(** One admissible iteration order of a set: first occurrences. *)
Definition first_seen : list string -> list string := nodup string_dec.

Definition pii_md : string * node :=
  ("pii_masking.md", File "Mask personal data with GlobalPIIMasker.").
Definition magika_md : string * node :=
  ("magika.md", File "Check files with validate_with_magika.").
Definition logging_md : string * node :=
  ("logging.md", File "Use get_logger; from core.logs import get_logger").

Definition docs (topics : list (string * node)) : string * node := ("docs", Dir topics).

(** A project with no files at all. *)
Definition bare : Project := mk_project "/srv/shop" [].

(** Logging is documented; nothing else is. *)
Definition logging_only : Project :=
  mk_project "/srv/shop" [docs [("infrastructure", Dir [logging_md])]].

(** PII masking is documented, and [app/views.py] both handles e-mail
    without the masker and carries a TODO. *)
Definition undocumented_views : Project :=
  mk_project "/srv/shop"
    [ docs [("security", Dir [pii_md])];
      ("app", Dir [("views.py", File "email = request.user.email  # TODO mask")]) ].

(** Logging is documented and [billing/models.py] declares [Invoice]. *)
Definition with_invoice_model : Project :=
  mk_project "/srv/shop"
    [ docs [("infrastructure", Dir [logging_md])];
      ("billing", Dir [("models.py", File "class Invoice(models.Model): pass")]) ].

(** Upload validation is documented and the only [views.py] lies under
    [tests/]. *)
Definition upload_test_views : Project :=
  mk_project "/srv/shop"
    [ docs [("validation", Dir [magika_md])];
      ("tests", Dir [("views.py", File "data = request.FILES")]) ].

(** The file [tests/views.py] of [upload_test_views], as globbing finds
    it. *)
Definition test_views : SourceFile :=
  mk_source "tests/views.py" "views.py" "data = request.FILES".

Definition export_issue : string :=
  "Add endpoint POST /users/{id}/export - exports personal data, #42".
Definition typo_issue : string := "Fix typo in footer #7".
Definition invoice_issue : string := "Add a new model Invoice for billing #12".
Definition endpoint_issue : string := "Add endpoint GET /items/{id} #3".

End Fixtures.

(** A project whose [accounts/views.py] shows every usage signal and
    names the three required symbols. *)
Definition compliant_views : SourceFile :=
  mk_source "accounts/views.py" "views.py"
    "email = GlobalPIIMasker(request.FILES); validate_with_magika(email); print(get_logger)".

Definition compliant_project : Project :=
  mk_project "/srv/shop"
    [ Fixtures.docs [ ("security", Dir [Fixtures.pii_md]);
                     ("validation", Dir [Fixtures.magika_md]);
                     ("infrastructure", Dir [Fixtures.logging_md]) ];
      ("accounts", Dir [("views.py", File (text compliant_views))]) ].

(** A line that hardcodes a password and formats a query:
    [conn = connect(password="hunter2", query="SELECT 1 {}".format(x))] *)
Definition password_and_query_line : string :=
  ("conn = connect(password=" ++ dq ++ "hunter2" ++ dq ++ ", query=" ++ dq
     ++ "SELECT 1 {}" ++ dq ++ ".format(x))")%string.

(** ** Three claims as the specification words them *)

(** The claim C3 as the specification words it: one SECURITY/critical
    issue for the line, whatever else the line contains. *)
Definition exactly_one_security_critical : Prop :=
  forall (f : SourceFile) (n : nat) (l : string),
    nth_error (split_lines (text f)) n = Some l ->
    password_pattern l = true ->
    env_lookup l = false ->
    List.length (security_critical_on (S n) (scan_file f)) = 1.

(** The claim C8 as the specification words it: an absent topic raises no
    discrepancy and always shows up as a question of stage 4. *)
Definition absent_topic_always_asks : Prop :=
  forall (list_of_set : list string -> list string) (p : Project) (d : string),
    (PiiConfig.masking_function (pii_config (checked list_of_set p d)) = None ->
       no_discrepancy_for pii_doc (checked list_of_set p d) /\
       In pii_undocumented_question
          (_get_clarification_questions (scanned list_of_set p d))) /\
    (MagikaConfig.validation_function (magika_config (checked list_of_set p d)) = None ->
       no_discrepancy_for magika_doc (checked list_of_set p d) /\
       In upload_undocumented_question
          (_get_clarification_questions (scanned list_of_set p d))) /\
    (LoggingConfig.logger_function (logging_config (checked list_of_set p d)) = None ->
       no_discrepancy_for logging_doc (checked list_of_set p d) /\
       In logging_question
          (_get_clarification_questions (scanned list_of_set p d))).

(** The claim C6 as the specification words it, for the method
    [DjangoIssueAutomation.work_on_issue]: called a second time on the
    same instance, with the project and the issue text unchanged, it
    returns what it returned the first time. *)
Definition second_call_repeats_first : Prop :=
  forall (list_of_set : list string -> list string) (p : Project) (d : string),
    set_order list_of_set ->
    fst (work_on_issue_method list_of_set p d
           (snd (work_on_issue_method list_of_set p d new_automation)))
    = fst (work_on_issue_method list_of_set p d new_automation).

(** ** Matches with their captures *)

(** [cmatches r s gs]: [s] is a word of [r], and [gs] are the texts of the
    groups closed while matching it, in closing order. *)
Inductive cmatches : regex -> string -> list string -> Prop :=
| CEps : cmatches Eps EmptyString []
| CChr : forall c, cmatches (Chr c) (String c EmptyString) []
| CCls : forall (p : ascii -> bool) c,
    p c = true -> cmatches (Cls p) (String c EmptyString) []
| CCat : forall r1 r2 s1 s2 g1 g2,
    cmatches r1 s1 g1 -> cmatches r2 s2 g2 ->
    cmatches (Cat r1 r2) (s1 ++ s2)%string (g1 ++ g2)
| CAltL : forall r1 r2 s g, cmatches r1 s g -> cmatches (Alt r1 r2) s g
| CAltR : forall r1 r2 s g, cmatches r2 s g -> cmatches (Alt r1 r2) s g
| CStar0 : forall r, cmatches (Star r) EmptyString []
| CStarS : forall r s1 s2 g1 g2,
    cmatches r s1 g1 -> cmatches (Star r) s2 g2 ->
    cmatches (Star r) (s1 ++ s2)%string (g1 ++ g2)
| CGrp : forall r s g, cmatches r s g -> cmatches (Grp r) s (g ++ [s]).

(** A pattern without groups. *)
Fixpoint group_free (r : regex) : bool :=
  match r with
  | Eps | Chr _ | Cls _ => true
  | Cat a b | Alt a b => (group_free a && group_free b)%bool
  | Star a => group_free a
  | Grp _ => false
  end.

(** A match object found in [d]: where it lies and what it captured. *)
Definition match_in (r : regex) (d : string) (m : rmatch) : Prop :=
  exists pre, d = (pre ++ group0 m ++ rest m)%string /\
              cmatches r (group0 m) (groups m).

(** ** The parsers in words *)

Definition pii_symbols : list string := ["GlobalPIIMasker"; "PIIMasker"; "mask_pii"].
Definition magika_symbols : list string :=
  ["validate_with_magika"; "magika_validate"; "MagikaValidator"].
Definition logger_symbols : list string := ["get_logger"; "CentralizedLogger"; "Logger.get"].

(** One of the names [ws] occurs in [s]. *)
Definition mentions_one_of (ws : list string) (s : string) : Prop :=
  exists w, In w ws /\ occurs_in w s.

(** A masking policy is documented: [docs/security/pii_masking.md] can
    be read and names one of the three maskers. *)
Definition masking_policy_documented (p : Project) : Prop :=
  exists content,
    read_text p ["docs"; "security"; "pii_masking.md"] = Some content /\
    mentions_one_of pii_symbols content.

(** PII masking is documented; nothing else is, and there is no code. *)
Definition masking_only : Project :=
  mk_project "/srv/shop" [Fixtures.docs [("security", Dir [Fixtures.pii_md])]].

(** The text has a [#] directly followed by a digit. *)
Definition has_hash_number (d : string) : Prop :=
  exists c, is_digit c = true /\ occurs_in (String "#" (String c EmptyString)) d.

(** The text has the word "issue" in any letter case, then whitespace,
    then a digit. *)
Definition has_issue_number (d : string) : Prop :=
  exists w ws c,
    upper w = "ISSUE" /\ ws <> EmptyString /\ all_chars is_space ws = true /\
    is_digit c = true /\ occurs_in (w ++ ws ++ String c EmptyString)%string d.

(** The endpoint [e] is written in [d]: its method in some letter case,
    whitespace, and its path. *)
Definition endpoint_written (d : string) (e : Endpoint.t) : Prop :=
  exists meth ws,
    upper meth = Endpoint.method e /\
    ws <> EmptyString /\ all_chars is_space ws = true /\
    occurs_in (meth ++ ws ++ Endpoint.path e)%string d.

(** A path as the pattern takes it: a slash and one or more path
    characters. *)
Definition well_formed_path (s : string) : Prop :=
  exists tl, s = String "/" tl /\ tl <> EmptyString /\ all_chars path_char tl = true.

(** ** Scanner and report vocabulary *)

(** An issue moved [k] lines down. *)
Definition shift_line (k : nat) (i : UnrelatedIssue.t) : UnrelatedIssue.t :=
  UnrelatedIssue.mk (UnrelatedIssue.type i) (UnrelatedIssue.file i)
                    (k + UnrelatedIssue.line i) (UnrelatedIssue.description i)
                    (UnrelatedIssue.severity i).

(** The kind and severity pairs the scanner produces. *)
Definition scanner_grades : list (IssueType * string) :=
  [(TODO, "low"); (DEPRECATED, "medium"); (SECURITY, "high"); (SECURITY, "critical")].

Definition grade (i : UnrelatedIssue.t) : IssueType * string :=
  (UnrelatedIssue.type i, UnrelatedIssue.severity i).

(** The file names the scanner looks at. *)
Definition scanned_names : list string := ["views.py"; "urls.py"; "serializers.py"].

(** The path of a file given by its components, as globbing writes it. *)
Definition rel_of (components : list string) : string :=
  fold_left path_join components EmptyString.

(** ** Report and plan vocabulary *)

Definition run_statuses : list string :=
  ["documentation_mismatch"; "unrelated_issues_found"; "need_clarification";
   "approval_needed"].

(** The note that closes a preview of more than five discrepancies. *)
Definition more_discrepancies_note (n : nat) : string :=
  (nl ++ "...and " ++ str_of_nat (n - 5) ++ " more discrepancies.")%string.

(** The three parts of which every plan of a run is made. *)
Definition plan_header (number : string) (folders : nat) : string :=
  unlines
    [ "# Implementation Plan (Validated Against Documentation)";
      "";
      "## Issue Details";
      ("- Number: #" ++ number)%string;
      "- Has PII: No";
      "";
      "## Documentation Validation Status";
      ("- ✅ Read " ++ str_of_nat folders ++ " feature documentation folders")%string;
      "- ✅ Validated against existing code";
      "- ✅ Checked for unrelated issues" ].

Definition plan_logging_section (logger import_from : string) : string :=
  unlines
    [ "";
      "## Logging (Per Documentation)";
      ("- Will use: " ++ logger)%string;
      ("- Import from: " ++ import_from)%string;
      "- No print statements, only centralized logging" ].

Definition plan_steps : string :=
  unlines
    [ "";
      "## Implementation Steps";
      "1. Create feature branch per workflow";
      "2. Implement with documentation compliance";
      "3. Use global PII masking where needed";
      "4. Add Magika validation for uploads";
      "5. Use centralized logging throughout";
      "6. Generate tests (>85% coverage)";
      "7. Flag any unrelated issues in PR";
      "8. Create comprehensive documentation";
      "";
      "## What I Will NOT Do";
      "- Ignore documentation requirements";
      "- Use print statements instead of logging";
      "- Skip PII masking";
      "- Allow unvalidated file uploads";
      "- Leave critical issues unflagged";
      "";
      "**This plan is validated against your documentation. Proceed? (yes/no)**" ].

(** A directory [docs/<feature>] exists. *)
Definition feature_dir_exists (p : Project) (feature : string) : bool :=
  is_some (list_dir p ["docs"; feature]).

Definition outcome_message (o : Outcome) : string :=
  match o with
  | documentation_mismatch _ _ m => m
  | unrelated_issues_found _ _ _ _ _ m => m
  | need_clarification _ m => m
  | breaking_changes_warning _ m => m
  | approval_needed _ m => m
  end.

(** No documentation, and [app/views.py] carries a TODO. *)
Definition todo_views : Project :=
  mk_project "/srv/shop" [("app", Dir [("views.py", File "x = 1  # TODO tidy")])].

Definition outcome_plan (o : Outcome) : string :=
  match o with
  | approval_needed plan _ => plan
  | _ => EmptyString
  end.

(** The feature names collected for an issue text. *)
Definition candidates (p : Project) (d : string) : list string :=
  candidate_features p (_parse_issue d new_automation).

(** A working directory whose own path contains "test": PII masking and
    logging are documented and [app/views.py] ignores both. *)
Definition contest_project : Project :=
  mk_project "/home/contest/shop"
    [ Fixtures.docs [ ("security", Dir [Fixtures.pii_md]);
                     ("infrastructure", Dir [Fixtures.logging_md]) ];
      ("app", Dir [("views.py", File "print(user.email)")]) ].

(** Two feature folders, one of them empty, beside a file of [docs]. *)
Definition feature_project : Project :=
  mk_project "/srv/shop"
    [ Fixtures.docs [ ("report", Dir []);
                     ("billing", Dir [("api.md", File "GET /invoices")]);
                     ("notes.md", File "report") ] ].

Definition report_issue : string := "Add billing report page #9".

(** ** Project and workflow documents, in words *)

Definition branch_kinds : list string := ["feature"; "bugfix"; "hotfix"].

(** A branch name as the workflow pattern takes it. *)
Definition branch_shaped (b : string) : Prop :=
  exists kind tail,
    b = (kind ++ "/" ++ tail)%string /\ In kind branch_kinds /\
    tail <> EmptyString /\ all_chars (fun c => negb (is_space c)) tail = true.

(** A commit format as the workflow pattern takes it: a tag in square
    brackets that starts with ISSUE, and the rest of the line. *)
Definition commit_shaped (f : string) : Prop :=
  exists tag body,
    f = ("[ISSUE" ++ tag ++ "]" ++ body)%string /\
    all_chars (fun c => negb (Ascii.eqb c "]")) tag = true /\
    body <> EmptyString /\
    all_chars (fun c => negb (Ascii.eqb c newline)) body = true.

(** A version as the project pattern takes it, after the word Django. *)
Definition version_written (content v : string) : Prop :=
  v <> EmptyString /\ all_chars version_char v = true /\
  exists w ws, upper w = "DJANGO" /\ all_chars is_space ws = true /\
               occurs_in (w ++ ws ++ v)%string content.

(** Sample documents and texts. *)
Definition workflow_sample : string :=
  "Branch as feature/ISSUE-12-export and commit as [ISSUE-12] Add export".
Definition project_sample : string := "Stack: Django 4.2 on MySQL".
Definition bullets_sample : string :=
  ("Export page" ++ nl ++ "  - CSV download  " ++ nl ++ "* audit trail")%string.

(** An instance that holds six discrepancies. *)
Definition six_discrepancies : Automation :=
  mk_automation [] PiiConfig.empty MagikaConfig.empty LoggingConfig.empty IssueData.empty []
    (repeat (DocumentationDiscrepancy.mk pii_doc "statement" "observed" "suggestion") 6).

(** * Properties *)

(** ** Text *)

Section TextFacts.

Local Open Scope string_scope.

Lemma append_assoc_s (a b c : string) : (a ++ b) ++ c = a ++ (b ++ c).
Proof. induction a as [|x a IH]; simpl; [reflexivity | now rewrite IH]. Qed.

Lemma length_append_s (a b : string) :
  String.length (a ++ b) = String.length a + String.length b.
Proof. induction a as [|x a IH]; simpl; [reflexivity | now rewrite IH]. Qed.

Lemma startswith_spec (p s : string) :
  startswith p s = true <-> exists post, s = p ++ post.
Proof.
  revert s; induction p as [|a p IH]; intros s; simpl.
  - split; [intros _; now exists s | reflexivity].
  - destruct s as [|b s].
    + split; [discriminate | intros [post H]; discriminate].
    + rewrite andb_true_iff, Ascii.eqb_eq, IH. split.
      * intros [-> [post ->]]. now exists post.
      * intros [post H]. injection H as -> ->. split; [reflexivity | now exists post].
Qed.

(** The substring test decides occurrence. *)
Lemma contains_spec (sub s : string) :
  contains sub s = true <-> occurs_in sub s.
Proof.
  unfold occurs_in. induction s as [|c s IH].
  - cbn [contains]. rewrite startswith_spec. split.
    + intros [post H]. exists "", post. exact H.
    + intros [[|x pre] [post H]]; [now exists post | discriminate].
  - cbn [contains]. rewrite orb_true_iff, startswith_spec, IH. split.
    + intros [[post H] | [pre [post H]]].
      * exists "", post. exact H.
      * exists (String c pre), post. simpl. now rewrite H.
    + intros [[|x pre] [post H]].
      * left. now exists post.
      * right. simpl in H. injection H as _ H. now exists pre, post.
Qed.

Lemma contains_any_spec (kws : list string) (s : string) :
  contains_any kws s = true <-> exists kw, In kw kws /\ occurs_in kw s.
Proof.
  unfold contains_any. rewrite existsb_exists.
  split; intros [kw [Hin H]]; exists kw; split; try assumption;
    now apply contains_spec.
Qed.

Lemma take_append (a b : string) : take (String.length a) (a ++ b) = a.
Proof. induction a as [|x a IH]; simpl; [now destruct b | now rewrite IH]. Qed.

Lemma consumed_append (a b : string) : consumed (a ++ b) b = a.
Proof.
  unfold consumed. rewrite length_append_s.
  replace (String.length a + String.length b - String.length b) with (String.length a) by lia.
  apply take_append.
Qed.

End TextFacts.

(** ** The matcher finds only matches *)

Section MatcherSound.

Local Open Scope string_scope.

Variable A : Type.

Lemma mt_sound (r : regex) :
  forall (s : string) caps (k : string -> list string -> option A) a,
    mt r s caps k = Some a ->
    exists s1 s2 caps', s = s1 ++ s2 /\ matches r s1 /\ k s2 caps' = Some a.
Proof.
  induction r as [| c | p | r1 IH1 r2 IH2 | r1 IH1 r2 IH2 | r IH | r IH];
    intros s caps k a H; cbn [mt] in H.
  - exists "", s, caps. repeat split; [constructor | assumption].
  - destruct s as [|x s]; [discriminate|].
    destruct (Ascii.eqb x c) eqn:E; [|discriminate].
    apply Ascii.eqb_eq in E; subst x.
    exists (String c ""), s, caps. repeat split; [constructor | assumption].
  - destruct s as [|x s]; [discriminate|].
    destruct (p x) eqn:E; [|discriminate].
    exists (String x ""), s, caps. repeat split; [now constructor | assumption].
  - apply IH1 in H. destruct H as (s1 & s2 & caps1 & -> & M1 & H).
    apply IH2 in H. destruct H as (t1 & t2 & caps2 & -> & M2 & H).
    exists (s1 ++ t1), t2, caps2. rewrite append_assoc_s.
    repeat split; [now constructor | assumption].
  - destruct (mt r1 s caps k) eqn:E.
    + injection H as ->. apply IH1 in E. destruct E as (s1 & s2 & caps1 & -> & M & H).
      exists s1, s2, caps1. repeat split; [now apply MAltL | assumption].
    + apply IH2 in H. destruct H as (s1 & s2 & caps1 & -> & M & H).
      exists s1, s2, caps1. repeat split; [now apply MAltR | assumption].
  - revert H. generalize (String.length s) as n. intros n; revert s caps a.
    induction n as [|n IHn]; intros s caps a H.
    + exists "", s, caps. repeat split; [constructor | assumption].
    + match type of H with
      | match ?m with _ => _ end = _ => destruct m eqn:E
      end.
      * injection H as ->. apply IH in E.
        destruct E as (s1 & s2 & caps1 & -> & M & H).
        destruct (String.length s2 <? String.length (s1 ++ s2))%nat; [|discriminate].
        apply IHn in H. destruct H as (t1 & t2 & caps2 & -> & M2 & H).
        exists (s1 ++ t1), t2, caps2. rewrite append_assoc_s.
        repeat split; [now apply MStarS | assumption].
      * exists "", s, caps. repeat split; [constructor | assumption].
  - apply IH in H. destruct H as (s1 & s2 & caps1 & -> & M & H).
    exists s1, s2, (caps1 ++ [consumed (s1 ++ s2) s2])%list.
    repeat split; [now constructor | assumption].
Qed.

End MatcherSound.

Lemma match_here_sound (r : regex) (s : string) (m : rmatch) :
  match_here r s = Some m ->
  s = (group0 m ++ rest m)%string /\ matches r (group0 m).
Proof.
  unfold match_here. intros H. apply mt_sound in H.
  destruct H as (s1 & s2 & caps & -> & M & H). injection H as <-. cbn.
  rewrite consumed_append. split; [reflexivity | assumption].
Qed.

Lemma search_sound (r : regex) (s : string) (m : rmatch) :
  search r s = Some m ->
  exists pre, s = (pre ++ group0 m ++ rest m)%string /\ matches r (group0 m).
Proof.
  induction s as [|c s IH]; cbn [search]; destruct (match_here r _) eqn:E.
  - intros H; injection H as ->. apply match_here_sound in E.
    exists EmptyString. exact E.
  - discriminate.
  - intros H; injection H as ->. apply match_here_sound in E.
    exists EmptyString. exact E.
  - intros H. destruct (IH H) as [pre [-> M]].
    exists (String c pre). split; [reflexivity | assumption].
Qed.

Lemma search_none_of_no_match (r : regex) (s : string) :
  ~ has_match r s -> search r s = None.
Proof.
  intros N. destruct (search r s) as [m|] eqn:E; [|reflexivity].
  exfalso. apply N. apply search_sound in E. destruct E as [pre [-> M]].
  now exists pre, (group0 m), (rest m).
Qed.

Lemma finditer_nil_of_no_match (r : regex) (s : string) :
  ~ has_match r s -> finditer r s = [].
Proof.
  intros N. unfold finditer. cbn [finditer_from].
  now rewrite (search_none_of_no_match N).
Qed.

(** ** What each stage leaves untouched *)

Section StageFacts.

Variable list_of_set : list string -> list string.
Variable p : Project.

Lemma validate_fields (self : Automation) :
  let s := _validate_documentation_against_code p self in
  feature_docs s = feature_docs self /\
  pii_config s = pii_config self /\
  magika_config s = magika_config self /\
  logging_config s = logging_config self /\
  issue_data s = issue_data self /\
  unrelated_issues s = unrelated_issues self /\
  doc_discrepancies s =
    doc_discrepancies self ++ pii_discrepancies p (pii_config self)
      ++ magika_discrepancies p (magika_config self)
      ++ logging_discrepancies p (logging_config self).
Proof.
  cbv zeta.
  unfold _validate_documentation_against_code, pii_discrepancies,
    magika_discrepancies, logging_discrepancies,
    _validate_pii_usage, _validate_magika_usage, _validate_logging_usage,
    add_discrepancies.
  destruct (truthy (PiiConfig.masking_function (pii_config self)));
    cbn [feature_docs pii_config magika_config logging_config issue_data
         unrelated_issues doc_discrepancies];
    destruct (truthy (MagikaConfig.validation_function (magika_config self)));
    cbn [feature_docs pii_config magika_config logging_config issue_data
         unrelated_issues doc_discrepancies];
    destruct (truthy (LoggingConfig.logger_function (logging_config self)));
    cbn [feature_docs pii_config magika_config logging_config issue_data
         unrelated_issues doc_discrepancies];
    repeat split; rewrite ?app_nil_r, <- ?app_assoc; reflexivity.
Qed.

Variable d : string.

Let s4 := validated list_of_set p d new_automation.

Lemma validated_issue_data : issue_data s4 = parsed d.
Proof.
  unfold s4, validated.
  destruct (validate_fields
              (_read_feature_documentation list_of_set p
                 (_parse_issue d (_deep_documentation_read p new_automation))))
    as (_ & _ & _ & _ & H & _).
  rewrite H. reflexivity.
Qed.

Lemma validated_configs :
  pii_config s4 = pii_config (docs_read p) /\
  magika_config s4 = magika_config (docs_read p) /\
  logging_config s4 = logging_config (docs_read p).
Proof.
  unfold s4, validated.
  destruct (validate_fields
              (_read_feature_documentation list_of_set p
                 (_parse_issue d (_deep_documentation_read p new_automation))))
    as (_ & H1 & H2 & H3 & _).
  rewrite H1, H2, H3. repeat split.
Qed.

Lemma validated_unrelated_issues : unrelated_issues s4 = [].
Proof.
  unfold s4, validated.
  destruct (validate_fields
              (_read_feature_documentation list_of_set p
                 (_parse_issue d (_deep_documentation_read p new_automation))))
    as (_ & _ & _ & _ & _ & H & _).
  rewrite H. reflexivity.
Qed.

Lemma validated_discrepancies :
  doc_discrepancies s4 =
    pii_discrepancies p (pii_config (docs_read p))
      ++ magika_discrepancies p (magika_config (docs_read p))
      ++ logging_discrepancies p (logging_config (docs_read p)).
Proof.
  unfold s4, validated.
  destruct (validate_fields
              (_read_feature_documentation list_of_set p
                 (_parse_issue d (_deep_documentation_read p new_automation))))
    as (_ & _ & _ & _ & _ & _ & H).
  rewrite H. reflexivity.
Qed.

(** The issues the scanner adds on a run. *)
Lemma scanned_unrelated_issues :
  unrelated_issues (_scan_for_unrelated_issues p s4) =
  flat_map scan_file (_get_affected_files p s4).
Proof.
  cbn [_scan_for_unrelated_issues unrelated_issues].
  now rewrite validated_unrelated_issues.
Qed.

(** The controller, stage by stage. *)
Lemma work_on_issue_cases :
  let s6 := _scan_for_unrelated_issues p s4 in
  let o := work_on_issue list_of_set p d in
  match doc_discrepancies s4 with
  | _ :: _ => o = _handle_documentation_discrepancies s4
  | [] =>
      match unrelated_issues s6 with
      | _ :: _ => o = _handle_unrelated_issues s6
      | [] =>
          match _get_clarification_questions s6 with
          | (_ :: _) as qs =>
              o = need_clarification qs "I need clarification on these points:"
          | [] =>
              match _check_breaking_changes p s6 with
              | (_ :: _) as cs =>
                  o = breaking_changes_warning cs
                        "⚠️  These changes might break existing code. Continue?"
              | [] =>
                  o = approval_needed (_create_validated_plan s6)
                        "Implementation plan (validated against your docs). Proceed? (yes/no)"
              end
          end
      end
  end.
Proof.
  intros s6 o. unfold o, work_on_issue, work_on_issue_method. fold s4. fold s6.
  destruct (doc_discrepancies s4); cbn [is_nil negb fst]; [|reflexivity].
  destruct (unrelated_issues s6); cbn [is_nil negb fst]; [|reflexivity].
  destruct (_get_clarification_questions s6); cbn [is_nil negb fst]; [|reflexivity].
  destruct (_check_breaking_changes p s6); cbn [is_nil negb fst]; reflexivity.
Qed.

End StageFacts.

(** ** The matcher finds every match

    With a continuation that accepts the rest whatever the captures, the
    matcher succeeds on any text that starts with a word of the pattern's
    language; so a search fails exactly when no part of the text matches. *)

Section MatcherComplete.

Local Open Scope string_scope.

Variable A : Type.

Lemma mt_star (r : regex) (s : string) caps (k : string -> list string -> option A) :
  mt (Star r) s caps k = star_loop r k (String.length s) s caps.
Proof. reflexivity. Qed.

Lemma star_loop_accepts (r : regex) (k : string -> list string -> option A) n s caps :
  accepts k s -> star_loop r k n s caps <> None.
Proof.
  intros Hk. destruct n as [|n]; cbn [star_loop]; [apply Hk|].
  destruct (mt r s caps _); [discriminate | apply Hk].
Qed.

Lemma mt_complete (r : regex) (s1 : string) :
  matches r s1 -> complete_at A r s1.
Proof.
  induction 1 as [| c | q c Hq | r1 r2 s1 s2 _ [IH1 _] _ [IH2 _]
                  | r1 r2 s _ [IH _] | r1 r2 s _ [IH _]
                  | r | r s1 s2 _ [IH1 _] _ [_ IH2] | r s _ [IH _]];
    unfold complete_at.
  - split; [|exact I]. intros s2 caps k Hk. apply Hk.
  - split; [|exact I]. intros s2 caps k Hk. cbn. rewrite Ascii.eqb_refl. apply Hk.
  - split; [|exact I]. intros s2 caps k Hk. cbn. rewrite Hq. apply Hk.
  - split; [|exact I]. intros s3 caps k Hk. cbn [mt]. rewrite append_assoc_s.
    apply IH1. intros caps'. now apply IH2.
  - split; [|exact I]. intros s2 caps k Hk. cbn [mt].
    destruct (mt r1 (s ++ s2) caps k) eqn:E; [discriminate|].
    exfalso. revert E. now apply IH.
  - split; [|exact I]. intros s2 caps k Hk. cbn [mt].
    destruct (mt r1 (s ++ s2) caps k); [discriminate | now apply IH].
  - split.
    + intros s2 caps k Hk. rewrite mt_star. now apply star_loop_accepts.
    + intros n s2 caps k _ Hk. now apply star_loop_accepts.
  - assert (L : forall n s3 caps (k : string -> list string -> option A),
               String.length ((s1 ++ s2) ++ s3) <= n -> accepts k s3 ->
               star_loop r k n ((s1 ++ s2) ++ s3) caps <> None).
    { intros n s3 caps k Hn Hk. destruct s1 as [|x s1].
      - cbn [append]. now apply IH2.
      - destruct n as [|n]; [cbn in Hn; lia|].
        cbn [star_loop].
        match goal with
        | |- match ?m with _ => _ end <> None => destruct m eqn:E
        end; [discriminate|].
        exfalso. revert E. rewrite append_assoc_s. apply IH1.
        intros caps'.
        replace (String.length (s2 ++ s3) <? String.length (String x s1 ++ s2 ++ s3))%nat
          with true.
        + apply IH2; [|assumption].
          rewrite append_assoc_s in Hn. cbn [append String.length] in Hn.
          rewrite !length_append_s in *. lia.
        + symmetry. apply Nat.ltb_lt. cbn. rewrite !length_append_s. lia. }
    split; [|exact L].
    intros s3 caps k Hk. rewrite mt_star. now apply L.
  - split; [|exact I]. intros s2 caps k Hk. cbn [mt]. apply IH.
    intros caps'. apply Hk.
Qed.

End MatcherComplete.

Lemma match_here_complete (r : regex) (m post : string) :
  matches r m -> match_here r (m ++ post)%string <> None.
Proof.
  intros M. unfold match_here.
  apply (proj1 (mt_complete rmatch M)). intros caps. discriminate.
Qed.

Lemma search_complete (r : regex) (s : string) :
  has_match r s -> search r s <> None.
Proof.
  intros (pre & m & post & -> & M). induction pre as [|c pre IH].
  - cbn [append]. destruct (m ++ post)%string eqn:E; cbn [search];
      rewrite <- E; destruct (match_here r (m ++ post)%string) eqn:F;
      try discriminate; exfalso; revert F; now apply match_here_complete.
  - cbn [append search]. destruct (match_here r _); [discriminate | exact IH].
Qed.

(** Searching decides whether the text has a match. *)
Theorem search_spec (r : regex) (s : string) :
  search r s = None <-> ~ has_match r s.
Proof.
  split.
  - intros E H. now apply (search_complete H).
  - apply search_none_of_no_match.
Qed.

(** ** The endpoint pattern, spelled out *)

Section EndpointPattern.

Local Open Scope string_scope.

(** A property checked on the 256 characters holds of every character. *)
Lemma forall_ascii (q : ascii -> bool) :
  forallb q (map ascii_of_nat (seq 0 256)) = true -> forall c, q c = true.
Proof.
  intros H c. rewrite forallb_forall in H. apply H.
  rewrite <- (ascii_nat_embedding c). apply in_map. apply in_seq.
  pose proof (nat_ascii_bounded c). lia.
Qed.

Lemma forall_ascii2 (q : ascii -> ascii -> bool) :
  forallb (fun x => forallb (q x) (map ascii_of_nat (seq 0 256)))
          (map ascii_of_nat (seq 0 256)) = true ->
  forall x c, q x c = true.
Proof.
  intros H x. apply forall_ascii. revert x. apply forall_ascii. exact H.
Qed.

(** Two characters have the same lower-case form exactly when they have
    the same upper-case form. *)
Lemma case_fold_char (x c : ascii) :
  Ascii.eqb (lower_char x) (lower_char c) = Ascii.eqb (upper_char x) (upper_char c).
Proof.
  apply eqb_prop.
  apply (forall_ascii2
           (fun x c => Bool.eqb (Ascii.eqb (lower_char x) (lower_char c))
                                (Ascii.eqb (upper_char x) (upper_char c)))).
  vm_compute. reflexivity.
Qed.

(** The classes of the pattern are closed under case change, so [re.I]
    leaves them as they are. *)
Lemma icase_space (x : ascii) :
  (is_space x || is_space (lower_char x) || is_space (upper_char x))%bool = is_space x.
Proof.
  apply eqb_prop. revert x. apply forall_ascii. vm_compute. reflexivity.
Qed.

Lemma icase_path_char (x : ascii) :
  (path_char x || path_char (lower_char x) || path_char (upper_char x))%bool = path_char x.
Proof.
  apply eqb_prop. revert x. apply forall_ascii. vm_compute. reflexivity.
Qed.

Lemma icase_slash (x : ascii) :
  Ascii.eqb (lower_char x) (lower_char "/") = Ascii.eqb x "/".
Proof.
  apply eqb_prop. revert x. apply forall_ascii. vm_compute. reflexivity.
Qed.

Lemma matches_eps (s : string) : matches Eps s <-> s = "".
Proof. split; [now inversion 1 | intros ->; constructor]. Qed.

Lemma matches_cls (q : ascii -> bool) (s : string) :
  matches (Cls q) s <-> exists c, s = String c "" /\ q c = true.
Proof.
  split.
  - inversion 1; subst. now exists c.
  - intros (c & -> & H). now constructor.
Qed.

Lemma matches_cat (r1 r2 : regex) (s : string) :
  matches (Cat r1 r2) s <-> exists s1 s2, s = s1 ++ s2 /\ matches r1 s1 /\ matches r2 s2.
Proof.
  split.
  - inversion 1; subst. now exists s1, s2.
  - intros (s1 & s2 & -> & H1 & H2). now constructor.
Qed.

Lemma matches_alt (r1 r2 : regex) (s : string) :
  matches (Alt r1 r2) s <-> matches r1 s \/ matches r2 s.
Proof.
  split.
  - inversion 1; subst; [now left | now right].
  - intros [H | H]; [now apply MAltL | now apply MAltR].
Qed.

Lemma matches_grp (r : regex) (s : string) : matches (Grp r) s <-> matches r s.
Proof. split; [now inversion 1 | now constructor]. Qed.

Lemma matches_star_cls (q : ascii -> bool) (s : string) :
  matches (Star (Cls q)) s <-> all_chars q s = true.
Proof.
  split.
  - intros H. remember (Star (Cls q)) as r eqn:E.
    induction H as [| | | | | | r0 | r0 s1 s2 H1 _ H2 IH2 |]; try discriminate.
    + reflexivity.
    + injection E as ->. apply matches_cls in H1. destruct H1 as (c & -> & Hc).
      cbn. rewrite Hc. now apply IH2.
  - induction s as [|c s IH]; cbn [all_chars]; intros H.
    + constructor.
    + apply andb_true_iff in H. destruct H as [Hc Hs].
      change (String c s) with (String c "" ++ s).
      apply MStarS; [now constructor | now apply IH].
Qed.

Lemma all_chars_ext (q q' : ascii -> bool) (s : string) :
  (forall c, q c = q' c) -> all_chars q s = all_chars q' s.
Proof.
  intros E. induction s as [|c s IH]; cbn; [reflexivity | now rewrite E, IH].
Qed.

(** One or more characters of a class. *)
Lemma matches_plus_cls (q : ascii -> bool) (s : string) :
  matches (Plus (Cls q)) s <-> s <> "" /\ all_chars q s = true.
Proof.
  unfold Plus. rewrite matches_cat. split.
  - intros (s1 & s2 & -> & H1 & H2). apply matches_cls in H1.
    destruct H1 as (c & -> & Hc). apply matches_star_cls in H2.
    split; [discriminate | cbn; now rewrite Hc, H2].
  - intros [N H]. destruct s as [|c s]; [contradiction|].
    cbn in H. apply andb_true_iff in H. destruct H as [Hc Hs].
    exists (String c ""), s. repeat split.
    + now constructor.
    + now apply matches_star_cls.
Qed.

(** A literal under [re.I] matches the texts that agree with it once both
    are put in upper case. *)
Lemma matches_icase_lit (w s : string) :
  matches (icase (Lit w)) s <-> upper s = upper w.
Proof.
  revert s. induction w as [|c w IH]; intros s.
  - cbn. rewrite matches_eps. destruct s; cbn; split; congruence.
  - destruct w as [|c' w].
    + cbn [Lit icase]. rewrite matches_cls. split.
      * intros (x & -> & H). rewrite case_fold_char in H.
        apply Ascii.eqb_eq in H. cbn. now rewrite H.
      * destruct s as [|x [|y s]]; cbn; intros H; try discriminate.
        injection H as H. exists x. split; [reflexivity|].
        rewrite case_fold_char. now apply Ascii.eqb_eq.
    + change (Lit (String c (String c' w))) with (Cat (Chr c) (Lit (String c' w))).
      cbn [icase]. rewrite matches_cat. split.
      * intros (s1 & s2 & -> & H1 & H2). apply matches_cls in H1.
        destruct H1 as (x & -> & H). rewrite case_fold_char in H.
        apply Ascii.eqb_eq in H. apply IH in H2.
        cbn [append upper map_string]. fold (upper s2).
        fold (upper (String c' w)). now rewrite H, H2.
      * destruct s as [|x s]; [discriminate|].
        cbn [upper map_string]. fold (upper s). fold (upper (String c' w)).
        intros H. injection H as Hx Hs.
        exists (String x ""), s. repeat split.
        -- apply matches_cls. exists x. split; [reflexivity|].
           rewrite case_fold_char. now apply Ascii.eqb_eq.
        -- now apply IH.
Qed.

Lemma endpoint_pattern_shape :
  endpoint_pattern =
  Cat (Grp (Alt (icase (Lit "GET")) (Alt (icase (Lit "POST")) (Alt (icase (Lit "PUT"))
                (Alt (icase (Lit "PATCH")) (icase (Lit "DELETE")))))))
      (Cat (icase (Plus space))
           (Grp (Cat (icase (Chr "/")) (icase (Plus (Cls path_char)))))).
Proof. reflexivity. Qed.

Lemma matches_method (s : string) :
  matches (Alt (icase (Lit "GET")) (Alt (icase (Lit "POST")) (Alt (icase (Lit "PUT"))
               (Alt (icase (Lit "PATCH")) (icase (Lit "DELETE")))))) s
  <-> In (upper s) http_methods.
Proof.
  rewrite !matches_alt, !matches_icase_lit. unfold http_methods. cbn [In].
  change (upper "GET") with "GET". change (upper "POST") with "POST".
  change (upper "PUT") with "PUT". change (upper "PATCH") with "PATCH".
  change (upper "DELETE") with "DELETE".
  intuition congruence.
Qed.

Lemma matches_icase_plus (q : ascii -> bool) (s : string) :
  (forall x, (q x || q (lower_char x) || q (upper_char x))%bool = q x) ->
  matches (icase (Plus (Cls q))) s <-> s <> "" /\ all_chars q s = true.
Proof.
  intros E. change (icase (Plus (Cls q)))
    with (Plus (Cls (fun x => (q x || q (lower_char x) || q (upper_char x))%bool))).
  rewrite matches_plus_cls. now rewrite (all_chars_ext _ q s E).
Qed.

(** The pattern of the source matches exactly the endpoint mentions. *)
Theorem endpoint_pattern_spec (d : string) :
  has_match endpoint_pattern d <-> mentions_endpoint d.
Proof.
  unfold has_match, mentions_endpoint. rewrite endpoint_pattern_shape. split.
  - intros (pre & m & post & -> & M).
    apply matches_cat in M. destruct M as (meth & m2 & -> & Mm & M2).
    apply matches_grp, matches_method in Mm.
    apply matches_cat in M2. destruct M2 as (ws & m3 & -> & Mw & M3).
    apply (matches_icase_plus _ _ icase_space) in Mw. destruct Mw as [Nw Aw].
    apply matches_grp, matches_cat in M3. destruct M3 as (sl & path & -> & Ms & Mp).
    apply matches_cls in Ms. destruct Ms as (x & -> & Hx).
    rewrite icase_slash in Hx. apply Ascii.eqb_eq in Hx. subst x.
    apply (matches_icase_plus _ _ icase_path_char) in Mp. destruct Mp as [Np Ap].
    exists pre, meth, ws, path, post. repeat split; try assumption.
    now rewrite !append_assoc_s.
  - intros (pre & meth & ws & path & post & -> & Hm & Nw & Aw & Np & Ap).
    exists pre, (meth ++ ws ++ String "/" path), post. split.
    + now rewrite !append_assoc_s.
    + apply matches_cat. exists meth, (ws ++ String "/" path). repeat split.
      * now apply matches_grp, matches_method.
      * apply matches_cat. exists ws, (String "/" path). repeat split.
        -- now apply (matches_icase_plus _ _ icase_space).
        -- apply matches_grp, matches_cat. exists (String "/" ""), path. repeat split.
           ++ apply matches_cls. exists "/"%char. split; [reflexivity|].
              now rewrite icase_slash.
           ++ now apply (matches_icase_plus _ _ icase_path_char).
Qed.

End EndpointPattern.

(** ** The claims *)

Section Claims.

Variable list_of_set : list string -> list string.
Variable p : Project.
Variable d : string.

Local Abbreviation s4 := (validated list_of_set p d new_automation).
Local Abbreviation s6 :=
  (_scan_for_unrelated_issues p (validated list_of_set p d new_automation)).
Local Abbreviation run := (work_on_issue list_of_set p d).

(** The state that reaches the later stages carries the parsed issue and
    the configurations read from the documentation. *)
Lemma scanned_issue_data : issue_data s6 = parsed d.
Proof. cbn [_scan_for_unrelated_issues issue_data]. apply validated_issue_data. Qed.

Lemma scanned_configs :
  pii_config s6 = pii_config (docs_read p) /\
  magika_config s6 = magika_config (docs_read p) /\
  logging_config s6 = logging_config (docs_read p).
Proof.
  cbn [_scan_for_unrelated_issues pii_config magika_config logging_config].
  apply validated_configs.
Qed.

(** No issue text gives the parser a model name. *)
Lemma parsed_models : IssueData.models (parsed d) = [].
Proof. reflexivity. Qed.

Lemma no_breaking_changes : _check_breaking_changes p s6 = [].
Proof.
  unfold _check_breaking_changes. rewrite scanned_issue_data, parsed_models. reflexivity.
Qed.

(** The status of a run, read off the stage at which it halts. *)
Lemma status_cases :
  (doc_discrepancies s4 <> [] /\ run = _handle_documentation_discrepancies s4
     /\ status run = "documentation_mismatch") \/
  (doc_discrepancies s4 = [] /\ unrelated_issues s6 <> []
     /\ run = _handle_unrelated_issues s6 /\ status run = "unrelated_issues_found") \/
  (doc_discrepancies s4 = [] /\ unrelated_issues s6 = []
     /\ _get_clarification_questions s6 <> []
     /\ run = need_clarification (_get_clarification_questions s6)
                "I need clarification on these points:"
     /\ status run = "need_clarification") \/
  (doc_discrepancies s4 = [] /\ unrelated_issues s6 = []
     /\ _get_clarification_questions s6 = []
     /\ run = approval_needed (_create_validated_plan s6)
                "Implementation plan (validated against your docs). Proceed? (yes/no)"
     /\ status run = "approval_needed").
Proof.
  generalize (work_on_issue_cases list_of_set p d). cbv zeta.
  rewrite no_breaking_changes.
  destruct (doc_discrepancies s4) eqn:E4.
  - destruct (unrelated_issues s6) eqn:E6.
    + destruct (_get_clarification_questions s6) eqn:Eq.
      * intros ->. right; right; right. repeat split.
      * intros ->. right; right; left. repeat split. discriminate.
    + intros ->. right; left. repeat split. discriminate.
  - intros ->. left. repeat split. discriminate.
Qed.

(** C1.  When the consistency checker has found discrepancies and the
    scanner would find unrelated issues on the same run, the controller
    returns the documentation-mismatch outcome, with status
    "documentation_mismatch" and all the discrepancies, and not the
    outcome "unrelated_issues_found". *)
Theorem C1_doc_mismatch_outranks_triage :
  doc_discrepancies s4 <> [] ->
  unrelated_issues s6 <> [] ->
  run = _handle_documentation_discrepancies s4 /\
  status run = "documentation_mismatch" /\
  status run <> "unrelated_issues_found".
Proof.
  intros Hd _.
  destruct status_cases as [(_ & R & S) | [(E & _) | [(E & _) | (E & _)]]];
    try contradiction.
  rewrite S. repeat split; [exact R | discriminate].
Qed.

(** The breaking-change outcome is never returned: the parser leaves the
    list of model names empty, so stage 5 has nothing to compare. *)
Lemma breaking_changes_warning_unreachable :
  status run <> "breaking_changes_warning".
Proof.
  destruct status_cases as [(_ & _ & S) | [(_ & _ & _ & S) | [(_ & _ & _ & _ & S) | (_ & _ & _ & _ & S)]]];
    rewrite S; discriminate.
Qed.

End Claims.

(** Stage 5 itself does report a model that is handed to it: for a state
    whose issue data lists [model], every [models.py] declaring a class of
    that name yields a note. *)
Lemma check_breaking_changes_reports (p : Project) (self : Automation)
    (model : string) (mf : SourceFile) :
  In model (IssueData.models (issue_data self)) ->
  In mf (glob_named "models.py" p) ->
  contains ("class " ++ model) (text mf) = true ->
  In ("Model '" ++ model ++ "' already exists in " ++ rel mf)%string
     (_check_breaking_changes p self).
Proof.
  intros Hm Hf Hc. unfold _check_breaking_changes.
  apply in_flat_map. exists model. split; [assumption|].
  unfold model_changes. apply in_flat_map. exists mf. split; [assumption|].
  rewrite Hc. now left.
Qed.

Lemma C1_witness :
  work_on_issue Fixtures.first_seen Fixtures.undocumented_views Fixtures.endpoint_issue
    = _handle_documentation_discrepancies
        (validated Fixtures.first_seen Fixtures.undocumented_views
                   Fixtures.endpoint_issue new_automation) /\
  status (work_on_issue Fixtures.first_seen Fixtures.undocumented_views
                        Fixtures.endpoint_issue) = "documentation_mismatch" /\
  status (work_on_issue Fixtures.first_seen Fixtures.undocumented_views
                        Fixtures.endpoint_issue) <> "unrelated_issues_found".
Proof.
  apply C1_doc_mismatch_outranks_triage; vm_compute; discriminate.
Defined.

(** C2.  The issue "Add a new model Invoice for billing #12" names the
    model [Invoice], and [billing/models.py] already declares
    [class Invoice]; with logging documented no earlier stage halts.  The
    parsed issue lists no model, stage 5 records no note, and the run ends
    with status "approval_needed". *)
Theorem C2_existing_model_goes_unreported :
  occurs_in "Invoice" Fixtures.invoice_issue /\
  (exists mf, In mf (glob_named "models.py" Fixtures.with_invoice_model) /\
              contains "class Invoice" (text mf) = true) /\
  IssueData.models (parsed Fixtures.invoice_issue) = [] /\
  _check_breaking_changes Fixtures.with_invoice_model
    (_scan_for_unrelated_issues Fixtures.with_invoice_model
       (validated Fixtures.first_seen Fixtures.with_invoice_model
                  Fixtures.invoice_issue new_automation)) = [] /\
  status (work_on_issue Fixtures.first_seen Fixtures.with_invoice_model
                        Fixtures.invoice_issue) = "approval_needed".
Proof.
  split; [apply contains_spec; vm_compute; reflexivity|].
  split.
  - exists (mk_source "billing/models.py" "models.py" "class Invoice(models.Model): pass").
    split; vm_compute; auto.
  - repeat split; vm_compute; reflexivity.
Qed.

(** ** The clarification stage *)

Section Clarification.

Variable list_of_set : list string -> list string.
Variable p : Project.
Variable d : string.

Local Abbreviation s4 := (validated list_of_set p d new_automation).
Local Abbreviation s6 :=
  (_scan_for_unrelated_issues p (validated list_of_set p d new_automation)).
Local Abbreviation run := (work_on_issue list_of_set p d).

Lemma pii_question_asked (self : Automation) :
  IssueData.has_pii (issue_data self) = true ->
  In (pii_question (pii_config self)) (_get_clarification_questions self).
Proof.
  intros H. unfold _get_clarification_questions, pii_question. rewrite H.
  apply in_or_app; right. apply in_or_app; left.
  destruct (truthy _); now left.
Qed.

Lemma upload_question_asked (self : Automation) :
  contains "upload" (lower (IssueData.description (issue_data self))) = true ->
  MagikaConfig.validation_function (magika_config self) = None ->
  In upload_undocumented_question (_get_clarification_questions self).
Proof.
  intros H N. unfold _get_clarification_questions. rewrite H, N.
  apply in_or_app; right. apply in_or_app; right. apply in_or_app; left. now left.
Qed.

Lemma logging_question_asked (self : Automation) :
  LoggingConfig.logger_function (logging_config self) = None ->
  In logging_question (_get_clarification_questions self).
Proof.
  intros N. unfold _get_clarification_questions. rewrite N.
  apply in_or_app; right. apply in_or_app; right. apply in_or_app; right. now left.
Qed.

(** A question that is in none of the lists it could come from. *)
Ltac apart H :=
  repeat match type of H with
         | In _ (_ ++ _) => apply in_app_or in H; destruct H as [H | H]
         | In _ (if ?b then _ else _) => destruct b
         | In _ (when ?b _) => destruct b; cbn [when] in H
         | In _ [_] => destruct H as [H | []]
         | In _ [] => destruct H
         end;
  unfold number_question, pii_documented_question, pii_undocumented_question,
    upload_documented_question, upload_undocumented_question, logging_question in H;
  cbn [append] in H; discriminate H.

(** The questions are worded apart, so each of the two questions about
    an undocumented topic is in the list by its own test only. *)
Lemma pii_undocumented_question_iff (self : Automation) :
  In pii_undocumented_question (_get_clarification_questions self) <->
  IssueData.has_pii (issue_data self) = true /\
  truthy (PiiConfig.masking_function (pii_config self)) = false.
Proof.
  unfold _get_clarification_questions.
  destruct (IssueData.has_pii (issue_data self));
    destruct (truthy (PiiConfig.masking_function (pii_config self)));
    (split; [intros H | intros [H1 H2]]);
    try discriminate; try (split; reflexivity);
    try (apply in_or_app; right; apply in_or_app; left; now left);
    exfalso; apart H.
Qed.

Lemma upload_undocumented_question_iff (self : Automation) :
  In upload_undocumented_question (_get_clarification_questions self) <->
  contains "upload" (lower (IssueData.description (issue_data self))) = true /\
  truthy (MagikaConfig.validation_function (magika_config self)) = false.
Proof.
  unfold _get_clarification_questions.
  destruct (contains "upload" (lower (IssueData.description (issue_data self))));
    destruct (truthy (MagikaConfig.validation_function (magika_config self)));
    (split; [intros H | intros [H1 H2]]);
    try discriminate; try (split; reflexivity);
    try (apply in_or_app; right; apply in_or_app; right; apply in_or_app; left;
         now left);
    exfalso; apart H.
Qed.

(** A run that reaches stage 4 with a question to ask halts there. *)
Lemma halts_at_clarification (q : string) :
  doc_discrepancies s4 = [] ->
  unrelated_issues s6 = [] ->
  In q (_get_clarification_questions s6) ->
  run = need_clarification (_get_clarification_questions s6)
          "I need clarification on these points:".
Proof.
  intros E4 E6 Hq.
  destruct (status_cases list_of_set p d)
    as [(N & _) | [(_ & N & _) | [(_ & _ & _ & R & _) | (_ & _ & E & _)]]];
    try contradiction; [exact R|].
  rewrite E in Hq. destruct Hq.
Qed.

Lemma missing_pii_doc :
  read_text p ["docs"; "security"; "pii_masking.md"] = None ->
  pii_config (docs_read p) = PiiConfig.empty.
Proof.
  intros H. unfold docs_read, _deep_documentation_read. rewrite H. reflexivity.
Qed.

End Clarification.

(** C5.  For the issue text "Add endpoint POST /users/{id}/export -
    exports personal data, #42" in a project without
    [docs/security/pii_masking.md], when neither the checker nor the
    scanner finds anything, the run halts at the clarification stage and
    its questions include the one about PII handling; the issue model
    holds number "42" and the PII flag. *)
Theorem C5_export_issue_scenario
    (list_of_set : list string -> list string) (p : Project) :
  read_text p ["docs"; "security"; "pii_masking.md"] = None ->
  doc_discrepancies (validated list_of_set p Fixtures.export_issue new_automation) = [] ->
  unrelated_issues
    (_scan_for_unrelated_issues p
       (validated list_of_set p Fixtures.export_issue new_automation)) = [] ->
  (exists questions message,
      work_on_issue list_of_set p Fixtures.export_issue
        = need_clarification questions message /\
      In "How should PII be handled? I didn't find PII masking docs." questions) /\
  IssueData.number
    (issue_data (validated list_of_set p Fixtures.export_issue new_automation))
    = Some "42" /\
  IssueData.has_pii
    (issue_data (validated list_of_set p Fixtures.export_issue new_automation))
    = true.
Proof.
  intros Hdoc E4 E6.
  assert (Hp : IssueData.has_pii
                 (issue_data (_scan_for_unrelated_issues p
                    (validated list_of_set p Fixtures.export_issue new_automation)))
               = true).
  { rewrite scanned_issue_data. vm_compute. reflexivity. }
  pose proof (pii_question_asked _ Hp) as Hq.
  destruct (scanned_configs list_of_set p Fixtures.export_issue) as (C & _).
  rewrite C, (missing_pii_doc p Hdoc) in Hq.
  change (pii_question PiiConfig.empty) with pii_undocumented_question in Hq.
  split; [|split].
  - eexists _, _. split; [apply (halts_at_clarification _ _ _ _ E4 E6 Hq) | exact Hq].
  - rewrite validated_issue_data. vm_compute. reflexivity.
  - rewrite validated_issue_data. vm_compute. reflexivity.
Qed.

Lemma C5_witness :
  (exists questions message,
      work_on_issue Fixtures.first_seen Fixtures.bare Fixtures.export_issue
        = need_clarification questions message /\
      In "How should PII be handled? I didn't find PII masking docs." questions) /\
  IssueData.number
    (issue_data (validated Fixtures.first_seen Fixtures.bare Fixtures.export_issue
                           new_automation)) = Some "42" /\
  IssueData.has_pii
    (issue_data (validated Fixtures.first_seen Fixtures.bare Fixtures.export_issue
                           new_automation)) = true.
Proof.
  apply C5_export_issue_scenario; vm_compute; reflexivity.
Defined.

(** ** The consistency checker, file by file *)

Lemma flat_map_without (A B : Type) (g : A -> list B) (before after : list A) (x : A) :
  g x = [] -> flat_map g (before ++ x :: after) = flat_map g (before ++ after).
Proof.
  intros H. rewrite !flat_map_app. cbn [flat_map]. now rewrite H.
Qed.

Lemma pii_file_check_symbol (p : Project) (cfg : PiiConfig.t) (f : SourceFile)
    (masker : string) :
  PiiConfig.masking_function cfg = Some masker ->
  occurs_in masker (text f) ->
  pii_file_check p cfg f = [].
Proof.
  intros Hc Ho. apply contains_spec in Ho. unfold pii_file_check.
  rewrite Hc. cbn [get_default]. rewrite Ho.
  destruct (contains "test" _); [reflexivity|].
  destruct (contains_any _ _); reflexivity.
Qed.

Lemma magika_file_check_symbol (cfg : MagikaConfig.t) (f : SourceFile)
    (validator : string) :
  MagikaConfig.validation_function cfg = Some validator ->
  occurs_in validator (text f) ->
  magika_file_check cfg f = [].
Proof.
  intros Hc Ho. apply contains_spec in Ho. unfold magika_file_check.
  rewrite Hc. cbn [get_default]. rewrite Ho.
  destruct (_ || _)%bool; reflexivity.
Qed.

Lemma logging_file_check_symbol (p : Project) (cfg : LoggingConfig.t) (f : SourceFile)
    (logger : string) :
  LoggingConfig.logger_function cfg = Some logger ->
  occurs_in logger (text f) ->
  logging_file_check p cfg f = [].
Proof.
  intros Hc Ho. apply contains_spec in Ho. unfold logging_file_check.
  rewrite Hc. cbn [get_default]. rewrite Ho.
  destruct (contains "test" _ || _)%bool; [reflexivity|].
  destruct (contains "print(" _ || _)%bool; reflexivity.
Qed.

(** C7.  For each of the three documented topics: a file whose text
    contains the topic's required symbol adds no discrepancy for that
    topic, whatever usage signals it contains, and the list the topic's
    check leaves behind is the one obtained from the other files alone. *)
Theorem C7_symbol_present_no_discrepancy (p : Project) (self : Automation)
    (f : SourceFile) :
  (forall masker,
      PiiConfig.masking_function (pii_config self) = Some masker ->
      occurs_in masker (text f) ->
      pii_file_check p (pii_config self) f = [] /\
      forall before after,
        glob_py p = before ++ f :: after ->
        doc_discrepancies (_validate_pii_usage p self) =
        doc_discrepancies self
          ++ flat_map (pii_file_check p (pii_config self)) (before ++ after)) /\
  (forall validator,
      MagikaConfig.validation_function (magika_config self) = Some validator ->
      occurs_in validator (text f) ->
      magika_file_check (magika_config self) f = [] /\
      forall before after,
        glob_named "views.py" p = before ++ f :: after ->
        doc_discrepancies (_validate_magika_usage p self) =
        doc_discrepancies self
          ++ flat_map (magika_file_check (magika_config self)) (before ++ after)) /\
  (forall logger,
      LoggingConfig.logger_function (logging_config self) = Some logger ->
      occurs_in logger (text f) ->
      logging_file_check p (logging_config self) f = [] /\
      forall before after,
        glob_py p = before ++ f :: after ->
        doc_discrepancies (_validate_logging_usage p self) =
        doc_discrepancies self
          ++ flat_map (logging_file_check p (logging_config self)) (before ++ after)).
Proof.
  split; [|split].
  - intros masker Hc Ho.
    pose proof (pii_file_check_symbol p _ _ Hc Ho) as E. split; [exact E|].
    intros before after G. cbn [_validate_pii_usage add_discrepancies doc_discrepancies].
    rewrite G. now rewrite (flat_map_without _ before after _ E).
  - intros validator Hc Ho.
    pose proof (magika_file_check_symbol _ _ Hc Ho) as E. split; [exact E|].
    intros before after G. cbn [_validate_magika_usage add_discrepancies doc_discrepancies].
    rewrite G. now rewrite (flat_map_without _ before after _ E).
  - intros logger Hc Ho.
    pose proof (logging_file_check_symbol p _ _ Hc Ho) as E. split; [exact E|].
    intros before after G. cbn [_validate_logging_usage add_discrepancies doc_discrepancies].
    rewrite G. now rewrite (flat_map_without _ before after _ E).
Qed.

Lemma C7_witness :
  pii_file_check compliant_project (pii_config (docs_read compliant_project))
                 compliant_views = [] /\
  magika_file_check (magika_config (docs_read compliant_project)) compliant_views = [] /\
  logging_file_check compliant_project (logging_config (docs_read compliant_project))
                     compliant_views = [] /\
  doc_discrepancies (_validate_pii_usage compliant_project (docs_read compliant_project))
    = [].
Proof.
  destruct (C7_symbol_present_no_discrepancy compliant_project
              (docs_read compliant_project) compliant_views) as (P & M & L).
  destruct (P "GlobalPIIMasker") as (P1 & P2);
    [vm_compute; reflexivity | apply contains_spec; vm_compute; reflexivity |].
  destruct (M "validate_with_magika") as (M1 & _);
    [vm_compute; reflexivity | apply contains_spec; vm_compute; reflexivity |].
  destruct (L "get_logger") as (L1 & _);
    [vm_compute; reflexivity | apply contains_spec; vm_compute; reflexivity |].
  split; [exact P1 | split; [exact M1 | split; [exact L1 |]]].
  apply (P2 [] []). vm_compute. reflexivity.
Defined.

(** The PII and logging checks pass over any file whose absolute path
    contains "test". *)
Lemma pii_file_check_skips_tests (p : Project) (cfg : PiiConfig.t) (f : SourceFile) :
  occurs_in "test" (abs_path p f) -> pii_file_check p cfg f = [].
Proof.
  intros H. apply contains_spec in H. unfold pii_file_check. now rewrite H.
Qed.

Lemma logging_file_check_skips_tests (p : Project) (cfg : LoggingConfig.t) (f : SourceFile) :
  occurs_in "test" (abs_path p f) -> logging_file_check p cfg f = [].
Proof.
  intros H. apply contains_spec in H. unfold logging_file_check. now rewrite H.
Qed.

(** C4.  The upload check has no such exclusion.  In a project that
    documents [validate_with_magika] and whose only [views.py] is
    [tests/views.py], reading [request.FILES] without the validator, the
    file under [tests/] produces the upload discrepancy, and every run on
    that project ends with status "documentation_mismatch". *)
Theorem C4_upload_check_reads_test_files
    (list_of_set : list string -> list string) (d : string) :
  glob_named "views.py" Fixtures.upload_test_views = [Fixtures.test_views] /\
  occurs_in "test" (abs_path Fixtures.upload_test_views Fixtures.test_views) /\
  pii_file_check Fixtures.upload_test_views
    (pii_config (docs_read Fixtures.upload_test_views)) Fixtures.test_views = [] /\
  magika_file_check (magika_config (docs_read Fixtures.upload_test_views))
                    Fixtures.test_views =
    [ DocumentationDiscrepancy.mk
        "docs/validation/magika.md"
        "All file uploads should use validate_with_magika"
        "views.py handles files but doesn't call validate_with_magika"
        "Add validation: validate_with_magika(uploaded_file)" ] /\
  doc_discrepancies (validated list_of_set Fixtures.upload_test_views d new_automation) =
    magika_file_check (magika_config (docs_read Fixtures.upload_test_views))
                      Fixtures.test_views /\
  status (work_on_issue list_of_set Fixtures.upload_test_views d)
    = "documentation_mismatch".
Proof.
  assert (D : doc_discrepancies
                (validated list_of_set Fixtures.upload_test_views d new_automation) =
              magika_file_check (magika_config (docs_read Fixtures.upload_test_views))
                                Fixtures.test_views).
  { rewrite validated_discrepancies. vm_compute. reflexivity. }
  split; [vm_compute; reflexivity|].
  split; [apply contains_spec; vm_compute; reflexivity|].
  split; [vm_compute; reflexivity|].
  split; [vm_compute; reflexivity|].
  split; [exact D|].
  destruct (status_cases list_of_set Fixtures.upload_test_views d)
    as [(_ & _ & S) | [(E & _) | [(E & _) | (E & _)]]]; [exact S | | |];
    rewrite D in E; vm_compute in E; discriminate.
Qed.

(** ** The issue scanner, line by line *)

Section ScannerFacts.

Variable file : string.

Lemma scan_line_on_line (m n : nat) (l : string) :
  filter (on_line m) (scan_line file n l) =
  if Nat.eqb n m then scan_line file n l else [].
Proof.
  unfold scan_line, when.
  destruct (todo_rule l), (deprecated_rule l), (eval_rule l), (sql_rule l),
    (password_pattern l && negb (env_lookup l))%bool;
    unfold on_line; cbn [app filter UnrelatedIssue.line];
    destruct (Nat.eqb n m); reflexivity.
Qed.

Lemma scan_lines_before (ls : list string) :
  forall k m, m <= k -> filter (on_line m) (scan_lines file k ls) = [].
Proof.
  induction ls as [|l tl IH]; intros k m H; cbn [scan_lines]; [reflexivity|].
  rewrite filter_app, scan_line_on_line, IH by lia.
  destruct (Nat.eqb_spec (S k) m); [lia | reflexivity].
Qed.

(** The issues reported for a line number are those of that line. *)
Lemma scan_lines_on_line (ls : list string) :
  forall k n l,
    nth_error ls n = Some l ->
    filter (on_line (k + S n)) (scan_lines file k ls) = scan_line file (k + S n) l.
Proof.
  induction ls as [|l0 tl IH]; intros k n l H; [destruct n; discriminate|].
  cbn [scan_lines]. rewrite filter_app, scan_line_on_line.
  destruct n as [|n]; cbn [nth_error] in H.
  - injection H as ->. replace (k + 1) with (S k) by lia.
    rewrite Nat.eqb_refl, scan_lines_before by lia. apply app_nil_r.
  - destruct (Nat.eqb_spec (S k) (k + S (S n))); [lia|].
    cbn [app]. replace (k + S (S n)) with (S k + S n) by lia. now apply IH.
Qed.

(** Among the five checks only the SQL and the password checks give
    SECURITY/critical issues. *)
Lemma scan_line_security_critical (n : nat) (l : string) :
  filter is_security_critical (scan_line file n l) =
  when (sql_rule l) (sql_injection_issue file n)
  ++ when (password_pattern l && negb (env_lookup l)) (hardcoded_password_issue file n).
Proof.
  unfold scan_line, when.
  destruct (todo_rule l), (deprecated_rule l), (eval_rule l), (sql_rule l),
    (password_pattern l && negb (env_lookup l))%bool; reflexivity.
Qed.

End ScannerFacts.

Lemma C3_counterexample : ~ exactly_one_security_critical.
Proof.
  intros H.
  specialize (H (mk_source "app/views.py" "views.py" password_and_query_line) 0
                password_and_query_line).
  vm_compute in H. specialize (H eq_refl eq_refl eq_refl). discriminate.
Qed.

(** C3 (amended).  For a line of a scanned file that matches the
    hardcoded-password pattern and names neither [getenv] nor [environ],
    the SECURITY/critical issues reported for that line are: the
    SQL-injection issue when the line also matches the SQL check, followed
    by exactly one hardcoded-password issue.  So the password check
    contributes exactly one issue whatever else the line contains, and the
    line has one SECURITY/critical issue in all when it does not match the
    SQL check, two when it does. *)
Theorem C3_password_line_issues (f : SourceFile) (n : nat) (l : string) :
  nth_error (split_lines (text f)) n = Some l ->
  password_pattern l = true ->
  env_lookup l = false ->
  security_critical_on (S n) (scan_file f) =
    when (sql_rule l) (sql_injection_issue (rel f) (S n))
    ++ [hardcoded_password_issue (rel f) (S n)] /\
  filter (fun i => String.eqb (UnrelatedIssue.description i) "Hardcoded password detected")
         (security_critical_on (S n) (scan_file f))
    = [hardcoded_password_issue (rel f) (S n)] /\
  List.length (security_critical_on (S n) (scan_file f)) = if sql_rule l then 2 else 1.
Proof.
  intros Hl Hp He.
  assert (E : security_critical_on (S n) (scan_file f) =
              when (sql_rule l) (sql_injection_issue (rel f) (S n))
              ++ [hardcoded_password_issue (rel f) (S n)]).
  { unfold security_critical_on, scan_file.
    pose proof (scan_lines_on_line (rel f) _ 0 n Hl) as L. cbn [Nat.add] in L.
    rewrite L, scan_line_security_critical, Hp, He. reflexivity. }
  rewrite E. split; [reflexivity|].
  destruct (sql_rule l); split; reflexivity.
Qed.

Lemma C3_witness :
  security_critical_on 1
    (scan_file (mk_source "app/views.py" "views.py" password_and_query_line)) =
    when (sql_rule password_and_query_line) (sql_injection_issue "app/views.py" 1)
    ++ [hardcoded_password_issue "app/views.py" 1] /\
  filter (fun i => String.eqb (UnrelatedIssue.description i) "Hardcoded password detected")
         (security_critical_on 1
            (scan_file (mk_source "app/views.py" "views.py" password_and_query_line)))
    = [hardcoded_password_issue "app/views.py" 1] /\
  List.length
    (security_critical_on 1
       (scan_file (mk_source "app/views.py" "views.py" password_and_query_line)))
    = if sql_rule password_and_query_line then 2 else 1.
Proof.
  apply (C3_password_line_issues
           (mk_source "app/views.py" "views.py" password_and_query_line) 0);
    vm_compute; reflexivity.
Defined.

(** ** Absent topics *)

Lemma pii_discrepancies_doc (p : Project) (cfg : PiiConfig.t) x :
  In x (pii_discrepancies p cfg) -> DocumentationDiscrepancy.doc_file x = pii_doc.
Proof.
  unfold pii_discrepancies. destruct (truthy _); [|intros []].
  intros H. apply in_flat_map in H. destruct H as (f & _ & H).
  unfold pii_file_check in H.
  destruct (contains "test" _); [destruct H|].
  destruct (contains_any _ _); [|destruct H].
  destruct (negb _); [|destruct H].
  destruct H as [<- | []]. reflexivity.
Qed.

Lemma magika_discrepancies_doc (p : Project) (cfg : MagikaConfig.t) x :
  In x (magika_discrepancies p cfg) -> DocumentationDiscrepancy.doc_file x = magika_doc.
Proof.
  unfold magika_discrepancies. destruct (truthy _); [|intros []].
  intros H. apply in_flat_map in H. destruct H as (f & _ & H).
  unfold magika_file_check in H.
  destruct (_ || _)%bool; [|destruct H].
  destruct (negb _); [|destruct H].
  destruct H as [<- | []]. reflexivity.
Qed.

Lemma logging_discrepancies_doc (p : Project) (cfg : LoggingConfig.t) x :
  In x (logging_discrepancies p cfg) -> DocumentationDiscrepancy.doc_file x = logging_doc.
Proof.
  unfold logging_discrepancies. destruct (truthy _); [|intros []].
  intros H. apply in_flat_map in H. destruct H as (f & _ & H).
  unfold logging_file_check in H.
  destruct (contains "test" _ || _)%bool; [destruct H|].
  destruct (contains "print(" _ || _)%bool; [|destruct H].
  destruct (negb _); [|destruct H].
  destruct H as [<- | []]. reflexivity.
Qed.

(** Every discrepancy of a run comes from one of the three topic checks
    and cites that topic's document. *)
Lemma checked_discrepancy_origin
    (list_of_set : list string -> list string) (p : Project) (d : string) x :
  In x (doc_discrepancies (checked list_of_set p d)) ->
  (In x (pii_discrepancies p (pii_config (docs_read p)))
     /\ DocumentationDiscrepancy.doc_file x = pii_doc) \/
  (In x (magika_discrepancies p (magika_config (docs_read p)))
     /\ DocumentationDiscrepancy.doc_file x = magika_doc) \/
  (In x (logging_discrepancies p (logging_config (docs_read p)))
     /\ DocumentationDiscrepancy.doc_file x = logging_doc).
Proof.
  unfold checked. rewrite validated_discrepancies. intros H.
  apply in_app_or in H. destruct H as [H | H].
  - left. split; [exact H | exact (pii_discrepancies_doc _ _ _ H)].
  - apply in_app_or in H. destruct H as [H | H].
    + right; left. split; [exact H | exact (magika_discrepancies_doc _ _ _ H)].
    + right; right. split; [exact H | exact (logging_discrepancies_doc _ _ _ H)].
Qed.

(** With logging documented and PII masking not, the issue "Fix typo in
    footer #7" passes stage 4 without any question: the run ends with a
    plan. *)
Lemma C8_counterexample : ~ absent_topic_always_asks.
Proof.
  intros H.
  destruct (H Fixtures.first_seen Fixtures.logging_only Fixtures.typo_issue) as (P & _).
  destruct P as (_ & Q); [vm_compute; reflexivity|].
  vm_compute in Q. exact Q.
Qed.

(** That run, to its end. *)
Example typo_issue_is_approved :
  PiiConfig.masking_function
    (pii_config (checked Fixtures.first_seen Fixtures.logging_only Fixtures.typo_issue))
    = None /\
  _get_clarification_questions
    (scanned Fixtures.first_seen Fixtures.logging_only Fixtures.typo_issue) = [] /\
  status (work_on_issue Fixtures.first_seen Fixtures.logging_only Fixtures.typo_issue)
    = "approval_needed".
Proof. vm_compute. repeat split. Qed.

(** C8 (amended).  A topic whose required symbol was not found in the
    documentation raises no discrepancy citing its document.  At the
    clarification stage an absent logging topic always gives its question;
    an absent PII topic gives its question exactly when the issue has the
    PII flag; an absent upload topic gives its question exactly when the
    description mentions "upload" in some letter case.  A run that reaches
    that stage with a question halts with the questions.  When all three
    topics are absent there is no discrepancy at all and the run does not
    end with status "documentation_mismatch". *)
Theorem C8_absent_topic_asks_when_relevant
    (list_of_set : list string -> list string) (p : Project) (d : string) :
  (PiiConfig.masking_function (pii_config (checked list_of_set p d)) = None ->
     no_discrepancy_for pii_doc (checked list_of_set p d) /\
     (In pii_undocumented_question
         (_get_clarification_questions (scanned list_of_set p d))
      <-> IssueData.has_pii (parsed d) = true)) /\
  (MagikaConfig.validation_function (magika_config (checked list_of_set p d)) = None ->
     no_discrepancy_for magika_doc (checked list_of_set p d) /\
     (In upload_undocumented_question
         (_get_clarification_questions (scanned list_of_set p d))
      <-> occurs_in "upload" (lower d))) /\
  (LoggingConfig.logger_function (logging_config (checked list_of_set p d)) = None ->
     no_discrepancy_for logging_doc (checked list_of_set p d) /\
     In logging_question (_get_clarification_questions (scanned list_of_set p d))) /\
  (forall q,
     doc_discrepancies (checked list_of_set p d) = [] ->
     unrelated_issues (scanned list_of_set p d) = [] ->
     In q (_get_clarification_questions (scanned list_of_set p d)) ->
     work_on_issue list_of_set p d =
       need_clarification (_get_clarification_questions (scanned list_of_set p d))
                          "I need clarification on these points:") /\
  (PiiConfig.masking_function (pii_config (checked list_of_set p d)) = None ->
   MagikaConfig.validation_function (magika_config (checked list_of_set p d)) = None ->
   LoggingConfig.logger_function (logging_config (checked list_of_set p d)) = None ->
   doc_discrepancies (checked list_of_set p d) = [] /\
   status (work_on_issue list_of_set p d) <> "documentation_mismatch").
Proof.
  destruct (validated_configs list_of_set p d) as (CP & CM & CL).
  fold (checked list_of_set p d) in CP, CM, CL.
  assert (SP : pii_config (scanned list_of_set p d) = pii_config (checked list_of_set p d))
    by reflexivity.
  assert (SM : magika_config (scanned list_of_set p d)
               = magika_config (checked list_of_set p d)) by reflexivity.
  assert (SL : logging_config (scanned list_of_set p d)
               = logging_config (checked list_of_set p d)) by reflexivity.
  assert (SI : issue_data (scanned list_of_set p d) = parsed d)
    by apply scanned_issue_data.
  split; [|split; [|split; [|split]]].
  - intros N. split.
    + intros x Hx E. apply checked_discrepancy_origin in Hx.
      destruct Hx as [(Hx & _) | [(_ & F) | (_ & F)]];
        try (rewrite F in E; discriminate).
      unfold pii_discrepancies in Hx. rewrite <- CP, N in Hx. destruct Hx.
    + rewrite pii_undocumented_question_iff, SI, SP, N. cbn [truthy]. tauto.
  - intros N. split.
    + intros x Hx E. apply checked_discrepancy_origin in Hx.
      destruct Hx as [(_ & F) | [(Hx & _) | (_ & F)]];
        try (rewrite F in E; discriminate).
      unfold magika_discrepancies in Hx. rewrite <- CM, N in Hx. destruct Hx.
    + rewrite upload_undocumented_question_iff, SI, SM, N, contains_spec.
      cbn [truthy]. change (IssueData.description (parsed d)) with d. tauto.
  - intros N. split.
    + intros x Hx E. apply checked_discrepancy_origin in Hx.
      destruct Hx as [(_ & F) | [(_ & F) | (Hx & _)]];
        try (rewrite F in E; discriminate).
      unfold logging_discrepancies in Hx. rewrite <- CL, N in Hx. destruct Hx.
    + apply logging_question_asked. rewrite SL. exact N.
  - intros q E4 E6 Hq. exact (halts_at_clarification _ _ _ _ E4 E6 Hq).
  - intros NP NM NL.
    assert (E : doc_discrepancies (checked list_of_set p d) = []).
    { unfold checked. rewrite validated_discrepancies.
      unfold pii_discrepancies, magika_discrepancies, logging_discrepancies.
      rewrite <- CP, <- CM, <- CL, NP, NM, NL. reflexivity. }
    split; [exact E|].
    destruct (status_cases list_of_set p d)
      as [(N & _) | [(_ & _ & _ & S) | [(_ & _ & _ & _ & S) | (_ & _ & _ & _ & S)]]];
      try (rewrite S; discriminate).
    contradiction.
Qed.

Lemma C8_witness :
  no_discrepancy_for pii_doc
    (checked Fixtures.first_seen Fixtures.bare Fixtures.export_issue) /\
  In pii_undocumented_question
     (_get_clarification_questions
        (scanned Fixtures.first_seen Fixtures.bare Fixtures.export_issue)) /\
  In logging_question
     (_get_clarification_questions
        (scanned Fixtures.first_seen Fixtures.bare Fixtures.export_issue)) /\
  work_on_issue Fixtures.first_seen Fixtures.bare Fixtures.export_issue =
    need_clarification
      (_get_clarification_questions
         (scanned Fixtures.first_seen Fixtures.bare Fixtures.export_issue))
      "I need clarification on these points:" /\
  status (work_on_issue Fixtures.first_seen Fixtures.bare Fixtures.export_issue)
    <> "documentation_mismatch".
Proof.
  destruct (C8_absent_topic_asks_when_relevant
              Fixtures.first_seen Fixtures.bare Fixtures.export_issue)
    as (P & _ & L & H & A).
  destruct P as (P1 & P2); [vm_compute; reflexivity|].
  destruct L as (_ & L2); [vm_compute; reflexivity|].
  destruct A as (_ & A2); try (vm_compute; reflexivity).
  split; [exact P1|].
  split; [apply (proj2 P2); vm_compute; reflexivity|].
  split; [exact L2|].
  split; [|exact A2].
  apply (H logging_question); [vm_compute; reflexivity | vm_compute; reflexivity | exact L2].
Defined.

(** ** Two runs *)

Lemma first_seen_set_order : set_order Fixtures.first_seen.
Proof.
  intros l. split; [apply NoDup_nodup | intros x; apply nodup_In].
Qed.

Section Dict.

Variable V : Type.

Lemma dict_set_new_key (k : string) (v : V) (d : dict V) :
  ~ In k (keys d) -> keys (dict_set k v d) = keys d ++ [k].
Proof.
  induction d as [|[k' v'] d IH]; intros N; cbn [dict_set keys map fst app];
    [reflexivity|].
  destruct (String.eqb_spec k' k) as [-> | _].
  - exfalso. apply N. now left.
  - cbn [map fst]. f_equal. apply IH. intros H. apply N. now right.
Qed.

(** Setting each key of a duplicate-free list once, when it has a value,
    appends exactly the keys that have one. *)
Lemma fold_dict_set_keys (value : string -> option V) (ks : list string) :
  forall d,
    NoDup ks ->
    (forall k, In k ks -> ~ In k (keys d)) ->
    keys (fold_left (fun fd k => match value k with
                                 | Some v => dict_set k v fd
                                 | None => fd
                                 end) ks d)
    = keys d ++ filter (fun k => is_some (value k)) ks.
Proof.
  induction ks as [|k ks IH]; intros d ND Fresh; cbn [fold_left filter].
  - now rewrite app_nil_r.
  - inversion ND as [|? ? Hk ND']; subst.
    destruct (value k) as [v|] eqn:E; cbn [is_some].
    + rewrite IH; [| assumption |].
      * rewrite dict_set_new_key by (apply Fresh; now left).
        now rewrite <- app_assoc.
      * intros k' Hk'. rewrite dict_set_new_key by (apply Fresh; now left).
        intros H. apply in_app_or in H. destruct H as [H | [<- | []]].
        -- revert H. apply Fresh. now right.
        -- contradiction.
    + apply IH; [assumption|]. intros k' Hk'. apply Fresh. now right.
Qed.

End Dict.

Lemma set_orders_agree (f g : list string -> list string) (sel : string -> bool)
    (l : list string) :
  set_order f -> set_order g ->
  List.length (filter sel (f l)) = List.length (filter sel (g l)).
Proof.
  intros Hf Hg. destruct (Hf l) as [Nf If], (Hg l) as [Ng Ig].
  apply Permutation_length. apply NoDup_Permutation.
  - now apply NoDup_filter.
  - now apply NoDup_filter.
  - intros x. rewrite !filter_In, If, Ig. reflexivity.
Qed.

Lemma read_feature_documentation_agree (f g : list string -> list string)
    (p : Project) (self : Automation) :
  set_order f -> set_order g ->
  feature_docs self = [] ->
  same_but_docs (_read_feature_documentation f p self)
                (_read_feature_documentation g p self).
Proof.
  intros Hf Hg E. unfold same_but_docs.
  cbn [_read_feature_documentation feature_docs pii_config magika_config logging_config
       issue_data unrelated_issues doc_discrepancies].
  split; [|repeat split].
  unfold _extract_feature_names. rewrite E.
  set (value := fun k => match list_dir p ["docs"; k] with
                         | Some es => Some (read_feature_dir es)
                         | None => None
                         end).
  assert (S : forall ks,
             NoDup ks ->
             List.length
               (fold_left (fun fd feature =>
                             match list_dir p ["docs"; feature] with
                             | Some es => dict_set feature (read_feature_dir es) fd
                             | None => fd
                             end) ks [])
             = List.length (filter (fun k => is_some (value k)) ks)).
  { intros ks ND.
    pose proof (fold_dict_set_keys value (ks := ks) [] ND (fun _ _ H => H)) as K.
    cbn [keys map app] in K. rewrite <- K. unfold keys. rewrite length_map.
    f_equal. clear. generalize (@nil (string * dict string)).
    induction ks as [|k ks IH]; intros d; cbn [fold_left]; [reflexivity|].
    rewrite IH. f_equal. unfold value. destruct (list_dir p ["docs"; k]); reflexivity. }
  rewrite !S by (apply Hf || apply Hg).
  now apply set_orders_agree.
Qed.

Lemma validate_agree (p : Project) (a b : Automation) :
  same_but_docs a b ->
  same_but_docs (_validate_documentation_against_code p a)
                (_validate_documentation_against_code p b).
Proof.
  intros (H1 & H2 & H3 & H4 & H5 & H6 & H7).
  destruct (validate_fields p a) as (A1 & A2 & A3 & A4 & A5 & A6 & A7).
  destruct (validate_fields p b) as (B1 & B2 & B3 & B4 & B5 & B6 & B7).
  unfold same_but_docs.
  rewrite A1, A2, A3, A4, A5, A6, A7, B1, B2, B3, B4, B5, B6, B7, H2, H3, H4, H5, H6, H7.
  repeat split. exact H1.
Qed.

(** From stage 2 on, the outcome depends on the feature documentation
    only through the number of folders read. *)
Lemma outcome_agree (f g : list string -> list string) (p : Project) (d : string) :
  same_but_docs (validated f p d new_automation) (validated g p d new_automation) ->
  work_on_issue f p d = work_on_issue g p d.
Proof.
  unfold work_on_issue, work_on_issue_method. cbv zeta.
  generalize (validated f p d new_automation) (validated g p d new_automation).
  intros [fa pa ma la ia ua da] [fb pb mb lb ib ub db] H.
  unfold same_but_docs in H.
  cbn [feature_docs pii_config magika_config logging_config issue_data
       unrelated_issues doc_discrepancies] in H.
  destruct H as (H1 & -> & -> & -> & -> & -> & ->).
  unfold _scan_for_unrelated_issues, _handle_documentation_discrepancies,
    _handle_unrelated_issues, _get_clarification_questions, _check_breaking_changes,
    _create_validated_plan, _get_affected_files.
  cbn [feature_docs pii_config magika_config logging_config issue_data
       unrelated_issues doc_discrepancies].
  rewrite H1.
  repeat match goal with
         | |- context [if ?c then (_, _) else _] => destruct c
         end; reflexivity.
Qed.

(** C6 (amended).  Two runs that each start from a new instance, as the
    module-level [work_on_issue] makes them, on the same project and the
    same issue text return the same outcome: the same constructor and the
    same contents, field by field and in the same order.  The order in
    which Python iterates the set of feature names, the one thing that
    may differ between two such runs, does not show in the outcome. *)
Theorem C6_two_runs_same_outcome (f g : list string -> list string)
    (p : Project) (d : string) :
  set_order f -> set_order g ->
  work_on_issue f p d = work_on_issue g p d.
Proof.
  intros Hf Hg. apply outcome_agree. unfold validated.
  apply validate_agree. now apply read_feature_documentation_agree.
Qed.

Lemma C6_witness :
  work_on_issue Fixtures.first_seen Fixtures.logging_only Fixtures.typo_issue =
  work_on_issue (fun l => rev (Fixtures.first_seen l)) Fixtures.logging_only
                Fixtures.typo_issue.
Proof.
  apply C6_two_runs_same_outcome.
  - apply first_seen_set_order.
  - intros l. destruct (first_seen_set_order l) as [N I]. split.
    + now apply NoDup_rev.
    + intros x. rewrite <- in_rev. apply I.
Defined.

(** ** One instance used twice

    The method [work_on_issue] does not reset the instance: a second call
    on the same object starts from the lists the first call left.  Here
    the first run reports one discrepancy and the second run two. *)

Remark reused_instance_accumulates :
  let first := work_on_issue_method Fixtures.first_seen Fixtures.undocumented_views
                 Fixtures.endpoint_issue new_automation in
  let second := work_on_issue_method Fixtures.first_seen Fixtures.undocumented_views
                  Fixtures.endpoint_issue (snd first) in
  List.length (outcome_discrepancies (fst first)) = 1 /\
  List.length (outcome_discrepancies (fst second)) = 2.
Proof. vm_compute. split; reflexivity. Qed.

(** So the method, called twice on one instance, does not repeat its
    outcome: for the issue "Add endpoint GET /items/{id} #3" in a project
    whose [app/views.py] handles e-mail without the documented masker,
    the second outcome lists the discrepancy twice. *)
Lemma C6_counterexample : ~ second_call_repeats_first.
Proof.
  intros H.
  specialize (H Fixtures.first_seen Fixtures.undocumented_views Fixtures.endpoint_issue
                first_seen_set_order).
  apply (f_equal (fun o => List.length (outcome_discrepancies o))) in H.
  vm_compute in H. discriminate H.
Qed.

(** * Further properties of the code *)

(** ** What a match captures *)

Section Captures.

Local Open Scope string_scope.

Lemma cmatches_matches (r : regex) (s : string) (gs : list string) :
  cmatches r s gs -> matches r s.
Proof. induction 1; now constructor. Qed.

Lemma cmatches_group_free (r : regex) (s : string) (gs : list string) :
  cmatches r s gs -> group_free r = true -> gs = [].
Proof.
  induction 1 as [| | | r1 r2 s1 s2 g1 g2 _ IH1 _ IH2 | r1 r2 s g _ IH
                  | r1 r2 s g _ IH | | r s1 s2 g1 g2 _ IH1 _ IH2 | r s g _ IH];
    cbn [group_free]; intros G; try reflexivity;
    try (apply andb_true_iff in G; destruct G as [G1 G2]).
  - now rewrite IH1, IH2.
  - now apply IH.
  - now apply IH.
  - now rewrite IH1, IH2.
  - discriminate.
Qed.

Lemma cmatches_cat (r1 r2 : regex) (s : string) (gs : list string) :
  cmatches (Cat r1 r2) s gs ->
  exists s1 s2 g1 g2, s = s1 ++ s2 /\ gs = (g1 ++ g2)%list /\
                      cmatches r1 s1 g1 /\ cmatches r2 s2 g2.
Proof. inversion 1; subst. now exists s1, s2, g1, g2. Qed.

Lemma cmatches_grp (r : regex) (s : string) (gs : list string) :
  cmatches (Grp r) s gs -> exists g, gs = (g ++ [s])%list /\ cmatches r s g.
Proof. inversion 1; subst. now exists g. Qed.

Variable A : Type.

(** The matcher hands its continuation the captures of a match of the
    pattern, appended to those it was given. *)
Lemma mt_captures (r : regex) :
  forall (s : string) caps (k : string -> list string -> option A) a,
    mt r s caps k = Some a ->
    exists s1 s2 gs, s = s1 ++ s2 /\ cmatches r s1 gs /\
                     k s2 (caps ++ gs)%list = Some a.
Proof.
  induction r as [| c | p | r1 IH1 r2 IH2 | r1 IH1 r2 IH2 | r IH | r IH];
    intros s caps k a H; cbn [mt] in H.
  - exists "", s, []. rewrite app_nil_r. repeat split; [constructor | assumption].
  - destruct s as [|x s]; [discriminate|].
    destruct (Ascii.eqb x c) eqn:E; [|discriminate].
    apply Ascii.eqb_eq in E; subst x.
    exists (String c ""), s, []. rewrite app_nil_r.
    repeat split; [constructor | assumption].
  - destruct s as [|x s]; [discriminate|].
    destruct (p x) eqn:E; [|discriminate].
    exists (String x ""), s, []. rewrite app_nil_r.
    repeat split; [now constructor | assumption].
  - apply IH1 in H. destruct H as (s1 & s2 & g1 & -> & M1 & H).
    apply IH2 in H. destruct H as (t1 & t2 & g2 & -> & M2 & H).
    exists (s1 ++ t1), t2, (g1 ++ g2)%list. rewrite append_assoc_s, app_assoc.
    repeat split; [now constructor | assumption].
  - destruct (mt r1 s caps k) eqn:E.
    + injection H as ->. apply IH1 in E. destruct E as (s1 & s2 & g & -> & M & H).
      exists s1, s2, g. repeat split; [now apply CAltL | assumption].
    + apply IH2 in H. destruct H as (s1 & s2 & g & -> & M & H).
      exists s1, s2, g. repeat split; [now apply CAltR | assumption].
  - revert H. generalize (String.length s) as n. intros n; revert s caps a.
    induction n as [|n IHn]; intros s caps a H.
    + exists "", s, []. rewrite app_nil_r. repeat split; [constructor | assumption].
    + match type of H with
      | match ?m with _ => _ end = _ => destruct m eqn:E
      end.
      * injection H as ->. apply IH in E.
        destruct E as (s1 & s2 & g1 & -> & M & H).
        destruct (String.length s2 <? String.length (s1 ++ s2))%nat; [|discriminate].
        apply IHn in H. destruct H as (t1 & t2 & g2 & -> & M2 & H).
        exists (s1 ++ t1), t2, (g1 ++ g2)%list. rewrite append_assoc_s, app_assoc.
        repeat split; [now apply CStarS | assumption].
      * exists "", s, []. rewrite app_nil_r.
        repeat split; [constructor | assumption].
  - apply IH in H. destruct H as (s1 & s2 & g & -> & M & H).
    exists s1, s2, (g ++ [s1])%list. rewrite consumed_append in H.
    rewrite app_assoc. repeat split; [now constructor | assumption].
Qed.

End Captures.

Lemma match_here_captures (r : regex) (s : string) (m : rmatch) :
  match_here r s = Some m ->
  s = (group0 m ++ rest m)%string /\ cmatches r (group0 m) (groups m).
Proof.
  unfold match_here. intros H. apply mt_captures in H.
  destruct H as (s1 & s2 & gs & -> & M & H). injection H as <-. cbn.
  rewrite consumed_append. split; [reflexivity | assumption].
Qed.

Lemma search_captures (r : regex) (s : string) (m : rmatch) :
  search r s = Some m -> match_in r s m.
Proof.
  unfold match_in.
  induction s as [|c s IH]; cbn [search]; destruct (match_here r _) eqn:E.
  - intros H; injection H as ->. apply match_here_captures in E.
    exists EmptyString. exact E.
  - discriminate.
  - intros H; injection H as ->. apply match_here_captures in E.
    exists EmptyString. exact E.
  - intros H. destruct (IH H) as [pre [-> M]].
    exists (String c pre). split; [reflexivity | assumption].
Qed.

(** Every match of an iteration lies in the text, after the matches
    before it. *)
Lemma finditer_from_captures (r : regex) (fuel : nat) :
  forall (s : string) (m : rmatch),
    In m (finditer_from fuel r s) ->
    exists pre post, s = (pre ++ group0 m ++ post)%string /\
                     cmatches r (group0 m) (groups m).
Proof.
  induction fuel as [|fuel IH]; intros s m H; cbn [finditer_from] in H; [destruct H|].
  destruct (search r s) as [m0|] eqn:E; [|destruct H].
  apply search_captures in E. destruct E as (pre & Es & M).
  destruct H as [<- | H].
  - now exists pre, (rest m0).
  - assert (T : forall t skipped, rest m0 = (skipped ++ t)%string ->
                In m (finditer_from fuel r t) ->
                exists pre post, s = (pre ++ group0 m ++ post)%string /\
                                 cmatches r (group0 m) (groups m)).
    { intros t skipped Et Hin. destruct (IH _ _ Hin) as (pre' & post' & -> & M').
      exists (pre ++ group0 m0 ++ skipped ++ pre')%string, post'. split; [|assumption].
      rewrite Es, Et. now rewrite !append_assoc_s. }
    destruct (group0 m0) eqn:G0.
    + destruct (rest m0) as [|c t] eqn:R; [destruct H|].
      apply (T t (String c EmptyString)); [reflexivity | assumption].
    + apply (T (rest m0) EmptyString); [reflexivity | assumption].
Qed.

Lemma finditer_captures (r : regex) (s : string) (m : rmatch) :
  In m (finditer r s) ->
  exists pre post, s = (pre ++ group0 m ++ post)%string /\
                   cmatches r (group0 m) (groups m).
Proof. apply finditer_from_captures. Qed.

(** An iteration is empty exactly when the text has no match. *)
Lemma finditer_nil_iff (r : regex) (s : string) :
  finditer r s = [] <-> ~ has_match r s.
Proof.
  rewrite <- search_spec. unfold finditer. cbn [finditer_from].
  destruct (search r s); split; intros H; try discriminate; reflexivity.
Qed.

(** ** The parsers, against their wording *)

Section ParserFacts.

Local Open Scope string_scope.

Lemma matches_lit (w s : string) : matches (Lit w) s <-> s = w.
Proof.
  revert s. induction w as [|c w IH]; intros s.
  - cbn. apply matches_eps.
  - destruct w as [|c' w].
    + cbn [Lit]. split.
      * inversion 1; subst. reflexivity.
      * intros ->. constructor.
    + change (Lit (String c (String c' w))) with (Cat (Chr c) (Lit (String c' w))).
      rewrite matches_cat. split.
      * intros (s1 & s2 & -> & H1 & H2). inversion H1; subst.
        apply IH in H2. now subst.
      * intros ->. exists (String c ""), (String c' w). repeat split.
        -- constructor.
        -- now apply IH.
Qed.

Lemma occurs_in_middle (pre s post : string) : occurs_in s (pre ++ s ++ post).
Proof. now exists pre, post. Qed.

Lemma occurs_in_trans (a b c : string) : occurs_in a b -> occurs_in b c -> occurs_in a c.
Proof.
  intros (p1 & q1 & ->) (p2 & q2 & ->).
  exists (p2 ++ p1), (q1 ++ q2). now rewrite !append_assoc_s.
Qed.

(** A pattern that is one group around a group-free body captures, as
    group 1, the whole match. *)
Lemma search_group1_whole (r0 : regex) (c g : string) :
  group_free r0 = true ->
  search_group1 (Grp r0) c = Some g ->
  matches r0 g /\ occurs_in g c.
Proof.
  intros F. unfold search_group1.
  destruct (search (Grp r0) c) as [m|] eqn:E; [|discriminate].
  intros H. injection H as <-.
  apply search_captures in E. destruct E as (pre & Ec & M).
  apply cmatches_grp in M. destruct M as (g0 & Eg & M).
  rewrite (cmatches_group_free M F) in Eg. unfold group. rewrite Eg. cbn.
  split; [now apply cmatches_matches in M|].
  rewrite Ec. apply occurs_in_middle.
Qed.

Lemma search_group1_none (r : regex) (c : string) :
  search_group1 r c = None <-> ~ has_match r c.
Proof.
  rewrite <- search_spec. unfold search_group1.
  destruct (search r c); split; intros H; try discriminate; reflexivity.
Qed.

Lemma search_has_match (r : regex) (s : string) :
  search r s <> None -> has_match r s.
Proof.
  destruct (search r s) as [m|] eqn:E; [|congruence].
  intros _. apply search_sound in E. destruct E as (pre & -> & M).
  now exists pre, (group0 m), (rest m).
Qed.

Lemma search_group1_has_match (r : regex) (c g : string) :
  search_group1 r c = Some g -> has_match r c.
Proof.
  unfold search_group1. destruct (search r c) as [m|] eqn:E; [|discriminate].
  intros _. apply search_sound in E. destruct E as (pre & -> & M).
  now exists pre, (group0 m), (rest m).
Qed.

Lemma group_free_lit (w : string) : group_free (Lit w) = true.
Proof. induction w as [|x [|y w] IH]; try reflexivity. exact IH. Qed.

Lemma matches_one_of3 (a b c s : string) :
  matches (Alt (Lit a) (Alt (Lit b) (Lit c))) s <-> In s [a; b; c].
Proof.
  rewrite !matches_alt, !matches_lit. cbn [In]. intuition congruence.
Qed.

Lemma has_match_one_of3 (a b c s : string) :
  has_match (Grp (Alt (Lit a) (Alt (Lit b) (Lit c)))) s <-> mentions_one_of [a; b; c] s.
Proof.
  unfold has_match, mentions_one_of. split.
  - intros (pre & m & post & -> & M). apply matches_grp, matches_one_of3 in M.
    exists m. split; [assumption | apply occurs_in_middle].
  - intros (w & Hw & pre & post & ->). exists pre, w, post. split; [reflexivity|].
    now apply matches_grp, matches_one_of3.
Qed.

(** What the search for a topic's symbol returns. *)
Lemma symbol_search (a b c content : string) :
  a <> "" -> b <> "" -> c <> "" ->
  (forall m, search_group1 (Grp (Alt (Lit a) (Alt (Lit b) (Lit c)))) content = Some m ->
             In m [a; b; c] /\ occurs_in m content) /\
  (truthy (search_group1 (Grp (Alt (Lit a) (Alt (Lit b) (Lit c)))) content) = true
   <-> mentions_one_of [a; b; c] content).
Proof.
  intros Na Nb Nc.
  assert (S : forall m,
             search_group1 (Grp (Alt (Lit a) (Alt (Lit b) (Lit c)))) content = Some m ->
             In m [a; b; c] /\ occurs_in m content).
  { intros m H. apply search_group1_whole in H.
    - destruct H as [M O]. apply matches_one_of3 in M. now split.
    - cbn [group_free]. now rewrite !group_free_lit. }
  split; [exact S|].
  rewrite <- has_match_one_of3.
  destruct (search_group1 _ content) as [m|] eqn:E.
  - destruct (S m eq_refl) as [Hin Ho]. split.
    + intros _. exact (search_group1_has_match _ _ E).
    + intros _. destruct m; [|reflexivity].
      cbn [In] in Hin. destruct Hin as [H | [H | [H | []]]]; congruence.
  - apply search_group1_none in E. split; [discriminate | intros H; contradiction].
Qed.

End ParserFacts.

Section ParserTheorems.

Local Open Scope string_scope.

Lemma icase_digit (x : ascii) :
  (is_digit x || is_digit (lower_char x) || is_digit (upper_char x))%bool = is_digit x.
Proof.
  apply eqb_prop. revert x. apply forall_ascii. vm_compute. reflexivity.
Qed.

Lemma group_free_icase (r : regex) : group_free (icase r) = group_free r.
Proof.
  induction r as [| | | a IHa b IHb | a IHa b IHb | a IH | a IH]; cbn;
    try reflexivity; try (now rewrite IHa, IHb); assumption.
Qed.

(** A group-free prefix followed by one group around a group-free body:
    the captures are that body's text. *)
Lemma cmatches_prefix_group (r1 r2 : regex) (s : string) (gs : list string) :
  group_free r1 = true -> group_free r2 = true ->
  cmatches (Cat r1 (Grp r2)) s gs ->
  exists s1 s2, s = s1 ++ s2 /\ gs = [s2] /\ matches r1 s1 /\ matches r2 s2.
Proof.
  intros F1 F2 M. apply cmatches_cat in M.
  destruct M as (s1 & s2 & g1 & g2 & -> & -> & M1 & M2).
  apply cmatches_grp in M2. destruct M2 as (g & -> & M2).
  rewrite (cmatches_group_free M1 F1), (cmatches_group_free M2 F2).
  exists s1, s2. repeat split; eauto using cmatches_matches.
Qed.

Lemma nonempty_first (s : string) (q : ascii -> bool) :
  s <> "" -> all_chars q s = true ->
  exists c tl, s = String c tl /\ q c = true.
Proof.
  destruct s as [|c tl]; [contradiction|]. cbn. intros _ H.
  apply andb_true_iff in H. now exists c, tl.
Qed.

Lemma has_match_issue_hash (d : string) :
  has_match issue_hash d <-> has_hash_number d.
Proof.
  unfold has_match, has_hash_number, issue_hash. split.
  - intros (pre & m & post & -> & M).
    apply matches_cat in M. destruct M as (h & ds & -> & Mh & Md).
    inversion Mh; subst. apply matches_grp, matches_plus_cls in Md.
    destruct Md as [N A]. destruct (@nonempty_first _ _ N A) as (c & tl & -> & Hc).
    exists c. split; [assumption|].
    exists pre, (tl ++ post). cbn. now rewrite ?append_assoc_s.
  - intros (c & Hc & pre & post & ->).
    exists pre, (String "#" (String c "")), post. split; [reflexivity|].
    apply matches_cat. exists (String "#" ""), (String c ""). repeat split.
    + constructor.
    + apply matches_grp, matches_plus_cls. split; [discriminate|].
      cbn. now rewrite Hc.
Qed.

Lemma issue_word_shape :
  issue_word =
  Cat (icase (Lit "issue")) (Cat (icase (Plus space)) (Grp (icase (Plus digit)))).
Proof. reflexivity. Qed.

Lemma has_match_issue_word (d : string) :
  has_match issue_word d <-> has_issue_number d.
Proof.
  unfold has_match, has_issue_number. rewrite issue_word_shape. split.
  - intros (pre & m & post & -> & M).
    apply matches_cat in M. destruct M as (w & m2 & -> & Mw & M2).
    apply matches_icase_lit in Mw.
    apply matches_cat in M2. destruct M2 as (ws & ds & -> & Ms & Md).
    apply (matches_icase_plus _ _ icase_space) in Ms. destruct Ms as [Ns As].
    apply matches_grp, (matches_icase_plus _ _ icase_digit) in Md.
    destruct Md as [N A]. destruct (@nonempty_first _ _ N A) as (c & tl & -> & Hc).
    exists w, ws, c. repeat split; try assumption.
    exists pre, (tl ++ post). cbn. now rewrite ?append_assoc_s.
  - intros (w & ws & c & Hw & Ns & As & Hc & pre & post & ->).
    exists pre, (w ++ ws ++ String c ""), post. split; [reflexivity|].
    apply matches_cat. exists w, (ws ++ String c ""). repeat split.
    + now apply matches_icase_lit.
    + apply matches_cat. exists ws, (String c ""). repeat split.
      * now apply (matches_icase_plus _ _ icase_space).
      * apply matches_grp, (matches_icase_plus _ _ icase_digit).
        split; [discriminate|]. cbn. now rewrite Hc.
Qed.

End ParserTheorems.

(** ** Lines and their issues *)

Section ScanComposition.

Local Open Scope string_scope.

Lemma split_lines_nonempty (s : string) : split_lines s <> [].
Proof.
  destruct s as [|c s]; cbn [split_lines]; [discriminate|].
  destruct (Ascii.eqb c newline); [discriminate|].
  destruct (split_lines s); discriminate.
Qed.

(** Splitting a text cut at a newline is splitting the two parts. *)
Lemma split_lines_newline (a b : string) :
  split_lines (a ++ nl ++ b) = (split_lines a ++ split_lines b)%list.
Proof.
  induction a as [|c a IH].
  - cbn. reflexivity.
  - cbn [append split_lines]. rewrite IH.
    destruct (Ascii.eqb c newline); [reflexivity|].
    destruct (split_lines a) eqn:E; [now apply split_lines_nonempty in E | reflexivity].
Qed.

Variable file : string.

Lemma scan_line_shift (k n : nat) (l : string) :
  scan_line file (k + n) l = map (shift_line k) (scan_line file n l).
Proof.
  unfold scan_line, when.
  destruct (todo_rule l), (deprecated_rule l), (eval_rule l), (sql_rule l),
    (password_pattern l && negb (env_lookup l))%bool; reflexivity.
Qed.

Lemma scan_lines_shift (k : nat) (ls : list string) :
  forall n, scan_lines file (k + n) ls = map (shift_line k) (scan_lines file n ls).
Proof.
  induction ls as [|l tl IH]; intros n; cbn [scan_lines map]; [reflexivity|].
  rewrite map_app. replace (S (k + n)) with (k + S n) by lia.
  now rewrite scan_line_shift, IH.
Qed.

Lemma scan_lines_app (l1 l2 : list string) :
  forall n,
    scan_lines file n (l1 ++ l2) =
    (scan_lines file n l1 ++ scan_lines file (List.length l1 + n) l2)%list.
Proof.
  induction l1 as [|l tl IH]; intros n; cbn [scan_lines app List.length]; [reflexivity|].
  rewrite IH, <- app_assoc.
  now replace (List.length tl + S n) with (S (List.length tl) + n) by lia.
Qed.

(** Where the issues of a scan come from. *)
Lemma scan_lines_origin (ls : list string) :
  forall k i,
    In i (scan_lines file k ls) <->
    exists n l, nth_error ls n = Some l /\ In i (scan_line file (k + S n) l).
Proof.
  induction ls as [|l0 tl IH]; intros k i; cbn [scan_lines].
  - split; [intros [] | intros (n & l & H & _); destruct n; discriminate].
  - rewrite in_app_iff, IH. split.
    + intros [H | (n & l & Hn & H)].
      * exists 0, l0. split; [reflexivity|]. now replace (k + 1) with (S k) by lia.
      * exists (S n), l. split; [exact Hn|].
        now replace (k + S (S n)) with (S k + S n) by lia.
    + intros ([|n] & l & Hn & H); cbn [nth_error] in Hn.
      * injection Hn as ->. left. now replace (S k) with (k + 1) by lia.
      * right. exists n, l. split; [exact Hn|].
        now replace (S k + S n) with (k + S (S n)) by lia.
Qed.

Lemma scan_line_fields (n : nat) (l : string) (i : UnrelatedIssue.t) :
  In i (scan_line file n l) ->
  UnrelatedIssue.file i = file /\ UnrelatedIssue.line i = n /\
  In (grade i) scanner_grades.
Proof.
  unfold scan_line, when. intros H.
  repeat (apply in_app_or in H; destruct H as [H | H]);
    match type of H with
    | In _ (if ?b then _ else _) => destruct b
    end;
    try destruct H as [<- | []]; try destruct H;
    cbn; repeat split; auto 6.
Qed.

End ScanComposition.

(** ** Globbing *)

Section NodeInduction.

Variable P : node -> Prop.
Hypothesis P_file : forall t, P (File t).
Hypothesis P_dir : forall es, Forall (fun e => P (snd e)) es -> P (Dir es).

(** Induction on a tree, with the hypothesis on every entry of a
    directory. *)
Fixpoint node_tree_ind (n : node) : P n :=
  match n with
  | File t => P_file t
  | Dir es =>
      P_dir
        ((fix entries (l : list (string * node)) : Forall (fun e => P (snd e)) l :=
            match l with
            | [] => Forall_nil _
            | e :: tl => Forall_cons e (node_tree_ind (snd e)) (entries tl)
            end) es)
  end.

End NodeInduction.

Lemma own_files_spec (sel : string -> bool) (parent : string)
    (es : list (string * node)) (f : SourceFile) :
  In f (own_files sel parent es) <->
  exists nm t, In (nm, File t) es /\ sel nm = true /\
               f = mk_source (path_join parent nm) nm t.
Proof.
  induction es as [|[nm [t|sub]] tl IH]; cbn [own_files].
  - split; [intros [] | intros (nm & t & [] & _)].
  - destruct (sel nm) eqn:S.
    + cbn [In]. rewrite IH. split.
      * intros [<- | (nm' & t' & Hin & Hs & ->)].
        -- exists nm, t. repeat split; [now left | assumption].
        -- exists nm', t'. repeat split; [now right | assumption].
      * intros (nm' & t' & [E | Hin] & Hs & ->).
        -- injection E as <- <-. now left.
        -- right. now exists nm', t'.
    + rewrite IH. split.
      * intros (nm' & t' & Hin & Hs & ->). exists nm', t'. repeat split; [now right | assumption].
      * intros (nm' & t' & [E | Hin] & Hs & ->).
        -- injection E as <- <-. congruence.
        -- now exists nm', t'.
  - rewrite IH. split.
    + intros (nm' & t' & Hin & Hs & ->). exists nm', t'. repeat split; [now right | assumption].
    + intros (nm' & t' & [E | Hin] & Hs & ->); [discriminate | now exists nm', t'].
Qed.

(** The files below a directory: its own, and those below its entries. *)
Lemma glob_node_dir (sel : string -> bool) (parent : string)
    (es : list (string * node)) (f : SourceFile) :
  In f (glob_node sel parent (Dir es)) <->
  In f (own_files sel parent es) \/
  exists nm c, In (nm, c) es /\ In f (glob_node sel (path_join parent nm) c).
Proof.
  cbn [glob_node]. rewrite in_app_iff.
  assert (S : forall l,
             In f ((fix sub (l : list (string * node)) : list SourceFile :=
                      match l with
                      | [] => []
                      | (nm, c) :: tl => glob_node sel (path_join parent nm) c ++ sub tl
                      end) l) <->
             exists nm c, In (nm, c) l /\ In f (glob_node sel (path_join parent nm) c)).
  { induction l as [|[nm c] tl IH].
    - split; [intros [] | intros (nm & c & [] & _)].
    - rewrite in_app_iff, IH. split.
      + intros [H | (nm' & c' & Hin & H)].
        * exists nm, c. split; [now left | assumption].
        * exists nm', c'. split; [now right | assumption].
      + intros (nm' & c' & [E | Hin] & H).
        * injection E as <- <-. now left.
        * right. now exists nm', c'. }
  now rewrite S.
Qed.

(** Globbing returns only files whose name is selected. *)
Lemma glob_node_selected (sel : string -> bool) (n : node) :
  forall parent f, In f (glob_node sel parent n) -> sel (name f) = true.
Proof.
  induction n as [t | es IH] using node_tree_ind; intros parent f H.
  - destruct H.
  - apply glob_node_dir in H. destruct H as [H | (nm & c & Hin & H)].
    + apply own_files_spec in H. destruct H as (nm & t & _ & Hs & ->). exact Hs.
    + rewrite Forall_forall in IH. exact (IH (nm, c) Hin _ _ H).
Qed.

Lemma lookup_in (nm : string) (es : list (string * node)) (x : node) :
  lookup nm es = Some x -> In (nm, x) es.
Proof.
  induction es as [|[n y] tl IH]; cbn [lookup]; [discriminate|].
  destruct (String.eqb_spec n nm) as [-> | _].
  - intros H. injection H as ->. now left.
  - intros H. right. now apply IH.
Qed.

(** Globbing finds every file that a path leads to. *)
Lemma glob_node_resolves (sel : string -> bool) (dirs : list string) :
  forall parent es nm t,
    resolve (dirs ++ [nm]) es = Some (File t) ->
    sel nm = true ->
    In (mk_source (path_join (fold_left path_join dirs parent) nm) nm t)
       (glob_node sel parent (Dir es)).
Proof.
  induction dirs as [|dname dirs IH]; intros parent es nm t H Hs.
  - cbn [app resolve] in H. apply lookup_in in H.
    apply glob_node_dir. left. apply own_files_spec. now exists nm, t.
  - cbn [app] in H.
    assert (R : exists sub, lookup dname es = Some (Dir sub) /\
                            resolve (dirs ++ [nm]) sub = Some (File t)).
    { cbn [resolve] in H. destruct (dirs ++ [nm]) eqn:E.
      - destruct dirs; discriminate.
      - destruct (lookup dname es) as [[|sub]|]; try discriminate. now exists sub. }
    destruct R as (sub & L & R). apply lookup_in in L.
    apply glob_node_dir. right. exists dname, (Dir sub). split; [assumption|].
    cbn [fold_left]. now apply IH.
Qed.


(** ** Extra properties: what the parsers extract *)

Section TopicSymbols.

Variable p : Project.

Lemma pii_topic_documented :
  (truthy (PiiConfig.masking_function (pii_config (docs_read p))) = true <->
   exists content, read_text p ["docs"; "security"; "pii_masking.md"] = Some content /\
                   mentions_one_of pii_symbols content) /\
  (forall m, PiiConfig.masking_function (pii_config (docs_read p)) = Some m ->
             In m pii_symbols).
Proof.
  unfold docs_read, _deep_documentation_read. cbn [pii_config].
  destruct (read_text p ["docs"; "security"; "pii_masking.md"]) as [c|].
  - destruct (@symbol_search "GlobalPIIMasker" "PIIMasker" "mask_pii" c)
      as [S T]; try discriminate.
    cbn [_parse_pii_docs PiiConfig.masking_function]. split.
    + fold pii_symbol in T. rewrite T. split.
      * intros H. now exists c.
      * intros (c' & E & H). now injection E as <-.
    + intros m H. exact (proj1 (S m H)).
  - split; [|discriminate].
    split; [discriminate | intros (c & H & _); discriminate].
Qed.

Lemma magika_topic_documented :
  (truthy (MagikaConfig.validation_function (magika_config (docs_read p))) = true <->
   exists content, read_text p ["docs"; "validation"; "magika.md"] = Some content /\
                   mentions_one_of magika_symbols content) /\
  (forall m, MagikaConfig.validation_function (magika_config (docs_read p)) = Some m ->
             In m magika_symbols).
Proof.
  unfold docs_read, _deep_documentation_read. cbn [magika_config].
  destruct (read_text p ["docs"; "validation"; "magika.md"]) as [c|].
  - destruct (@symbol_search "validate_with_magika" "magika_validate" "MagikaValidator" c)
      as [S T]; try discriminate.
    cbn [_parse_magika_docs MagikaConfig.validation_function]. split.
    + fold magika_symbol in T. rewrite T. split.
      * intros H. now exists c.
      * intros (c' & E & H). now injection E as <-.
    + intros m H. exact (proj1 (S m H)).
  - split; [|discriminate].
    split; [discriminate | intros (c & H & _); discriminate].
Qed.

Lemma logging_topic_documented :
  (truthy (LoggingConfig.logger_function (logging_config (docs_read p))) = true <->
   exists content, read_text p ["docs"; "infrastructure"; "logging.md"] = Some content /\
                   mentions_one_of logger_symbols content) /\
  (forall m, LoggingConfig.logger_function (logging_config (docs_read p)) = Some m ->
             In m logger_symbols).
Proof.
  unfold docs_read, _deep_documentation_read. cbn [logging_config].
  destruct (read_text p ["docs"; "infrastructure"; "logging.md"]) as [c|].
  - destruct (@symbol_search "get_logger" "CentralizedLogger" "Logger.get" c)
      as [S T]; try discriminate.
    cbn [_parse_logging_docs LoggingConfig.logger_function]. split.
    + fold logger_symbol in T. rewrite T. split.
      * intros H. now exists c.
      * intros (c' & E & H). now injection E as <-.
    + intros m H. exact (proj1 (S m H)).
  - split; [|discriminate].
    split; [discriminate | intros (c & H & _); discriminate].
Qed.

(** X1.  On a new instance a topic counts as documented exactly when its
    document exists and mentions one of the topic's three names; the
    required symbol that is kept is one of those names. *)
Theorem topic_documented_iff_symbol_mentioned :
  ((truthy (PiiConfig.masking_function (pii_config (docs_read p))) = true <->
    exists content, read_text p ["docs"; "security"; "pii_masking.md"] = Some content /\
                    mentions_one_of pii_symbols content) /\
   (forall m, PiiConfig.masking_function (pii_config (docs_read p)) = Some m ->
              In m pii_symbols)) /\
  ((truthy (MagikaConfig.validation_function (magika_config (docs_read p))) = true <->
    exists content, read_text p ["docs"; "validation"; "magika.md"] = Some content /\
                    mentions_one_of magika_symbols content) /\
   (forall m, MagikaConfig.validation_function (magika_config (docs_read p)) = Some m ->
              In m magika_symbols)) /\
  ((truthy (LoggingConfig.logger_function (logging_config (docs_read p))) = true <->
    exists content, read_text p ["docs"; "infrastructure"; "logging.md"] = Some content /\
                    mentions_one_of logger_symbols content) /\
   (forall m, LoggingConfig.logger_function (logging_config (docs_read p)) = Some m ->
              In m logger_symbols)).
Proof.
  split; [exact pii_topic_documented|].
  split; [exact magika_topic_documented | exact logging_topic_documented].
Qed.

End TopicSymbols.

(** ** The PII question *)

Section PiiQuestion.

Variable list_of_set : list string -> list string.
Variable p : Project.
Variable d : string.

(** C9.  When the description contains one of the PII keywords (in any
    letter case, as the parser lowers the text first) and the run reaches
    the clarification stage, with no discrepancy and no scanner finding,
    a PII question is among the questions whether or not a masking policy
    is documented: "Should I use <masker> for PII as documented?" with
    one of the three masker names when it is, and "How should PII be
    handled? I didn't find PII masking docs." when it is not; the run
    halts with status "need_clarification".  Whatever the earlier stages
    do, such an issue never ends with status "approval_needed". *)
Theorem C9_pii_issue_always_asks :
  (exists kw, In kw pii_keywords /\ occurs_in kw (lower d)) ->
  (doc_discrepancies (checked list_of_set p d) = [] ->
   unrelated_issues (scanned list_of_set p d) = [] ->
   (masking_policy_documented p ->
    exists masker,
      In masker pii_symbols /\
      In ("Should I use " ++ masker ++ " for PII as documented?")%string
         (_get_clarification_questions (scanned list_of_set p d))) /\
   (~ masking_policy_documented p ->
    In "How should PII be handled? I didn't find PII masking docs."
       (_get_clarification_questions (scanned list_of_set p d))) /\
   work_on_issue list_of_set p d
     = need_clarification (_get_clarification_questions (scanned list_of_set p d))
         "I need clarification on these points:" /\
   status (work_on_issue list_of_set p d) = "need_clarification") /\
  status (work_on_issue list_of_set p d) <> "approval_needed".
Proof.
  intros Hkw.
  assert (Hp : IssueData.has_pii (issue_data (scanned list_of_set p d)) = true).
  { unfold scanned, checked. rewrite scanned_issue_data. now apply contains_any_spec. }
  pose proof (pii_question_asked _ Hp) as Hq.
  split.
  - intros E4 E6.
    destruct (scanned_configs list_of_set p d) as (C & _).
    destruct (pii_topic_documented p) as (T & S).
    fold (masking_policy_documented p) in T.
    split; [|split].
    + intros D. apply T in D.
      unfold pii_question in Hq. unfold scanned, checked in Hq |- *.
      rewrite C in Hq. rewrite D in Hq.
      destruct (PiiConfig.masking_function (pii_config (docs_read p))) as [m|] eqn:Em;
        [|discriminate D].
      exists m. split; [now apply S | exact Hq].
    + intros N.
      unfold pii_question in Hq. unfold scanned, checked in Hq |- *.
      rewrite C in Hq.
      destruct (truthy (PiiConfig.masking_function (pii_config (docs_read p)))) eqn:Et.
      * exfalso. apply N. now apply T.
      * exact Hq.
    + unfold scanned, checked in *.
      rewrite (halts_at_clarification _ _ _ _ E4 E6 Hq). split; reflexivity.
  - unfold scanned, checked in Hq.
    destruct (status_cases list_of_set p d)
      as [(_ & _ & S) | [(_ & _ & _ & S) | [(_ & _ & _ & _ & S) | (_ & _ & E & _)]]];
      try (rewrite S; discriminate).
    rewrite E in Hq. destruct Hq.
Qed.

End PiiQuestion.

Lemma C9_witness :
  In "How should PII be handled? I didn't find PII masking docs."
     (_get_clarification_questions
        (scanned Fixtures.first_seen Fixtures.bare Fixtures.export_issue)) /\
  status (work_on_issue Fixtures.first_seen Fixtures.bare Fixtures.export_issue)
    = "need_clarification" /\
  (exists masker,
     In masker pii_symbols /\
     In ("Should I use " ++ masker ++ " for PII as documented?")%string
        (_get_clarification_questions
           (scanned Fixtures.first_seen masking_only Fixtures.export_issue))) /\
  status (work_on_issue Fixtures.first_seen masking_only Fixtures.export_issue)
    = "need_clarification".
Proof.
  assert (K : exists kw, In kw pii_keywords /\ occurs_in kw (lower Fixtures.export_issue)).
  { exists "personal". split; [vm_compute; tauto|].
    apply contains_spec. vm_compute. reflexivity. }
  destruct (@C9_pii_issue_always_asks Fixtures.first_seen Fixtures.bare
              Fixtures.export_issue K) as (B & _).
  destruct B as (_ & B2 & _ & B4); try (vm_compute; reflexivity).
  destruct (@C9_pii_issue_always_asks Fixtures.first_seen masking_only
              Fixtures.export_issue K) as (M & _).
  destruct M as (M1 & _ & _ & M4); try (vm_compute; reflexivity).
  split; [|split; [exact B4|split; [|exact M4]]].
  - apply B2. intros (c & R & _). vm_compute in R. discriminate R.
  - apply M1. exists "Mask personal data with GlobalPIIMasker.". split.
    + vm_compute. reflexivity.
    + exists "GlobalPIIMasker". split; [vm_compute; auto|].
      apply contains_spec. vm_compute. reflexivity.
Defined.

Section IssueNumber.

Local Open Scope string_scope.

Variable d : string.

Lemma hash_number_extracted (m : rmatch) :
  search issue_hash d = Some m ->
  group 1 m <> "" /\ all_chars is_digit (group 1 m) = true /\
  occurs_in ("#" ++ group 1 m) d.
Proof.
  intros H. apply search_captures in H. destruct H as (pre & E & M).
  apply cmatches_prefix_group in M; try reflexivity.
  destruct M as (h & ds & E0 & Eg & Mh & Md).
  inversion Mh; subst h. apply matches_plus_cls in Md. destruct Md as [N A].
  unfold group. rewrite Eg. cbn [nth Nat.sub].
  repeat split; try assumption.
  rewrite E, E0. apply occurs_in_middle.
Qed.

Lemma word_number_extracted (m : rmatch) :
  search issue_word d = Some m ->
  group 1 m <> "" /\ all_chars is_digit (group 1 m) = true /\
  exists w ws, upper w = "ISSUE" /\ ws <> "" /\ all_chars is_space ws = true /\
               occurs_in (w ++ ws ++ group 1 m) d.
Proof.
  intros H. apply search_captures in H. destruct H as (pre & E & M).
  rewrite issue_word_shape in M.
  apply cmatches_cat in M. destruct M as (w & m2 & gw & g2 & E0 & Eg & Mw & M2).
  rewrite (cmatches_group_free Mw) in Eg
    by (rewrite group_free_icase; apply group_free_lit).
  apply cmatches_matches, matches_icase_lit in Mw.
  apply cmatches_prefix_group in M2; try reflexivity.
  destruct M2 as (ws & ds & -> & -> & Ms & Md).
  apply (matches_icase_plus _ _ icase_space) in Ms. destruct Ms as [Ns As].
  apply (matches_icase_plus _ _ icase_digit) in Md. destruct Md as [N A].
  unfold group. rewrite Eg. cbn [nth Nat.sub app].
  repeat split; try assumption.
  exists w, ws. repeat split; try assumption.
  rewrite E, E0. apply occurs_in_middle.
Qed.

Lemma extract_number_sound (n : string) :
  extract_number d = Some n ->
  n <> "" /\ all_chars is_digit n = true /\
  (occurs_in ("#" ++ n) d \/
   (~ has_hash_number d /\
    exists w ws, upper w = "ISSUE" /\ ws <> "" /\ all_chars is_space ws = true /\
                 occurs_in (w ++ ws ++ n) d)).
Proof.
  unfold extract_number.
  destruct (search issue_hash d) as [m|] eqn:E1.
  - intros H. injection H as <-.
    destruct (hash_number_extracted E1) as (N & A & O). auto.
  - destruct (search issue_word d) as [m|] eqn:E2; [|discriminate].
    intros H. injection H as <-.
    destruct (word_number_extracted E2) as (N & A & W).
    repeat split; try assumption. right. split; [|exact W].
    rewrite <- has_match_issue_hash. now apply search_spec.
Qed.

Lemma issue_number_nonempty (n : string) :
  IssueData.number (parsed d) = Some n -> n <> "".
Proof. intros H. now destruct (extract_number_sound H). Qed.

(** X2.  For a description of ASCII characters: the issue number kept
    by the parser is a non-empty run of digits written in the text after
    a [#], or, only when the text has no [#] followed by a digit, after
    the word "issue" and whitespace.  No number is kept exactly when the
    text has neither form, and that is exactly when stage 4 asks for the
    issue number. *)
Theorem issue_number_extraction
    (list_of_set : list string -> list string) (p : Project) :
  ascii_text d ->
  (forall n, IssueData.number (parsed d) = Some n ->
     n <> "" /\ all_chars is_digit n = true /\
     (occurs_in ("#" ++ n) d \/
      (~ has_hash_number d /\
       exists w ws, upper w = "ISSUE" /\ ws <> "" /\ all_chars is_space ws = true /\
                    occurs_in (w ++ ws ++ n) d))) /\
  (IssueData.number (parsed d) = None <-> ~ has_hash_number d /\ ~ has_issue_number d) /\
  (In number_question (_get_clarification_questions (scanned list_of_set p d)) <->
   ~ has_hash_number d /\ ~ has_issue_number d).
Proof.
  intros _.
  change (IssueData.number (parsed d)) with (extract_number d).
  pose proof extract_number_sound as S.
  assert (N : extract_number d = None <-> ~ has_hash_number d /\ ~ has_issue_number d).
  { rewrite <- has_match_issue_hash, <- has_match_issue_word, <- !search_spec.
    unfold extract_number.
    destruct (search issue_hash d), (search issue_word d);
      split; try discriminate; try tauto; intros [? ?]; discriminate. }
  split; [exact S|]. split; [exact N|].
  rewrite <- N. unfold _get_clarification_questions.
  unfold scanned, checked. rewrite scanned_issue_data.
  change (IssueData.number (parsed d)) with (extract_number d).
  destruct (extract_number d) as [n|] eqn:E.
  - destruct (S n eq_refl) as (Nn & _). destruct n as [|c n]; [contradiction|].
    cbn [truthy negb when app]. split; [|discriminate].
    intros H. exfalso.
    repeat match type of H with
           | In _ (_ ++ _) => apply in_app_or in H; destruct H as [H | H]
           | In _ (if ?b then _ else _) => destruct b
           | In _ (when ?b _) => destruct b; cbn [when] in H
           | In _ [_] => destruct H as [H | []]
           | In _ [] => destruct H
           end; try discriminate H.
  - cbn [truthy negb when]. split; [reflexivity | intros _; now left].
Qed.

End IssueNumber.

Section Endpoints.

Local Open Scope string_scope.

Variable d : string.

Lemma endpoint_match_parts (m : rmatch) :
  In m (finditer endpoint_pattern d) ->
  In (upper (group 1 m)) http_methods /\
  well_formed_path (group 2 m) /\
  exists ws, ws <> "" /\ all_chars is_space ws = true /\
             occurs_in (group 1 m ++ ws ++ group 2 m) d.
Proof.
  intros H. apply finditer_captures in H. destruct H as (pre & post & E & M).
  rewrite endpoint_pattern_shape in M.
  apply cmatches_cat in M. destruct M as (meth & m2 & g1 & g2 & E0 & Eg & Mm & M2).
  apply cmatches_grp in Mm. destruct Mm as (gm & -> & Mm).
  rewrite (cmatches_group_free Mm) in Eg
    by (cbn [group_free]; rewrite !group_free_icase, !group_free_lit; reflexivity).
  apply cmatches_matches, matches_method in Mm.
  apply cmatches_prefix_group in M2; try reflexivity.
  destruct M2 as (ws & path & -> & -> & Ms & Mp).
  apply (matches_icase_plus _ _ icase_space) in Ms. destruct Ms as [Ns As].
  apply matches_cat in Mp. destruct Mp as (sl & tl & -> & Msl & Mtl).
  apply matches_cls in Msl. destruct Msl as (x & -> & Hx).
  rewrite icase_slash in Hx. apply Ascii.eqb_eq in Hx. subst x.
  apply (matches_icase_plus _ _ icase_path_char) in Mtl. destruct Mtl as [Np Ap].
  unfold group. rewrite Eg. cbn [app nth Nat.sub].
  split; [assumption|]. split.
  - exists tl. now repeat split.
  - exists ws. repeat split; try assumption.
    rewrite E, E0. apply occurs_in_middle.
Qed.

Lemma parsed_endpoints_nil_iff :
  IssueData.endpoints (parsed d) = [] <-> ~ mentions_endpoint d.
Proof.
  change (IssueData.endpoints (parsed d)) with (extract_endpoints d).
  unfold extract_endpoints.
  rewrite <- endpoint_pattern_spec, <- finditer_nil_iff.
  destruct (finditer endpoint_pattern d); cbn [map];
    split; intros H; try discriminate; reflexivity.
Qed.

(** X3.  For a description of ASCII characters: every endpoint the
    parser records has one of the five method names, in upper case, and a
    path made of a slash and path characters, and is written in the text:
    the method in some letter case, then whitespace, then the path as
    recorded.  The parser records no endpoint exactly when the text
    mentions none. *)
Theorem parsed_endpoints_come_from_text :
  ascii_text d ->
  (forall e, In e (IssueData.endpoints (parsed d)) ->
     In (Endpoint.method e) http_methods /\
     well_formed_path (Endpoint.path e) /\
     endpoint_written d e) /\
  (IssueData.endpoints (parsed d) = [] <-> ~ mentions_endpoint d).
Proof.
  intros _.
  split; [|exact parsed_endpoints_nil_iff].
  change (IssueData.endpoints (parsed d)) with (extract_endpoints d).
  unfold extract_endpoints.
  intros e H. apply in_map_iff in H. destruct H as (m & <- & H).
  destruct (@endpoint_match_parts m H) as (Hm & Hp & ws & Ns & As & O).
  cbn [Endpoint.method Endpoint.path]. repeat split; try assumption.
  exists (group 1 m), ws. now repeat split.
Qed.

End Endpoints.

(** ** An issue without endpoint *)

Section NoEndpoint.

Variable list_of_set : list string -> list string.
Variable p : Project.
Variable d : string.

(** C10.  When the parser finds no endpoint pattern in the description,
    the set of affected files is empty, the scanner adds no issue, and
    the run does not end with status "unrelated_issues_found", whatever
    the project holds.  For a description of ASCII characters the parser
    finds none exactly when the text mentions none: no method name GET,
    POST, PUT, PATCH or DELETE in any letter case that is followed by
    whitespace and a slash with path characters. *)
Theorem C10_no_endpoint_no_triage :
  (IssueData.endpoints (parsed d) = [] ->
   _get_affected_files p (checked list_of_set p d) = [] /\
   unrelated_issues (scanned list_of_set p d) = [] /\
   status (work_on_issue list_of_set p d) <> "unrelated_issues_found") /\
  (ascii_text d ->
   (IssueData.endpoints (parsed d) = [] <-> ~ mentions_endpoint d)).
Proof.
  split; [|intros _; apply parsed_endpoints_nil_iff].
  intros E.
  assert (F : _get_affected_files p (checked list_of_set p d) = []).
  { unfold _get_affected_files, checked.
    rewrite validated_issue_data, parsed_models, E. reflexivity. }
  assert (U : unrelated_issues (scanned list_of_set p d) = []).
  { unfold scanned, checked in *. rewrite scanned_unrelated_issues, F. reflexivity. }
  repeat split; try assumption.
  destruct (status_cases list_of_set p d)
    as [(_ & _ & S) | [(_ & U' & _) | [(_ & _ & _ & _ & S) | (_ & _ & _ & _ & S)]]];
    try (rewrite S; discriminate).
  contradiction.
Qed.

End NoEndpoint.

Lemma C10_witness :
  (_get_affected_files Fixtures.undocumented_views
     (checked Fixtures.first_seen Fixtures.undocumented_views Fixtures.typo_issue) = [] /\
   unrelated_issues
     (scanned Fixtures.first_seen Fixtures.undocumented_views Fixtures.typo_issue) = [] /\
   status (work_on_issue Fixtures.first_seen Fixtures.undocumented_views
                         Fixtures.typo_issue) <> "unrelated_issues_found") /\
  ~ mentions_endpoint Fixtures.typo_issue.
Proof.
  destruct (C10_no_endpoint_no_triage Fixtures.first_seen Fixtures.undocumented_views
              Fixtures.typo_issue) as (T & W).
  split.
  - apply T. vm_compute. reflexivity.
  - assert (A : ascii_text Fixtures.typo_issue) by (vm_compute; reflexivity).
    apply (proj1 (W A)). vm_compute. reflexivity.
Defined.

(** ** Extra properties: the scanner *)

(** X4.  Every issue of a scanned file names that file by its relative
    path, carries the 1-based number of an existing line, has one of the
    four kind and severity pairs of the scanner, and is one of the issues
    of that very line. *)
Theorem scan_issue_located (f : SourceFile) (i : UnrelatedIssue.t) :
  In i (scan_file f) ->
  UnrelatedIssue.file i = rel f /\
  1 <= UnrelatedIssue.line i <= List.length (split_lines (text f)) /\
  In (grade i) scanner_grades /\
  exists l, nth_error (split_lines (text f)) (UnrelatedIssue.line i - 1) = Some l /\
            In i (scan_line (rel f) (UnrelatedIssue.line i) l).
Proof.
  unfold scan_file. intros H. apply scan_lines_origin in H.
  destruct H as (n & l & Hn & H). cbn [Nat.add] in H.
  destruct (scan_line_fields _ _ _ _ H) as (Hf & Hl & Hg).
  split; [exact Hf|]. rewrite Hl. split.
  - assert (n < List.length (split_lines (text f)))
      by (apply nth_error_Some; congruence).
    lia.
  - split; [exact Hg|]. exists l. replace (S n - 1) with n by lia. now split.
Qed.

Lemma scan_issue_located_witness :
  UnrelatedIssue.file (hardcoded_password_issue "app/views.py" 1) = "app/views.py" /\
  1 <= UnrelatedIssue.line (hardcoded_password_issue "app/views.py" 1)
    <= List.length (split_lines password_and_query_line) /\
  In (grade (hardcoded_password_issue "app/views.py" 1)) scanner_grades /\
  exists l, nth_error (split_lines password_and_query_line)
                      (UnrelatedIssue.line (hardcoded_password_issue "app/views.py" 1) - 1)
              = Some l /\
            In (hardcoded_password_issue "app/views.py" 1)
               (scan_line "app/views.py"
                  (UnrelatedIssue.line (hardcoded_password_issue "app/views.py" 1)) l).
Proof.
  apply (scan_issue_located
           (mk_source "app/views.py" "views.py" password_and_query_line)).
  vm_compute. auto.
Defined.

Lemma StronglySorted_app (A : Type) (R : A -> A -> Prop) (l1 l2 : list A) :
  StronglySorted R l1 -> StronglySorted R l2 ->
  (forall a b, In a l1 -> In b l2 -> R a b) ->
  StronglySorted R (l1 ++ l2).
Proof.
  induction l1 as [|x l1 IH]; intros S1 S2 H; cbn [app]; [assumption|].
  inversion S1 as [|? ? S1' F]; subst. constructor.
  - apply IH; [assumption | assumption |]. intros a b Ha Hb. apply H; [now right | assumption].
  - apply Forall_app. split; [assumption|].
    apply Forall_forall. intros b Hb. apply H; [now left | assumption].
Qed.

Lemma scan_lines_sorted (file : string) (ls : list string) :
  forall k,
    StronglySorted (fun a b => UnrelatedIssue.line a <= UnrelatedIssue.line b)
                   (scan_lines file k ls) /\
    (forall i, In i (scan_lines file k ls) -> k < UnrelatedIssue.line i).
Proof.
  induction ls as [|l tl IH]; intros k; cbn [scan_lines].
  - split; [constructor | intros i []].
  - destruct (IH (S k)) as [St Lt].
    assert (E : forall i, In i (scan_line file (S k) l) -> UnrelatedIssue.line i = S k).
    { intros i Hi. now destruct (scan_line_fields _ _ _ _ Hi) as (_ & Hl & _). }
    split.
    + apply StronglySorted_app; [| exact St |].
      * revert E. generalize (scan_line file (S k) l) as xs.
        induction xs as [|x xs IHx]; intros E; constructor.
        -- apply IHx. intros i Hi. apply E. now right.
        -- apply Forall_forall. intros y Hy.
           rewrite (E x), (E y); [lia | now right | now left].
      * intros a b Ha Hb. rewrite (E a Ha). specialize (Lt b Hb). lia.
    + intros i Hi. apply in_app_or in Hi. destruct Hi as [Hi | Hi].
      * rewrite (E i Hi). lia.
      * specialize (Lt i Hi). lia.
Qed.

(** X5.  The issues of a file come in line order. *)
Theorem scan_file_in_line_order (f : SourceFile) :
  StronglySorted (fun a b => UnrelatedIssue.line a <= UnrelatedIssue.line b)
                 (scan_file f).
Proof. apply scan_lines_sorted. Qed.

(** X6.  Scanning a text cut at a newline: the issues of the first part,
    then the issues of the second part with their line numbers moved down
    by the number of lines of the first.  Lines appended to a file leave
    the issues of the earlier lines as they were. *)
Theorem scan_file_newline (path nm a b : string) :
  scan_file (mk_source path nm (a ++ nl ++ b)%string) =
  scan_file (mk_source path nm a)
  ++ map (shift_line (List.length (split_lines a))) (scan_file (mk_source path nm b)).
Proof.
  unfold scan_file. cbn [rel text].
  rewrite split_lines_newline, scan_lines_app, <- scan_lines_shift.
  reflexivity.
Qed.

Section Deprecated.

Local Open Scope string_scope.

Lemma map_string_append (g : ascii -> ascii) (a b : string) :
  map_string g (a ++ b) = map_string g a ++ map_string g b.
Proof. induction a as [|c a IH]; cbn; [reflexivity | now rewrite IH]. Qed.

Lemma occurs_in_lower (sub s : string) :
  occurs_in sub s -> occurs_in (lower sub) (lower s).
Proof.
  intros (pre & post & ->). exists (lower pre), (lower post).
  unfold lower. now rewrite !map_string_append.
Qed.

(** X7.  The deprecation check fires exactly when the line, in lower
    case, contains "deprecated"; its second test, for "@deprecated" in
    the line as written, never adds anything. *)
Theorem deprecated_rule_is_one_test (l : string) :
  deprecated_rule l = contains "deprecated" (lower l).
Proof.
  unfold deprecated_rule.
  destruct (contains "deprecated" (lower l)) eqn:E; [reflexivity|].
  cbn [orb]. destruct (contains "@deprecated" l) eqn:F; [|reflexivity].
  apply contains_spec, occurs_in_lower in F.
  assert (O : occurs_in "deprecated" (lower l)).
  { apply (occurs_in_trans (b := lower "@deprecated")); [|exact F].
    exists "@", "". reflexivity. }
  apply contains_spec in O. congruence.
Qed.

End Deprecated.

(** ** Extra properties: which files are looked at *)

Lemma rel_of_snoc (dirs : list string) (nm : string) :
  rel_of (dirs ++ [nm]) = path_join (rel_of dirs) nm.
Proof. unfold rel_of. now rewrite fold_left_app. Qed.

Lemma glob_selected (sel : string -> bool) (p : Project) (f : SourceFile) :
  In f (glob sel p) -> sel (name f) = true.
Proof. apply glob_node_selected. Qed.

Lemma glob_finds (sel : string -> bool) (p : Project) (dirs : list string)
    (nm t : string) :
  read_text p (dirs ++ [nm]) = Some t -> sel nm = true ->
  In (mk_source (rel_of (dirs ++ [nm])) nm t) (glob sel p).
Proof.
  intros H Hs. unfold read_text in H.
  destruct (resolve (dirs ++ [nm]) (root_dir p)) as [[t'|]|] eqn:R; try discriminate.
  injection H as ->. rewrite rel_of_snoc. unfold glob, rel_of.
  now apply glob_node_resolves.
Qed.

(** X8.  A glob returns only files whose name is selected, and it
    returns every file that can be read through a path whose last
    component is selected, under the relative path made of the
    components. *)
Theorem glob_sound_and_complete (sel : string -> bool) (p : Project) :
  (forall f, In f (glob sel p) -> sel (name f) = true) /\
  (forall dirs nm t,
     read_text p (dirs ++ [nm]) = Some t -> sel nm = true ->
     In (mk_source (rel_of (dirs ++ [nm])) nm t) (glob sel p)).
Proof.
  split.
  - intros f. apply glob_selected.
  - intros dirs nm t. apply glob_finds.
Qed.

Lemma glob_sound_and_complete_witness :
  In (mk_source "billing/models.py" "models.py" "class Invoice(models.Model): pass")
     (glob_named "models.py" Fixtures.with_invoice_model).
Proof.
  apply (proj2 (glob_sound_and_complete (String.eqb "models.py")
                  Fixtures.with_invoice_model) ["billing"] "models.py");
    vm_compute; reflexivity.
Defined.

Section AffectedFiles.

Variable list_of_set : list string -> list string.
Variable p : Project.
Variable d : string.

Lemma affected_files_of_run :
  _get_affected_files p (checked list_of_set p d) =
  match IssueData.endpoints (parsed d) with
  | [] => []
  | _ :: _ => glob_named "views.py" p ++ glob_named "urls.py" p
              ++ glob_named "serializers.py" p
  end.
Proof.
  unfold _get_affected_files, checked.
  now rewrite validated_issue_data, parsed_models.
Qed.

(** X9.  The scanner looks only at files named views.py, urls.py or
    serializers.py, never at a models.py.  When the issue mentions an
    endpoint it looks at every readable file with one of those names;
    when a description of ASCII characters mentions none, it looks at no
    file. *)
Theorem affected_files_are_request_handling :
  (forall f, In f (_get_affected_files p (checked list_of_set p d)) ->
             In (name f) scanned_names) /\
  (mentions_endpoint d ->
   forall dirs nm t,
     In nm scanned_names -> read_text p (dirs ++ [nm]) = Some t ->
     In (mk_source (rel_of (dirs ++ [nm])) nm t)
        (_get_affected_files p (checked list_of_set p d))) /\
  (ascii_text d -> ~ mentions_endpoint d ->
   _get_affected_files p (checked list_of_set p d) = []).
Proof.
  rewrite affected_files_of_run.
  pose proof (parsed_endpoints_nil_iff d) as E.
  destruct (IssueData.endpoints (parsed d)) as [|e es].
  - split; [intros f []|]. split; [|reflexivity].
    intros M. exfalso. now apply (proj1 E).
  - split; [|split].
    + intros f H. unfold scanned_names.
      apply in_app_or in H. destruct H as [H | H];
        [| apply in_app_or in H; destruct H as [H | H]];
        apply glob_selected in H;
        apply String.eqb_eq in H; rewrite <- H; cbn; auto.
    + intros _ dirs nm t Hn R. unfold scanned_names in Hn.
      destruct Hn as [<- | [<- | [<- | []]]].
      * apply in_or_app. left.
        now apply glob_finds; [|apply String.eqb_refl].
      * apply in_or_app. right. apply in_or_app. left.
        now apply glob_finds; [|apply String.eqb_refl].
      * apply in_or_app. right. apply in_or_app. right.
        now apply glob_finds; [|apply String.eqb_refl].
    + intros _ N. exfalso. apply (proj2 E) in N. discriminate.
Qed.

End AffectedFiles.

Lemma affected_files_witness :
  In (mk_source "app/views.py" "views.py" "email = request.user.email  # TODO mask")
     (_get_affected_files Fixtures.undocumented_views
        (checked Fixtures.first_seen Fixtures.undocumented_views Fixtures.endpoint_issue)) /\
  _get_affected_files Fixtures.undocumented_views
    (checked Fixtures.first_seen Fixtures.undocumented_views Fixtures.typo_issue) = [].
Proof.
  split.
  - destruct (affected_files_are_request_handling Fixtures.first_seen
                Fixtures.undocumented_views Fixtures.endpoint_issue) as (_ & H & _).
    apply (H ltac:(rewrite <- endpoint_pattern_spec; apply search_has_match;
                   vm_compute; discriminate)
             ["app"] "views.py").
    + vm_compute. auto.
    + vm_compute. reflexivity.
  - destruct (affected_files_are_request_handling Fixtures.first_seen
                Fixtures.undocumented_views Fixtures.typo_issue) as (_ & _ & H).
    apply H.
    + vm_compute. reflexivity.
    + rewrite <- endpoint_pattern_spec. apply search_spec. vm_compute. reflexivity.
Defined.

(** ** Extra properties: reports *)

Section Buckets.

Lemma with_severity_in (sev : string) (l : list UnrelatedIssue.t) (i : UnrelatedIssue.t) :
  In i (with_severity sev l) <-> In i l /\ UnrelatedIssue.severity i = sev.
Proof. unfold with_severity. now rewrite filter_In, String.eqb_eq. Qed.

(** Sorting issues of the four severities into the four buckets loses
    and repeats nothing. *)
Lemma buckets_permutation (l : list UnrelatedIssue.t) :
  (forall i, In i l -> In (UnrelatedIssue.severity i) ["critical"; "high"; "medium"; "low"]) ->
  Permutation (with_severity "critical" l ++ with_severity "high" l
               ++ with_severity "medium" l ++ with_severity "low" l) l.
Proof.
  induction l as [|x l IH]; intros H; [constructor|].
  assert (IH' := IH (fun i Hi => H i (or_intror Hi))). clear IH.
  specialize (H x (or_introl eq_refl)). unfold with_severity in *. cbn [filter].
  destruct H as [E | [E | [E | [E | []]]]]; rewrite <- E; cbn [String.eqb Ascii.eqb Bool.eqb].
  - cbn [app]. now constructor.
  - symmetry. apply Permutation_cons_app. now symmetry.
  - symmetry. rewrite app_assoc. apply Permutation_cons_app.
    rewrite <- app_assoc. now symmetry.
  - symmetry. rewrite !app_assoc. apply Permutation_cons_app.
    rewrite <- !app_assoc. now symmetry.
Qed.

Lemma scan_file_grades (f : SourceFile) (i : UnrelatedIssue.t) :
  In i (scan_file f) -> In (grade i) scanner_grades.
Proof.
  unfold scan_file. intros H. apply scan_lines_origin in H.
  destruct H as (n & l & _ & H). now destruct (scan_line_fields _ _ _ _ H) as (_ & _ & G).
Qed.

Lemma grade_severity (i : UnrelatedIssue.t) :
  In (grade i) scanner_grades ->
  In (UnrelatedIssue.severity i) ["critical"; "high"; "medium"; "low"].
Proof.
  unfold grade, scanner_grades. intros [E | [E | [E | [E | []]]]];
    injection E as _ <-; cbn; auto.
Qed.

End Buckets.

Section Reports.

Variable list_of_set : list string -> list string.
Variable p : Project.
Variable d : string.

Lemma run_issues_graded (i : UnrelatedIssue.t) :
  In i (unrelated_issues (scanned list_of_set p d)) -> In (grade i) scanner_grades.
Proof.
  unfold scanned, checked. rewrite scanned_unrelated_issues. intros H.
  apply in_flat_map in H. destruct H as (f & _ & H). exact (scan_file_grades _ _ H).
Qed.

Lemma triage_outcome (c h m lo : list UnrelatedIssue.t) (opts : list string) (msg : string) :
  work_on_issue list_of_set p d = unrelated_issues_found c h m lo opts msg ->
  c = with_severity "critical" (unrelated_issues (scanned list_of_set p d)) /\
  h = with_severity "high" (unrelated_issues (scanned list_of_set p d)) /\
  m = with_severity "medium" (unrelated_issues (scanned list_of_set p d)) /\
  lo = with_severity "low" (unrelated_issues (scanned list_of_set p d)) /\
  opts = remediation_options /\
  doc_discrepancies (checked list_of_set p d) = [].
Proof.
  intros H. unfold scanned, checked.
  destruct (status_cases list_of_set p d)
    as [(_ & R & _) | [(E & _ & R & _) | [(_ & _ & _ & R & _) | (_ & _ & _ & R & _)]]];
    rewrite R in H; try discriminate H.
  unfold _handle_unrelated_issues in H. injection H as <- <- <- <- <- _.
  now repeat split.
Qed.

(** X10.  When a run halts with the unrelated issues, its four buckets
    together hold every issue the scanner found, each exactly once; the
    critical and high buckets hold SECURITY issues, the medium bucket
    DEPRECATED issues and the low bucket TODO issues; the menu is the
    fixed list of five choices. *)
Theorem triage_report_keeps_every_issue
    (c h m lo : list UnrelatedIssue.t) (opts : list string) (msg : string) :
  work_on_issue list_of_set p d = unrelated_issues_found c h m lo opts msg ->
  Permutation (c ++ h ++ m ++ lo) (unrelated_issues (scanned list_of_set p d)) /\
  (forall i, In i (c ++ h) -> UnrelatedIssue.type i = SECURITY) /\
  (forall i, In i m -> UnrelatedIssue.type i = DEPRECATED) /\
  (forall i, In i lo -> UnrelatedIssue.type i = TODO) /\
  opts = remediation_options.
Proof.
  intros H. destruct (triage_outcome H) as (-> & -> & -> & -> & -> & _).
  split; [|repeat split].
  - apply buckets_permutation. intros i Hi.
    apply grade_severity. now apply run_issues_graded.
  - intros i Hi. apply in_app_or in Hi.
    destruct Hi as [Hi | Hi]; apply with_severity_in in Hi; destruct Hi as [Hi S];
      apply run_issues_graded in Hi; unfold grade, scanner_grades in Hi; rewrite S in Hi;
      destruct Hi as [E | [E | [E | [E | []]]]]; try discriminate E;
      now injection E.
  - intros i Hi. apply with_severity_in in Hi. destruct Hi as [Hi S].
    apply run_issues_graded in Hi. unfold grade, scanner_grades in Hi. rewrite S in Hi.
    destruct Hi as [E | [E | [E | [E | []]]]]; try discriminate E; now injection E.
  - intros i Hi. apply with_severity_in in Hi. destruct Hi as [Hi S].
    apply run_issues_graded in Hi. unfold grade, scanner_grades in Hi. rewrite S in Hi.
    destruct Hi as [E | [E | [E | [E | []]]]]; try discriminate E; now injection E.
Qed.

End Reports.

Lemma triage_report_witness :
  Permutation
    ([] ++ [] ++ []
     ++ [UnrelatedIssue.mk TODO "app/views.py" 1 "x = 1  # TODO tidy" "low"])
    (unrelated_issues (scanned Fixtures.first_seen todo_views Fixtures.endpoint_issue)) /\
  (forall i, In i ([] ++ []) -> UnrelatedIssue.type i = SECURITY) /\
  (forall i, In i [] -> UnrelatedIssue.type i = DEPRECATED) /\
  (forall i, In i [UnrelatedIssue.mk TODO "app/views.py" 1 "x = 1  # TODO tidy" "low"] ->
             UnrelatedIssue.type i = TODO) /\
  remediation_options = remediation_options.
Proof.
  apply (triage_report_keeps_every_issue Fixtures.first_seen todo_views
           Fixtures.endpoint_issue
           (msg := outcome_message
                     (work_on_issue Fixtures.first_seen todo_views Fixtures.endpoint_issue))).
  vm_compute. reflexivity.
Defined.

(** ** Extra properties: the controller *)

Lemma questions_nil_iff (self : Automation) :
  _get_clarification_questions self = [] <->
  truthy (IssueData.number (issue_data self)) = true /\
  IssueData.has_pii (issue_data self) = false /\
  contains "upload" (lower (IssueData.description (issue_data self))) = false /\
  truthy (LoggingConfig.logger_function (logging_config self)) = true.
Proof.
  unfold _get_clarification_questions, when.
  destruct (truthy (IssueData.number (issue_data self)));
    destruct (IssueData.has_pii (issue_data self));
    destruct (contains "upload" _);
    destruct (truthy (LoggingConfig.logger_function (logging_config self)));
    try destruct (truthy (PiiConfig.masking_function (pii_config self)));
    try destruct (truthy (MagikaConfig.validation_function (magika_config self)));
    cbn [negb app]; split; try discriminate; try tauto;
    intros (? & ? & ? & ?); discriminate.
Qed.

Lemma truthy_some (o : option string) :
  truthy o = true -> exists s, o = Some s /\ s <> EmptyString.
Proof.
  destruct o as [[|c s]|]; try discriminate. intros _.
  exists (String c s). split; [reflexivity | discriminate].
Qed.

Section Approval.

Variable list_of_set : list string -> list string.
Variable p : Project.
Variable d : string.

Lemma scanned_questions_nil_iff :
  _get_clarification_questions (scanned list_of_set p d) = [] <->
  truthy (IssueData.number (parsed d)) = true /\
  IssueData.has_pii (parsed d) = false /\
  contains "upload" (lower d) = false /\
  truthy (LoggingConfig.logger_function (logging_config (docs_read p))) = true.
Proof.
  rewrite questions_nil_iff. unfold scanned, checked.
  rewrite scanned_issue_data.
  destruct (scanned_configs list_of_set p d) as (_ & _ & ->). reflexivity.
Qed.

(** X11.  A run ends with a plan exactly when the checker found no
    discrepancy, the scanner no issue, the text gives an issue number,
    names no PII keyword and does not say "upload", and the logging
    document names its logger. *)
Theorem approval_needs_everything_settled :
  status (work_on_issue list_of_set p d) = "approval_needed" <->
  doc_discrepancies (checked list_of_set p d) = [] /\
  unrelated_issues (scanned list_of_set p d) = [] /\
  (exists n, IssueData.number (parsed d) = Some n) /\
  IssueData.has_pii (parsed d) = false /\
  ~ occurs_in "upload" (lower d) /\
  truthy (LoggingConfig.logger_function (logging_config (docs_read p))) = true.
Proof.
  pose proof scanned_questions_nil_iff as Q. unfold scanned, checked in *.
  split.
  - intros H.
    destruct (status_cases list_of_set p d)
      as [(_ & _ & S) | [(_ & _ & _ & S) | [(_ & _ & _ & _ & S) | (E4 & E6 & Eq & _)]]];
      try (rewrite S in H; discriminate H).
    apply Q in Eq. destruct Eq as (Hn & Hp & Hu & Hl).
    repeat split; try assumption.
    + apply truthy_some in Hn. destruct Hn as (n & -> & _). now exists n.
    + intros O. apply contains_spec in O. congruence.
  - intros (E4 & E6 & (n & Hn) & Hp & Hu & Hl).
    destruct (status_cases list_of_set p d)
      as [(N & _) | [(_ & N & _) | [(_ & _ & N & _) | (_ & _ & _ & _ & S)]]];
      try contradiction; [|exact S].
    exfalso. apply N. apply Q. repeat split; try assumption.
    + rewrite Hn. destruct n as [|c n]; [|reflexivity]. exfalso.
      now apply (@issue_number_nonempty d EmptyString Hn).
    + destruct (contains "upload" (lower d)) eqn:C; [|reflexivity].
      exfalso. apply Hu. now apply contains_spec.
Qed.

End Approval.

Section Plan.

Variable list_of_set : list string -> list string.
Variable p : Project.
Variable d : string.

(** X12.  The plan of a run has three parts only: the header with the
    issue number, "Has PII: No" and the number of feature folders read;
    the logging section with the documented logger; the fixed steps.  The
    sections on PII handling, file validation and critical issues never
    appear in a plan a run returns. *)
Theorem approved_plan_sections (plan msg : string) :
  work_on_issue list_of_set p d = approval_needed plan msg ->
  exists n logger,
    IssueData.number (parsed d) = Some n /\
    LoggingConfig.logger_function (logging_config (docs_read p)) = Some logger /\
    plan = (plan_header n (List.length (feature_docs (checked list_of_set p d)))
            ++ plan_logging_section logger
                 (get_default (LoggingConfig.import_from (logging_config (docs_read p)))
                              "utils.logging")
            ++ plan_steps)%string.
Proof.
  intros H. unfold checked.
  destruct (status_cases list_of_set p d)
    as [(_ & R & _) | [(_ & _ & R & _) | [(_ & _ & _ & R & _) | (E4 & E6 & Eq & R & _)]]];
    rewrite R in H; try discriminate H.
  injection H as <- _.
  apply (scanned_questions_nil_iff list_of_set p d) in Eq.
  destruct Eq as (Hn & Hp & Hu & Hl).
  apply truthy_some in Hn. destruct Hn as (n & Hn & _).
  apply truthy_some in Hl. destruct Hl as (logger & Hl & _).
  exists n, logger. split; [exact Hn|]. split; [exact Hl|].
  unfold _create_validated_plan.
  rewrite scanned_issue_data, E6.
  destruct (scanned_configs list_of_set p d) as (_ & _ & ->).
  rewrite Hn, Hp, Hl.
  change (IssueData.description (parsed d)) with d. rewrite Hu.
  unfold logging_nonempty. rewrite Hl.
  reflexivity.
Qed.

End Plan.

Lemma approved_plan_witness :
  exists n logger,
    IssueData.number (parsed Fixtures.typo_issue) = Some n /\
    LoggingConfig.logger_function (logging_config (docs_read Fixtures.logging_only))
      = Some logger /\
    outcome_plan (work_on_issue Fixtures.first_seen Fixtures.logging_only
                                Fixtures.typo_issue) =
    (plan_header n
       (List.length (feature_docs (checked Fixtures.first_seen Fixtures.logging_only
                                           Fixtures.typo_issue)))
     ++ plan_logging_section logger
          (get_default
             (LoggingConfig.import_from (logging_config (docs_read Fixtures.logging_only)))
             "utils.logging")
     ++ plan_steps)%string.
Proof.
  apply (approved_plan_sections Fixtures.first_seen Fixtures.logging_only Fixtures.typo_issue
           (msg := outcome_message
                     (work_on_issue Fixtures.first_seen Fixtures.logging_only
                                    Fixtures.typo_issue))).
  vm_compute. reflexivity.
Defined.

Section Reported.

Variable list_of_set : list string -> list string.
Variable p : Project.
Variable d : string.

Lemma affected_file_found (dirs : list string) (nm t : string) :
  mentions_endpoint d ->
  In nm scanned_names -> read_text p (dirs ++ [nm]) = Some t ->
  In (mk_source (rel_of (dirs ++ [nm])) nm t)
     (_get_affected_files p (checked list_of_set p d)).
Proof.
  intros M Hn R. rewrite affected_files_of_run.
  destruct (IssueData.endpoints (parsed d)) eqn:E.
  - exfalso. now apply (proj1 (parsed_endpoints_nil_iff d)).
  - unfold scanned_names in Hn. destruct Hn as [<- | [<- | [<- | []]]].
    + apply in_or_app. left. now apply glob_finds; [|apply String.eqb_refl].
    + apply in_or_app. right. apply in_or_app. left.
      now apply glob_finds; [|apply String.eqb_refl].
    + apply in_or_app. right. apply in_or_app. right.
      now apply glob_finds; [|apply String.eqb_refl].
Qed.

(** X13.  When the issue mentions an endpoint and the checker finds no
    discrepancy, every issue of every line of every readable views.py,
    urls.py or serializers.py is handed back: the run halts with the
    unrelated issues, and the issue is in one of the four buckets. *)
Theorem line_issue_is_reported
    (dirs : list string) (nm t : string) (n : nat) (l : string) (i : UnrelatedIssue.t) :
  mentions_endpoint d ->
  doc_discrepancies (checked list_of_set p d) = [] ->
  In nm scanned_names ->
  read_text p (dirs ++ [nm]) = Some t ->
  nth_error (split_lines t) n = Some l ->
  In i (scan_line (rel_of (dirs ++ [nm])) (S n) l) ->
  exists c h m lo opts msg,
    work_on_issue list_of_set p d = unrelated_issues_found c h m lo opts msg /\
    In i (c ++ h ++ m ++ lo).
Proof.
  intros M E4 Hn R Hl Hi.
  assert (U : In i (unrelated_issues (scanned list_of_set p d))).
  { unfold scanned, checked. rewrite scanned_unrelated_issues.
    apply in_flat_map. exists (mk_source (rel_of (dirs ++ [nm])) nm t). split.
    - now apply affected_file_found.
    - unfold scan_file. cbn [rel text]. apply scan_lines_origin. now exists n, l. }
  unfold checked in E4.
  destruct (status_cases list_of_set p d)
    as [(N & _) | [(_ & _ & Run & _) | [(_ & E6 & _) | (_ & E6 & _)]]];
    try contradiction;
    try (unfold scanned, checked in U; rewrite E6 in U; destruct U).
  rewrite Run. unfold _handle_unrelated_issues. do 6 eexists. split; [reflexivity|].
  apply (Permutation_in i (Permutation_sym (buckets_permutation _ (fun j Hj =>
           @grade_severity j (@run_issues_graded list_of_set p d j Hj))))).
  exact U.
Qed.

End Reported.

Lemma line_issue_witness :
  exists c h m lo opts msg,
    work_on_issue Fixtures.first_seen todo_views Fixtures.endpoint_issue
      = unrelated_issues_found c h m lo opts msg /\
    In (UnrelatedIssue.mk TODO "app/views.py" 1 "x = 1  # TODO tidy" "low")
       (c ++ h ++ m ++ lo).
Proof.
  apply (@line_issue_is_reported Fixtures.first_seen todo_views Fixtures.endpoint_issue
           ["app"] "views.py" "x = 1  # TODO tidy" 0 "x = 1  # TODO tidy").
  - rewrite <- endpoint_pattern_spec. apply search_has_match. vm_compute. discriminate.
  - vm_compute. reflexivity.
  - vm_compute. auto.
  - vm_compute. reflexivity.
  - vm_compute. reflexivity.
  - vm_compute. auto.
Defined.

(** ** Extra properties: the discrepancy report and a reused instance *)

Lemma enumerate_lines_length (ds : list DocumentationDiscrepancy.t) :
  forall k, List.length (enumerate_lines k ds) = 3 * List.length ds.
Proof.
  induction ds as [|x ds IH]; intros k; cbn [enumerate_lines List.length app];
    [reflexivity|].
  rewrite length_app, IH. cbn [discrepancy_lines List.length]. lia.
Qed.

(** X14.  The discrepancy report carries every discrepancy in its
    [discrepancies] field, while its question list previews at most five
    of them in three lines each, between an opening and a closing line;
    from the sixth on, one more line gives the number left out.  The list
    never has more than eighteen lines. *)
Theorem discrepancy_report_is_bounded (self : Automation) :
  exists questions,
    _handle_documentation_discrepancies self =
      documentation_mismatch (doc_discrepancies self) questions
        "Documentation doesn't match code - need guidance" /\
    List.length questions =
      2 + 3 * Nat.min 5 (List.length (doc_discrepancies self))
      + (if (5 <? List.length (doc_discrepancies self))%nat then 1 else 0) /\
    List.length questions <= 18 /\
    (5 < List.length (doc_discrepancies self) ->
     In (more_discrepancies_note (List.length (doc_discrepancies self))) questions).
Proof.
  unfold _handle_documentation_discrepancies. eexists. split; [reflexivity|].
  set (n := List.length (doc_discrepancies self)).
  assert (L : List.length
                ([("I found discrepancies between documentation and actual code:" ++ nl)%string]
                 ++ enumerate_lines 1 (firstn 5 (doc_discrepancies self))
                 ++ (if (5 <? n)%nat
                     then [(nl ++ "...and " ++ str_of_nat (n - 5)
                               ++ " more discrepancies.")%string]
                     else [])
                 ++ [(nl ++ "How should I handle these? Fix them, or follow existing code?")%string])
              = 2 + 3 * Nat.min 5 n + (if (5 <? n)%nat then 1 else 0)).
  { rewrite !length_app, enumerate_lines_length, length_firstn. fold n.
    destruct (5 <? n)%nat; cbn [List.length]; lia. }
  split; [exact L|]. split.
  - rewrite L. destruct (5 <? n)%nat; lia.
  - intros H. apply Nat.ltb_lt in H. rewrite H.
    apply in_or_app; right. apply in_or_app; right. apply in_or_app; left. now left.
Qed.

Section AnyInstance.

Variable list_of_set : list string -> list string.
Variable p : Project.
Variable d : string.
Variable self : Automation.

(** What the first four steps do to an instance in any state. *)
Lemma validated_any_instance :
  issue_data (validated list_of_set p d self) = parsed d /\
  unrelated_issues (validated list_of_set p d self) = unrelated_issues self /\
  doc_discrepancies (validated list_of_set p d self) =
    doc_discrepancies self
    ++ pii_discrepancies p (pii_config (_deep_documentation_read p self))
    ++ magika_discrepancies p (magika_config (_deep_documentation_read p self))
    ++ logging_discrepancies p (logging_config (_deep_documentation_read p self)).
Proof.
  unfold validated.
  destruct (validate_fields p
              (_read_feature_documentation list_of_set p
                 (_parse_issue d (_deep_documentation_read p self))))
    as (_ & _ & _ & _ & H5 & H6 & H7).
  rewrite H5, H6, H7. repeat split.
Qed.

(** X15.  The method does not reset the instance.  Called on an
    instance that still holds discrepancies from an earlier call, it
    halts with the documentation mismatch whatever the project and the
    issue now are, and reports the old discrepancies first. *)
Theorem stale_discrepancies_halt_later_calls :
  doc_discrepancies self <> [] ->
  exists added questions message,
    fst (work_on_issue_method list_of_set p d self) =
      documentation_mismatch (doc_discrepancies self ++ added) questions message.
Proof.
  intros N. unfold work_on_issue_method. cbv zeta.
  destruct validated_any_instance as (_ & _ & D).
  destruct (doc_discrepancies (validated list_of_set p d self)) as [|x xs] eqn:E.
  - exfalso. destruct (doc_discrepancies self); [now apply N | discriminate D].
  - cbn [is_nil negb fst]. unfold _handle_documentation_discrepancies.
    rewrite E, D. do 3 eexists. reflexivity.
Qed.

(** X16.  Whatever state the instance is in, a call ends with one of
    four statuses; "breaking_changes_warning" is never among them, since
    parsing the issue always leaves the list of model names empty. *)
Theorem method_status_is_one_of_four :
  In (status (fst (work_on_issue_method list_of_set p d self))) run_statuses.
Proof.
  unfold work_on_issue_method. cbv zeta.
  destruct (negb (is_nil (doc_discrepancies (validated list_of_set p d self))));
    [cbn; auto|].
  destruct (negb (is_nil (unrelated_issues _))); [cbn; auto|].
  destruct (negb (is_nil (_get_clarification_questions _))); [cbn; auto|].
  assert (B : _check_breaking_changes p
                (_scan_for_unrelated_issues p (validated list_of_set p d self)) = []).
  { unfold _check_breaking_changes. cbn [_scan_for_unrelated_issues issue_data].
    destruct validated_any_instance as (-> & _). reflexivity. }
  rewrite B. cbn. auto.
Qed.

End AnyInstance.

Lemma stale_discrepancies_witness :
  exists added questions message,
    fst (work_on_issue_method Fixtures.first_seen Fixtures.bare Fixtures.typo_issue
           (snd (work_on_issue_method Fixtures.first_seen Fixtures.undocumented_views
                   Fixtures.endpoint_issue new_automation))) =
    documentation_mismatch
      (doc_discrepancies
         (snd (work_on_issue_method Fixtures.first_seen Fixtures.undocumented_views
                 Fixtures.endpoint_issue new_automation)) ++ added)
      questions message.
Proof.
  apply stale_discrepancies_halt_later_calls. vm_compute. discriminate.
Defined.

(** ** Extra properties: paths that contain "test" *)

Section TestPaths.

Local Open Scope string_scope.

Variable p : Project.

Lemma abs_path_keeps_test (f : SourceFile) :
  occurs_in "test" (project_root p) -> occurs_in "test" (abs_path p f).
Proof.
  intros H. unfold abs_path, path_join.
  destruct (project_root p) as [|c root] eqn:R.
  - apply contains_spec in H. discriminate H.
  - destruct (String.eqb_spec (String c root) "/") as [E | _].
    + rewrite E in H. apply contains_spec in H. discriminate H.
    + destruct H as (pre & post & ->). exists pre, (post ++ "/" ++ rel f).
      now rewrite !append_assoc_s.
Qed.

Lemma flat_map_nil (A B : Type) (g : A -> list B) (l : list A) :
  (forall x, In x l -> g x = []) -> flat_map g l = [].
Proof.
  induction l as [|x l IH]; intros H; cbn [flat_map]; [reflexivity|].
  rewrite (H x (or_introl eq_refl)), IH; [reflexivity|].
  intros y Hy. apply H. now right.
Qed.

(** X17.  The PII and logging checks test the absolute path for "test".
    When the path of the working directory itself contains "test", they
    pass over every file: whatever the documentation says, the only
    discrepancies a run can report are those of the upload check. *)
Theorem test_in_root_silences_checks
    (list_of_set : list string -> list string) (d : string) :
  occurs_in "test" (project_root p) ->
  (forall cfg, pii_discrepancies p cfg = []) /\
  (forall cfg, logging_discrepancies p cfg = []) /\
  (forall x, In x (doc_discrepancies (checked list_of_set p d)) ->
             DocumentationDiscrepancy.doc_file x = magika_doc).
Proof.
  intros H.
  assert (P : forall cfg, pii_discrepancies p cfg = []).
  { intros cfg. unfold pii_discrepancies. destruct (truthy _); [|reflexivity].
    apply flat_map_nil. intros f _. apply pii_file_check_skips_tests.
    now apply abs_path_keeps_test. }
  assert (L : forall cfg, logging_discrepancies p cfg = []).
  { intros cfg. unfold logging_discrepancies. destruct (truthy _); [|reflexivity].
    apply flat_map_nil. intros f _. apply logging_file_check_skips_tests.
    now apply abs_path_keeps_test. }
  split; [exact P|]. split; [exact L|].
  intros x Hx. apply checked_discrepancy_origin in Hx.
  destruct Hx as [(Hx & _) | [(_ & F) | (Hx & _)]]; [| exact F |].
  - rewrite P in Hx. destruct Hx.
  - rewrite L in Hx. destruct Hx.
Qed.

End TestPaths.

Lemma test_in_root_witness :
  (forall cfg, pii_discrepancies contest_project cfg = []) /\
  (forall cfg, logging_discrepancies contest_project cfg = []) /\
  (forall x, In x (doc_discrepancies
                     (checked Fixtures.first_seen contest_project Fixtures.typo_issue)) ->
             DocumentationDiscrepancy.doc_file x = magika_doc).
Proof.
  apply test_in_root_silences_checks.
  apply contains_spec. vm_compute. reflexivity.
Defined.

(** ** Extra properties: feature folders *)

Section FeatureFolders.

Variable list_of_set : list string -> list string.
Variable p : Project.
Variable d : string.

Lemma checked_feature_docs :
  feature_docs (checked list_of_set p d) =
  fold_left
    (fun fd feature =>
       match list_dir p ["docs"; feature] with
       | Some es => dict_set feature (read_feature_dir es) fd
       | None => fd
       end)
    (list_of_set (candidates p d)) [].
Proof.
  unfold checked, validated.
  destruct (validate_fields p
              (_read_feature_documentation list_of_set p
                 (_parse_issue d (_deep_documentation_read p new_automation))))
    as (-> & _).
  reflexivity.
Qed.

(** The value kept for a feature name: the inner dictionary of its
    folder, when there is one. *)
Lemma fold_feature_dirs (ks : list string) :
  forall fd,
    fold_left
      (fun fd feature =>
         match list_dir p ["docs"; feature] with
         | Some es => dict_set feature (read_feature_dir es) fd
         | None => fd
         end) ks fd =
    fold_left
      (fun fd k =>
         match option_map read_feature_dir (list_dir p ["docs"; k]) with
         | Some v => dict_set k v fd
         | None => fd
         end) ks fd.
Proof.
  induction ks as [|k ks IH]; intros fd; cbn [fold_left]; [reflexivity|].
  rewrite IH. destruct (list_dir p ["docs"; k]); reflexivity.
Qed.

Lemma checked_feature_keys :
  set_order list_of_set ->
  keys (feature_docs (checked list_of_set p d)) =
  filter (feature_dir_exists p) (list_of_set (candidates p d)).
Proof.
  intros S. rewrite checked_feature_docs, fold_feature_dirs.
  rewrite (fold_dict_set_keys
             (fun k => option_map read_feature_dir (list_dir p ["docs"; k]))
             (ks := list_of_set (candidates p d)) [] (proj1 (S _)) (fun _ _ H => H)).
  cbn [keys map app]. apply filter_ext. intros k. unfold feature_dir_exists.
  destruct (list_dir p ["docs"; k]); reflexivity.
Qed.

(** X18.  Whatever the iteration order of the set of feature names, the
    feature folders a run reads are, each once, the candidate names for
    which [docs/<name>] is a directory, whether or not the folder holds
    any markdown file.  For a description of ASCII characters every
    candidate, feature keyword or visible directory of [docs], occurs in
    the lower-cased issue text. *)
Theorem feature_folders_read :
  set_order list_of_set ->
  NoDup (keys (feature_docs (checked list_of_set p d))) /\
  (forall k, In k (keys (feature_docs (checked list_of_set p d))) <->
             In k (candidates p d) /\ feature_dir_exists p k = true) /\
  (ascii_text d -> forall k, In k (candidates p d) -> occurs_in k (lower d)).
Proof.
  intros S. rewrite (checked_feature_keys S). split; [|split].
  - apply NoDup_filter. apply S.
  - intros k. rewrite filter_In. now rewrite (proj2 (S (candidates p d)) k).
  - intros _ k H. unfold candidates, candidate_features in H.
    change (IssueData.description (issue_data (_parse_issue d new_automation)))
      with d in H.
    apply in_app_or in H. destruct H as [H | H].
    + apply filter_In in H. now apply contains_spec.
    + destruct (list_dir p ["docs"]); [|destruct H].
      apply filter_In in H. now apply contains_spec.
Qed.

End FeatureFolders.

Lemma feature_folders_witness :
  NoDup (keys (feature_docs (checked Fixtures.first_seen feature_project
                                     report_issue))) /\
  (forall k, In k (keys (feature_docs (checked Fixtures.first_seen feature_project
                                               report_issue))) <->
             In k (candidates feature_project report_issue) /\
             feature_dir_exists feature_project k = true) /\
  (forall k, In k (candidates feature_project report_issue) ->
             occurs_in k (lower report_issue)).
Proof.
  destruct (@feature_folders_read Fixtures.first_seen feature_project report_issue
              first_seen_set_order) as (N & K & L).
  split; [exact N|]. split; [exact K|].
  apply L. vm_compute. reflexivity.
Defined.

(** ** Extra properties: requirements *)

Section Requirements.

Local Open Scope string_scope.

Lemma rstrip_cons (c : ascii) (s : string) :
  rstrip (String c s) =
  match rstrip s with
  | EmptyString => if is_space c then EmptyString else String c EmptyString
  | r => String c r
  end.
Proof. reflexivity. Qed.

Lemma rstrip_idempotent (s : string) : rstrip (rstrip s) = rstrip s.
Proof.
  induction s as [|c s IH]; [reflexivity|].
  rewrite rstrip_cons. destruct (rstrip s) as [|x r] eqn:E.
  - destruct (is_space c) eqn:Sc; [reflexivity|].
    rewrite rstrip_cons. cbn [rstrip]. now rewrite Sc.
  - rewrite rstrip_cons, IH. reflexivity.
Qed.

Lemma lstrip_keeps_rstripped (t : string) :
  rstrip t = t -> rstrip (lstrip t) = lstrip t.
Proof.
  induction t as [|c t IH]; [reflexivity|].
  intros H. cbn [lstrip]. destruct (is_space c) eqn:Sc; [|exact H].
  apply IH. rewrite rstrip_cons in H. destruct (rstrip t) as [|x r] eqn:E.
  - rewrite Sc in H. discriminate.
  - now injection H.
Qed.

Lemma lstrip_idempotent (s : string) : lstrip (lstrip s) = lstrip s.
Proof.
  induction s as [|c s IH]; [reflexivity|].
  cbn [lstrip]. destruct (is_space c) eqn:Sc; [exact IH|].
  cbn [lstrip]. now rewrite Sc.
Qed.

Lemma strip_idempotent (s : string) : strip (strip s) = strip s.
Proof.
  unfold strip.
  rewrite (lstrip_keeps_rstripped (rstrip_idempotent s)).
  apply lstrip_idempotent.
Qed.

Lemma requirement_of_line_stripped (line r : string) :
  In r (requirement_of_line line) -> strip r = r.
Proof.
  unfold requirement_of_line.
  destruct (startswith "-" (strip line) || startswith "*" (strip line))%bool.
  - intros [<- | []]. apply strip_idempotent.
  - destruct (startswith bullet (strip line)); [|intros []].
    intros [<- | []]. apply strip_idempotent.
Qed.

Lemma flat_map_length_le (A B : Type) (g : A -> list B) (l : list A) :
  (forall x, List.length (g x) <= 1) ->
  List.length (flat_map g l) <= List.length l.
Proof.
  intros H. induction l as [|x l IH]; cbn [flat_map List.length]; [lia|].
  rewrite length_app. specialize (H x). lia.
Qed.

Lemma all_chars_split_lines (q : ascii -> bool) (s : string) :
  all_chars q s = true ->
  forall line, In line (split_lines s) -> all_chars q line = true.
Proof.
  induction s as [|c s IH]; cbn [all_chars split_lines].
  - intros _ line [<- | []]. reflexivity.
  - intros H. apply andb_true_iff in H. destruct H as [Hc Hs].
    specialize (IH Hs). destruct (Ascii.eqb c newline).
    + intros line [<- | H]; [reflexivity | now apply IH].
    + destruct (split_lines s) as [|h t].
      * intros line [<- | []]. cbn [all_chars]. now rewrite Hc.
      * intros line [<- | H].
        -- cbn [all_chars]. rewrite Hc. apply IH. now left.
        -- apply IH. now right.
Qed.

Lemma all_chars_lstrip (q : ascii -> bool) (s : string) :
  all_chars q s = true -> all_chars q (lstrip s) = true.
Proof.
  induction s as [|c s IH]; [easy|].
  intros H. cbn [lstrip]. destruct (is_space c); [|exact H].
  cbn [all_chars] in H. apply andb_true_iff in H. now apply IH.
Qed.

Lemma all_chars_rstrip (q : ascii -> bool) (s : string) :
  all_chars q s = true -> all_chars q (rstrip s) = true.
Proof.
  induction s as [|c s IH]; [easy|].
  intros H. cbn [all_chars] in H. apply andb_true_iff in H. destruct H as [Hc Hs].
  rewrite rstrip_cons. specialize (IH Hs). destruct (rstrip s) as [|x r].
  - destruct (is_space c); [reflexivity|]. cbn [all_chars]. now rewrite Hc.
  - cbn [all_chars] in IH |- *. now rewrite Hc.
Qed.

(** A stripped line of an ASCII text does not start with the bullet. *)
Lemma ascii_line_no_bullet (d line : string) :
  ascii_text d -> In line (split_lines d) -> startswith bullet (strip line) = false.
Proof.
  intros A H. pose proof (all_chars_split_lines _ _ A _ H) as L.
  apply all_chars_rstrip, all_chars_lstrip in L. fold (strip line) in L.
  destruct (strip line) as [|c l]; [reflexivity|].
  cbn [all_chars] in L. apply andb_true_iff in L. destruct L as [Hc _].
  unfold bullet. cbn [startswith].
  destruct (Ascii.eqb_spec "226"%char c) as [<- | _]; [discriminate Hc | reflexivity].
Qed.

(** X19.  There are at most as many requirements as lines of the text.
    For a description of ASCII characters every requirement the parser
    keeps comes from a line that, once stripped, starts with a hyphen or
    an asterisk (the third mark of the source, a bullet, is not such a
    character); it is what follows that mark, and it carries no
    whitespace at either end; a text without any such line gives none. *)
Theorem requirements_come_from_bullet_lines (d : string) :
  List.length (IssueData.requirements (parsed d)) <= List.length (split_lines d) /\
  (ascii_text d ->
   (forall r, In r (IssueData.requirements (parsed d)) ->
      strip r = r /\
      exists line mark,
        In line (split_lines d) /\ In mark ["-"; "*"] /\
        startswith mark (strip line) = true /\
        r = strip (drop 1 (strip line))) /\
   ((forall line mark, In line (split_lines d) -> In mark ["-"; "*"] ->
                       startswith mark (strip line) = false) ->
    IssueData.requirements (parsed d) = [])).
Proof.
  change (IssueData.requirements (parsed d))
    with (flat_map requirement_of_line (split_lines d)).
  split; [|intros A; split].
  - apply flat_map_length_le. intros line. unfold requirement_of_line.
    destruct (_ || _)%bool; [cbn; lia|]. destruct (startswith bullet _); cbn; lia.
  - intros r H. apply in_flat_map in H. destruct H as (line & Hl & H).
    split; [exact (requirement_of_line_stripped _ _ H)|].
    exists line. unfold requirement_of_line in H.
    rewrite (ascii_line_no_bullet _ A Hl) in H.
    destruct (startswith "-" (strip line)) eqn:S1.
    + destruct H as [<- | []]. exists "-". cbn; auto.
    + destruct (startswith "*" (strip line)) eqn:S2; [|destruct H].
      destruct H as [<- | []]. exists "*". cbn; auto.
  - intros H. apply flat_map_nil. intros line Hl. unfold requirement_of_line.
    rewrite (H line "-" Hl), (H line "*" Hl), (ascii_line_no_bullet _ A Hl);
      cbn; auto.
Qed.

End Requirements.

(** ** Extra properties: undocumented PII use *)

Section PiiReported.

Variable list_of_set : list string -> list string.
Variable p : Project.
Variable d : string.

(** X20.  When the PII document names its masker, every readable
    Python file outside the "test" paths whose lower-cased text contains
    email, phone, ssn or personal and whose text does not contain the
    masker makes the run halt with the documentation mismatch, and the
    report holds a discrepancy that cites the PII document and names the
    file. *)
Theorem undocumented_pii_use_is_reported
    (dirs : list string) (nm t masker kw : string) :
  PiiConfig.masking_function (pii_config (docs_read p)) = Some masker ->
  endswith ".py" nm = true ->
  read_text p (dirs ++ [nm]) = Some t ->
  ~ occurs_in "test" (path_join (project_root p) (rel_of (dirs ++ [nm]))) ->
  In kw ["email"; "phone"; "ssn"; "personal"] ->
  occurs_in kw (lower t) ->
  ~ occurs_in masker t ->
  exists discrepancies questions message x,
    work_on_issue list_of_set p d =
      documentation_mismatch discrepancies questions message /\
    In x discrepancies /\
    DocumentationDiscrepancy.doc_file x = pii_doc /\
    DocumentationDiscrepancy.actual_code x =
      (nm ++ " handles PII but doesn't import " ++ masker)%string.
Proof.
  intros Hm Hpy R Nt Hkw Ho Nm.
  set (f := mk_source (rel_of (dirs ++ [nm])) nm t).
  assert (G : In f (glob_py p)) by (now apply glob_finds).
  assert (T : truthy (PiiConfig.masking_function (pii_config (docs_read p))) = true).
  { destruct (pii_topic_documented p) as [_ S]. specialize (S masker Hm).
    rewrite Hm. destruct masker; [|reflexivity].
    cbn in S. intuition discriminate. }
  assert (C : pii_file_check p (pii_config (docs_read p)) f =
              [DocumentationDiscrepancy.mk
                 "docs/security/pii_masking.md"
                 ("All PII should use " ++ masker)
                 (nm ++ " handles PII but doesn't import " ++ masker)
                 ("Add: from "
                    ++ get_default (PiiConfig.import_from (pii_config (docs_read p)))
                                   "utils.pii"
                    ++ " import " ++ masker)]).
  { unfold pii_file_check, abs_path. cbn [rel text name f].
    destruct (contains "test" _) eqn:E1; [apply contains_spec in E1; contradiction|].
    assert (E2 : contains_any ["email"; "phone"; "ssn"; "personal"] (lower t) = true)
      by (apply contains_any_spec; now exists kw).
    rewrite E2, Hm. cbn [get_default].
    destruct (contains masker t) eqn:E3; [apply contains_spec in E3; contradiction|].
    reflexivity. }
  assert (D : In (DocumentationDiscrepancy.mk
                 "docs/security/pii_masking.md"
                 ("All PII should use " ++ masker)
                 (nm ++ " handles PII but doesn't import " ++ masker)
                 ("Add: from "
                    ++ get_default (PiiConfig.import_from (pii_config (docs_read p)))
                                   "utils.pii"
                    ++ " import " ++ masker))
                (doc_discrepancies (validated list_of_set p d new_automation))).
  { rewrite validated_discrepancies. apply in_or_app. left.
    unfold pii_discrepancies. rewrite T. apply in_flat_map. exists f.
    split; [exact G|]. rewrite C. now left. }
  destruct (status_cases list_of_set p d)
    as [(_ & Run & _) | [(E & _) | [(E & _) | (E & _)]]];
    try (rewrite E in D; destruct D).
  rewrite Run. unfold _handle_documentation_discrepancies.
  do 4 eexists. split; [reflexivity|]. split; [exact D|]. split; reflexivity.
Qed.

End PiiReported.

Lemma undocumented_pii_use_witness :
  exists discrepancies questions message x,
    work_on_issue Fixtures.first_seen Fixtures.undocumented_views Fixtures.typo_issue =
      documentation_mismatch discrepancies questions message /\
    In x discrepancies /\
    DocumentationDiscrepancy.doc_file x = pii_doc /\
    DocumentationDiscrepancy.actual_code x =
      ("views.py" ++ " handles PII but doesn't import " ++ "GlobalPIIMasker")%string.
Proof.
  apply (@undocumented_pii_use_is_reported Fixtures.first_seen Fixtures.undocumented_views
           Fixtures.typo_issue ["app"] "views.py"
           "email = request.user.email  # TODO mask" "GlobalPIIMasker" "email").
  - vm_compute. reflexivity.
  - vm_compute. reflexivity.
  - vm_compute. reflexivity.
  - intros H. apply contains_spec in H. vm_compute in H. discriminate.
  - vm_compute. auto.
  - apply contains_spec. vm_compute. reflexivity.
  - intros H. apply contains_spec in H. vm_compute in H. discriminate.
Defined.

(** ** Extra properties: the project and workflow documents *)

Section ProjectDocuments.

Local Open Scope string_scope.

Lemma icase_version_char (x : ascii) :
  (version_char x || version_char (lower_char x) || version_char (upper_char x))%bool
  = version_char x.
Proof.
  apply eqb_prop. revert x. apply forall_ascii. vm_compute. reflexivity.
Qed.

Lemma search_group0_in (r : regex) (c g : string) :
  search_group0 r c = Some g -> matches r g /\ occurs_in g c.
Proof.
  unfold search_group0. destruct (search r c) as [m|] eqn:E; [|discriminate].
  intros H. injection H as <-. apply search_sound in E.
  destruct E as (pre & -> & M). split; [assumption | apply occurs_in_middle].
Qed.

Lemma search_group0_none (r : regex) (c : string) :
  search_group0 r c = None <-> ~ has_match r c.
Proof.
  rewrite <- search_spec. unfold search_group0.
  destruct (search r c); split; intros H; try discriminate; reflexivity.
Qed.

Lemma matches_branch (b : string) : matches branch_pattern_re b <-> branch_shaped b.
Proof.
  unfold branch_pattern_re, branch_shaped. rewrite matches_cat. split.
  - intros (kind & m2 & -> & Mk & M2).
    apply matches_grp, matches_one_of3 in Mk.
    apply matches_cat in M2. destruct M2 as (sl & tail & -> & Ms & Mt).
    inversion Ms; subst. apply matches_plus_cls in Mt. destruct Mt as [N A].
    now exists kind, tail.
  - intros (kind & tail & -> & Hk & N & A).
    exists kind, ("/" ++ tail). repeat split.
    + now apply matches_grp, matches_one_of3.
    + apply matches_cat. exists "/", tail. repeat split.
      * constructor.
      * now apply matches_plus_cls.
Qed.

Lemma matches_commit (f : string) : matches commit_format_re f <-> commit_shaped f.
Proof.
  unfold commit_format_re, commit_shaped. rewrite matches_cat. split.
  - intros (lit & m2 & -> & Ml & M2). apply matches_lit in Ml. subst lit.
    apply matches_cat in M2. destruct M2 as (tag & m3 & -> & Mt & M3).
    apply matches_star_cls in Mt.
    apply matches_cat in M3. destruct M3 as (br & body & -> & Mb & Mbody).
    inversion Mb; subst. apply matches_plus_cls in Mbody. destruct Mbody as [N A].
    now exists tag, body.
  - intros (tag & body & -> & At & N & Ab).
    exists "[ISSUE", (tag ++ "]" ++ body). repeat split.
    + now apply matches_lit.
    + apply matches_cat. exists tag, ("]" ++ body). repeat split.
      * now apply matches_star_cls.
      * apply matches_cat. exists "]", body. repeat split.
        -- constructor.
        -- now apply matches_plus_cls.
Qed.

(** X21.  The commit format kept from the workflow document is a text
    of the document that opens with a bracketed tag starting with ISSUE
    and goes on, non-empty, within the line; it is missing exactly when
    the document has no such text.  For a document of ASCII characters
    the branch pattern kept is a text of the document made of one of the
    words feature, bugfix, hotfix, a slash and a non-empty run without
    whitespace, and it is missing exactly when the document has no such
    text. *)
Theorem workflow_patterns_come_from_document (content : string) :
  (ascii_text content ->
   (forall b, WorkflowConfig.branch_pattern (_parse_workflow content) = Some b ->
              branch_shaped b /\ occurs_in b content) /\
   (WorkflowConfig.branch_pattern (_parse_workflow content) = None <->
    ~ exists b, branch_shaped b /\ occurs_in b content)) /\
  (forall f, WorkflowConfig.commit_format (_parse_workflow content) = Some f ->
             commit_shaped f /\ occurs_in f content) /\
  (WorkflowConfig.commit_format (_parse_workflow content) = None <->
   ~ exists f, commit_shaped f /\ occurs_in f content).
Proof.
  cbn [_parse_workflow WorkflowConfig.branch_pattern WorkflowConfig.commit_format].
  assert (HM : forall r (shaped : string -> Prop),
             (forall s, matches r s <-> shaped s) ->
             (has_match r content <-> exists s, shaped s /\ occurs_in s content)).
  { intros r shaped E. unfold has_match. split.
    - intros (pre & m & post & -> & M). exists m. split; [now apply E|].
      apply occurs_in_middle.
    - intros (s & Hs & pre & post & ->). exists pre, s, post.
      split; [reflexivity | now apply E]. }
  split; [intros _; split|split].
  - intros b H. apply search_group0_in in H. destruct H as [M O].
    split; [now apply matches_branch | assumption].
  - rewrite search_group0_none, (HM _ _ matches_branch). reflexivity.
  - intros f H. apply search_group0_in in H. destruct H as [M O].
    split; [now apply matches_commit | assumption].
  - rewrite search_group0_none, (HM _ _ matches_commit). reflexivity.
Qed.

Lemma django_pattern_shape :
  django_pattern =
  Cat (icase (Lit "Django"))
      (Cat (Star (icase space)) (Grp (icase (Plus (Cls version_char))))).
Proof. reflexivity. Qed.

Lemma matches_icase_star_space (s : string) :
  matches (Star (icase space)) s <-> all_chars is_space s = true.
Proof.
  change (icase space)
    with (Cls (fun x => (is_space x || is_space (lower_char x)
                         || is_space (upper_char x))%bool)).
  rewrite matches_star_cls. now rewrite (all_chars_ext _ is_space s icase_space).
Qed.

(** X22.  For a project document of ASCII characters the Django version
    kept is a non-empty run of digits and dots written after the word
    Django, in any letter case, and optional whitespace; nothing asks for
    a digit in it.  The database kept is "postgresql" whenever the
    lower-cased document contains that word, and "mysql" only when it
    contains "mysql" and not "postgresql". *)
Theorem project_document_fields (content : string) :
  (ascii_text content ->
   forall v, ClaudeConfig.django_version (_parse_claude_md content) = Some v ->
             version_written content v) /\
  (occurs_in "postgresql" (lower content) ->
   ClaudeConfig.database (_parse_claude_md content) = Some "postgresql") /\
  (ClaudeConfig.database (_parse_claude_md content) = Some "mysql" <->
   occurs_in "mysql" (lower content) /\ ~ occurs_in "postgresql" (lower content)) /\
  (ClaudeConfig.database (_parse_claude_md content) = None <->
   ~ occurs_in "mysql" (lower content) /\ ~ occurs_in "postgresql" (lower content)).
Proof.
  cbn [_parse_claude_md ClaudeConfig.django_version ClaudeConfig.database].
  split; [|rewrite <- !contains_spec;
           destruct (contains "postgresql" (lower content)),
                    (contains "mysql" (lower content));
           repeat split; try discriminate; try tauto; try congruence;
           intros [? ?]; congruence].
  intros _ v H. unfold search_group1 in H.
  destruct (search django_pattern content) as [m|] eqn:E; [|discriminate].
  injection H as <-. apply search_captures in E. destruct E as (pre & Ec & M).
  rewrite django_pattern_shape in M.
  apply cmatches_cat in M. destruct M as (w & m2 & gw & g2 & E0 & Eg & Mw & M2).
  rewrite (cmatches_group_free Mw) in Eg
    by (rewrite group_free_icase; apply group_free_lit).
  apply cmatches_matches, matches_icase_lit in Mw.
  apply cmatches_prefix_group in M2; try reflexivity.
  destruct M2 as (ws & v & -> & -> & Ms & Mv).
  apply matches_icase_star_space in Ms.
  apply (matches_icase_plus _ _ icase_version_char) in Mv. destruct Mv as [N A].
  unfold group. rewrite Eg. cbn [nth Nat.sub app].
  repeat split; try assumption.
  exists w, ws. repeat split; try assumption.
  rewrite Ec, E0. apply occurs_in_middle.
Qed.

End ProjectDocuments.

(** ** The extra properties on concrete inputs *)

Lemma topic_documented_witness :
  truthy (PiiConfig.masking_function (pii_config (docs_read compliant_project))) = true /\
  In "GlobalPIIMasker" pii_symbols.
Proof.
  destruct (topic_documented_iff_symbol_mentioned compliant_project) as ((T & S) & _).
  split.
  - apply T. exists "Mask personal data with GlobalPIIMasker.". split.
    + vm_compute. reflexivity.
    + exists "GlobalPIIMasker". split; [vm_compute; auto|].
      apply contains_spec. vm_compute. reflexivity.
  - apply S. vm_compute. reflexivity.
Defined.

Lemma issue_number_witness :
  "42" <> EmptyString /\ all_chars is_digit "42" = true /\
  (occurs_in ("#" ++ "42")%string Fixtures.export_issue \/
   (~ has_hash_number Fixtures.export_issue /\
    exists w ws, upper w = "ISSUE" /\ ws <> EmptyString /\
                 all_chars is_space ws = true /\
                 occurs_in (w ++ ws ++ "42")%string Fixtures.export_issue)).
Proof.
  assert (A : ascii_text Fixtures.export_issue) by (vm_compute; reflexivity).
  destruct (@issue_number_extraction Fixtures.export_issue Fixtures.first_seen
              Fixtures.bare A) as (S & _).
  apply S. vm_compute. reflexivity.
Defined.

Lemma parsed_endpoints_witness :
  In (Endpoint.method (Endpoint.mk "POST" "/users/{id}/export")) http_methods /\
  well_formed_path (Endpoint.path (Endpoint.mk "POST" "/users/{id}/export")) /\
  endpoint_written Fixtures.export_issue (Endpoint.mk "POST" "/users/{id}/export").
Proof.
  assert (A : ascii_text Fixtures.export_issue) by (vm_compute; reflexivity).
  destruct (@parsed_endpoints_come_from_text Fixtures.export_issue A) as (S & _).
  apply S. vm_compute. auto.
Defined.

Lemma requirements_witness :
  strip "CSV download" = "CSV download" /\
  exists line mark,
    In line (split_lines bullets_sample) /\ In mark ["-"; "*"] /\
    startswith mark (strip line) = true /\
    "CSV download" = strip (drop 1 (strip line)).
Proof.
  destruct (requirements_come_from_bullet_lines bullets_sample) as (_ & R).
  destruct R as (S & _); [vm_compute; reflexivity|].
  apply S. vm_compute. auto.
Defined.

Lemma approval_witness :
  status (work_on_issue Fixtures.first_seen Fixtures.logging_only Fixtures.typo_issue)
    = "approval_needed".
Proof.
  apply (proj2 (approval_needs_everything_settled Fixtures.first_seen
                  Fixtures.logging_only Fixtures.typo_issue)).
  split; [vm_compute; reflexivity|].
  split; [vm_compute; reflexivity|].
  split; [exists "7"; vm_compute; reflexivity|].
  split; [vm_compute; reflexivity|].
  split; [|vm_compute; reflexivity].
  intros H. apply contains_spec in H. vm_compute in H. discriminate.
Defined.

Lemma discrepancy_report_witness :
  exists questions,
    _handle_documentation_discrepancies six_discrepancies =
      documentation_mismatch (doc_discrepancies six_discrepancies) questions
        "Documentation doesn't match code - need guidance" /\
    List.length questions = 18 /\
    In (more_discrepancies_note 6) questions.
Proof.
  destruct (discrepancy_report_is_bounded six_discrepancies) as (qs & E & L & _ & M).
  exists qs. split; [exact E|]. split; [exact L|].
  apply M. vm_compute. lia.
Defined.

Lemma workflow_patterns_witness :
  (branch_shaped "feature/ISSUE-12-export" /\
   occurs_in "feature/ISSUE-12-export" workflow_sample) /\
  (commit_shaped "[ISSUE-12] Add export" /\
   occurs_in "[ISSUE-12] Add export" workflow_sample).
Proof.
  destruct (workflow_patterns_come_from_document workflow_sample) as (B & C & _).
  split.
  - destruct B as (B & _); [vm_compute; reflexivity|].
    apply B. vm_compute. reflexivity.
  - apply C. vm_compute. reflexivity.
Defined.

Lemma project_document_witness :
  version_written project_sample "4.2" /\
  ClaudeConfig.database (_parse_claude_md project_sample) = Some "mysql".
Proof.
  destruct (project_document_fields project_sample) as (V & _ & M & _).
  split.
  - apply V; vm_compute; reflexivity.
  - apply M. split.
    + apply contains_spec. vm_compute. reflexivity.
    + intros H. apply contains_spec in H. vm_compute in H. discriminate.
Defined.
